(** * Chub search extension: the search, pagination and batch-fetch pipeline

    A shallow embedding of [src/index.js].  The text that the user types
    (the search term and the tag fields), which [encodeURIComponent] can
    refuse, is modelled with all of its UTF-16 code units ([Utf16.text]);
    the other JavaScript strings are modelled as [string] (one [ascii] per
    code unit, restricted to the code units 0..255), arrays as [list], the
    module-level variables as the fields of a [State] record, and [async]
    functions as computations in a
    state-and-exception monad that also records the observable effects
    (network requests, DOM renderings, notifications, host callbacks) in a
    trace.  An operation runs to completion: interleavings of two
    operations at their [await] points are not modelled, and a second
    operation started while another is outstanding is represented by
    starting it in a state whose [isLoading] flag is set. *)

From Stdlib Require Import List Arith Bool Lia ZArith NArith String Ascii.
From Stdlib Require Import Numbers.DecimalString.
Import ListNotations.
Open Scope string_scope.
Open Scope nat_scope.
Open Scope list_scope.

Set Implicit Arguments.

(* ================================================================== *)
(** ** JavaScript string primitives *)
(* ================================================================== *)

Module JsString.

(** [`${n}`] for a non-negative integer. *)
Definition of_nat (n : nat) : string := NilEmpty.string_of_uint (Nat.to_uint n).

(** [`${b}`] for a boolean. *)
Definition of_bool (b : bool) : string := if b then "true" else "false".

(** [l.join(sep)]. *)
Definition join (sep : string) (l : list string) : string := String.concat sep l.

(** [s.split(sep)] for a non-empty separator.  [skip] counts the code units
    of a separator occurrence that are still to be dropped, [cur] holds the
    current segment in reverse. *)
Fixpoint split_go (sep : string) (skip : nat) (cur : list ascii) (s : string)
  : list string :=
  match s with
  | EmptyString => [string_of_list_ascii (rev cur)]
  | String c s' =>
      match skip with
      | S k => split_go sep k cur s'
      | O =>
          if prefix sep s
          then string_of_list_ascii (rev cur) :: split_go sep (String.length sep - 1) [] s'
          else split_go sep 0 (c :: cur) s'
      end
  end.

Definition split (sep s : string) : list string := split_go sep 0 [] s.

(** [s.includes(c)] for a single code unit. *)
Fixpoint includes (c : ascii) (s : string) : bool :=
  match s with
  | EmptyString => false
  | String d s' => Ascii.eqb c d || includes c s'
  end.

(** White space of [String.prototype.trim] among the code units 0..255. *)
Definition is_space (c : ascii) : bool :=
  let n := nat_of_ascii c in
  (((9 <=? n) && (n <=? 13)) || (n =? 32) || (n =? 160))%nat.

Fixpoint trim_start (s : string) : string :=
  match s with
  | EmptyString => EmptyString
  | String c s' => if is_space c then trim_start s' else s
  end.

Definition rev_string (s : string) : string :=
  string_of_list_ascii (rev (list_ascii_of_string s)).

(** [s.trim()]. *)
Definition trim (s : string) : string :=
  rev_string (trim_start (rev_string (trim_start s))).

(** [s.replace(/c/g, '')] for a single code unit [c]. *)
Fixpoint remove_all (c : ascii) (s : string) : string :=
  match s with
  | EmptyString => EmptyString
  | String d s' => if Ascii.eqb c d then remove_all c s' else String d (remove_all c s')
  end.

(** Upper-case hexadecimal digit. *)
Definition hex_digit (n : nat) : ascii :=
  if (n <? 10)%nat then ascii_of_nat (48 + n) else ascii_of_nat (55 + n).

Definition percent (byte : nat) : string :=
  String "%"%char (String (hex_digit (byte / 16)) (String (hex_digit (byte mod 16)) EmptyString)).

(** The characters [encodeURIComponent] leaves alone:
    [A-Z a-z 0-9 - _ . ! ~ * ' ( )]. *)
Definition unreserved (c : ascii) : bool :=
  let n := nat_of_ascii c in
  (((65 <=? n) && (n <=? 90)) || ((97 <=? n) && (n <=? 122)) ||
   ((48 <=? n) && (n <=? 57)) ||
   (n =? 45) || (n =? 95) || (n =? 46) || (n =? 33) || (n =? 126) ||
   (n =? 42) || (n =? 39) || (n =? 40) || (n =? 41))%nat.

(** [s.trimEnd()]. *)
Definition trim_end (s : string) : string := rev_string (trim_start (rev_string s)).

(** The name of a header, as [Headers] compares it: ASCII letters in lower
    case. *)
Definition lower (c : ascii) : ascii :=
  let n := nat_of_ascii c in
  if ((65 <=? n) && (n <=? 90))%nat then ascii_of_nat (n + 32) else c.

Fixpoint toLowerAscii (s : string) : string :=
  match s with
  | EmptyString => EmptyString
  | String c s' => String (lower c) (toLowerAscii s')
  end.

End JsString.

(* ================================================================== *)
(** ** Text that gets URL-encoded *)
(* ================================================================== *)

(** The search term and the tag fields are typed by the user and reach
    [encodeURIComponent], which throws on an unpaired surrogate.  These
    strings are sequences of UTF-16 code units. *)
Module Utf16.

(** A code unit: its high byte and its low byte. *)
Definition CodeUnit : Type := (ascii * ascii)%type.

Definition text : Type := list CodeUnit.

Definition code (c : CodeUnit) : N := (N_of_ascii (fst c) * 256 + N_of_ascii (snd c))%N.

Definition of_code (n : N) : CodeUnit := (ascii_of_N (n / 256), ascii_of_N (n mod 256)).

Definition latin1 (a : ascii) : CodeUnit := (Ascii.zero, a).

(** A string literal of the script, or any string of code units 0..255. *)
Definition of_string (s : string) : text := map latin1 (list_ascii_of_string s).

Definition eqb (a b : CodeUnit) : bool :=
  Ascii.eqb (fst a) (fst b) && Ascii.eqb (snd a) (snd b).

Definition comma : CodeUnit := latin1 ","%char.

(** [s.includes(c)] for a single code unit. *)
Definition includes (c : CodeUnit) (s : text) : bool := existsb (eqb c) s.

(** White space and line terminators, as [String.prototype.trim] takes
    them away: TAB, LF, VT, FF, CR, SP, NBSP, U+1680, U+2000..U+200A,
    U+2028, U+2029, U+202F, U+205F, U+3000 and U+FEFF. *)
Definition is_space (c : CodeUnit) : bool :=
  let n := code c in
  (((9 <=? n) && (n <=? 13)) || (n =? 32) || (n =? 160) || (n =? 0x1680)
   || ((0x2000 <=? n) && (n <=? 0x200A)) || (n =? 0x2028) || (n =? 0x2029)
   || (n =? 0x202F) || (n =? 0x205F) || (n =? 0x3000) || (n =? 0xFEFF))%N.

Fixpoint trim_start (s : text) : text :=
  match s with
  | [] => []
  | c :: s' => if is_space c then trim_start s' else s
  end.

(** [s.trim()]. *)
Definition trim (s : text) : text := rev (trim_start (rev (trim_start s))).

(** [s.split(sep)] for a separator of one code unit; [cur] holds the current
    segment in reverse. *)
Fixpoint split_go (sep : CodeUnit) (cur : list CodeUnit) (s : text) : list text :=
  match s with
  | [] => [rev cur]
  | c :: s' =>
      if eqb sep c then rev cur :: split_go sep [] s'
      else split_go sep (c :: cur) s'
  end.

Definition split (sep : CodeUnit) (s : text) : list text := split_go sep [] s.

(** [l.join(sep)]. *)
Fixpoint join (sep : text) (l : list text) : text :=
  match l with
  | [] => []
  | [x] => x
  | x :: rest => x ++ sep ++ join sep rest
  end.

(** [s.slice(b, e)] for [0 <= b] and [0 <= e]. *)
Definition slice (b e : nat) (s : text) : text := firstn (e - b) (skipn b s).

(** *** [encodeURIComponent] *)

Definition is_lead (c : CodeUnit) : bool :=
  ((0xD800 <=? code c) && (code c <=? 0xDBFF))%N.

Definition is_trail (c : CodeUnit) : bool :=
  ((0xDC00 <=? code c) && (code c <=? 0xDFFF))%N.

(** The code point of a surrogate pair. *)
Definition codePoint (lead trail : CodeUnit) : N :=
  (0x10000 + (code lead - 0xD800) * 0x400 + (code trail - 0xDC00))%N.

Definition percent (byte : N) : string := JsString.percent (N.to_nat byte).

(** The UTF-8 bytes of a code point, each as [%XX]. *)
Definition utf8 (cp : N) : string :=
  (if (cp <? 0x80)%N then percent cp
   else if (cp <? 0x800)%N then
     percent (0xC0 + cp / 0x40) ++ percent (0x80 + cp mod 0x40)
   else if (cp <? 0x10000)%N then
     percent (0xE0 + cp / 0x1000) ++ percent (0x80 + (cp / 0x40) mod 0x40)
     ++ percent (0x80 + cp mod 0x40)
   else
     percent (0xF0 + cp / 0x40000) ++ percent (0x80 + (cp / 0x1000) mod 0x40)
     ++ percent (0x80 + (cp / 0x40) mod 0x40) ++ percent (0x80 + cp mod 0x40))%string.

(** The code units that are copied as they are:
    [A-Z a-z 0-9 - _ . ! ~ * ' ( )]. *)
Definition unreserved (c : CodeUnit) : bool :=
  Ascii.eqb (fst c) Ascii.zero && JsString.unreserved (snd c).

(** [encodeURIComponent(s)]; [None] where it throws [URIError], on a
    surrogate that is not part of a pair. *)
Fixpoint encodeURIComponent (s : text) : option string :=
  match s with
  | [] => Some EmptyString
  | c :: rest =>
      if unreserved c then option_map (String (snd c)) (encodeURIComponent rest)
      else if is_lead c then
        match rest with
        | d :: rest' =>
            if is_trail d
            then option_map (String.append (utf8 (codePoint c d))) (encodeURIComponent rest')
            else None
        | [] => None
        end
      else if is_trail c then None
      else option_map (String.append (utf8 (code c))) (encodeURIComponent rest)
  end.

End Utf16.

(* ================================================================== *)
(** ** Data model *)
(* ================================================================== *)

(** A raw search-result record.  [tagline] is [None] when the field is
    absent; an empty tagline is falsy as well. *)
Record CatalogNode := {
  node_fullPath : string;
  node_name : string;
  node_tagline : option string;
  node_topics : list string
}.

Record Blob := { blob_data : string; blob_type : string }.

(** [new File([data], fileName, { type: data.type })]. *)
Record File := { file_data : Blob; file_name : string; file_type : string }.

(** The object built by [processCharacters] for one node.  The object URL
    made by [URL.createObjectURL(blob)] is identified with the blob it
    resolves to. *)
Record DisplayEntity := {
  url : Blob;
  description : string;
  name : string;
  fullPath : string;
  tags : list string;
  author : string
}.

(** The options object of [fetchCharactersBySearch].  An absent [sort] or
    [searchTerm] is the empty string (both are falsy). *)
Record SearchOptions := {
  searchTerm : Utf16.text;
  includeTags : list Utf16.text;
  excludeTags : list Utf16.text;
  nsfw : bool;
  sort : string;
  page : nat
}.

(** [extension_settings.chub]. *)
Record Settings := { findCount : nat; settings_nsfw : bool }.

Definition defaultSettings : Settings := {| findCount := 10; settings_nsfw := false |}.

(** *** The network *)

Inductive Method := GET | POST.

(** Request bodies, before [JSON.stringify]. *)
Inductive Body :=
| NoBody
| DownloadBody (fullPath format version : string)
| ImportBody (url : string).

Record Request := { req_url : string; req_method : Method; req_body : Body }.

(** The parsed body of a search response, [{ nodes: [...] }]; [sd_nodes] is
    [None] when the object has no [nodes] array. *)
Record SearchData := { sd_nodes : option (list CatalogNode) }.

(** A response.  [resp_json] is [None] when [response.json()] rejects;
    reading the body as a blob always succeeds.  [resp_headers] is the
    header list of the response, names as they were received. *)
Record Response := {
  ok : bool;
  status : nat;
  statusText : string;
  resp_headers : list (string * string);
  resp_blob : Blob;
  resp_json : option SearchData
}.

(** What [await fetch(...)] gives: a response of any status, or a rejection
    (transport failure). *)
Inductive FetchResult :=
| Responded (r : Response)
| Rejected.

(** The remote side: the answer to each request. *)
Definition Network := Request -> FetchResult.

(** Header names are compared without regard to the case of ASCII
    letters. *)
Definition sameHeaderName (a b : string) : bool :=
  String.eqb (JsString.toLowerAscii a) (JsString.toLowerAscii b).

(** [headers.get(name)]: the values of all headers of that name, in order,
    joined with a comma and a space; [None] ([null]) when there is none. *)
Definition headers_get (h : list (string * string)) (name : string) : option string :=
  match map snd (filter (fun kv => sameHeaderName (fst kv) name) h) with
  | [] => None
  | values => Some (JsString.join ", " values)
  end.

(** *** The view *)

(** Markup as the script writes it: a string in which the object URLs of
    blobs stand as such.  The pieces of a list are concatenated. *)
Inductive Markup :=
| Text (s : string)
| ObjectUrl (blob : Blob).

Definition Html : Type := list Markup.

(** The DOM element behind [characterListContainer].  Its children are the
    nodes that the browser parsed from the markup it was given: they are
    recorded as that markup, one entry for every fragment that was parsed
    on its own and then put into the element. *)
Record Container := {
  inDocument : bool;          (* document.body.contains(characterListContainer) *)
  searching : bool;           (* the 'searching' class *)
  children : list Html
}.

(** *** Exceptions and observable effects *)

Inductive Exn :=
| NetworkError (r : Request)     (* fetch rejected *)
| SyntaxError                    (* response.json() rejected *)
| URIError                       (* encodeURIComponent: unpaired surrogate *)
| TypeError (what : string).     (* property access on null or undefined *)

Inductive Event :=
| Fetch (r : Request)
| Render (characters : list DisplayEntity) (append : bool)
| ToastInfo (message title link : string)
| ToastWarning (message : string)
| ConsoleError (message : string)
| ProcessDroppedFiles (files : list File).

(** *** Module-level state *)

Record State := {
  chubCharacters : list DisplayEntity;
  characterListContainer : option Container;
  isLoading : bool;
  currentPage : nat;
  hasMoreResults : bool;
  extension_settings : Settings;
  trace : list Event
}.

Definition set_chubCharacters (v : list DisplayEntity) (s : State) : State :=
  {| chubCharacters := v; characterListContainer := characterListContainer s;
     isLoading := isLoading s; currentPage := currentPage s;
     hasMoreResults := hasMoreResults s; extension_settings := extension_settings s;
     trace := trace s |}.

Definition set_characterListContainer (v : option Container) (s : State) : State :=
  {| chubCharacters := chubCharacters s; characterListContainer := v;
     isLoading := isLoading s; currentPage := currentPage s;
     hasMoreResults := hasMoreResults s; extension_settings := extension_settings s;
     trace := trace s |}.

Definition set_isLoading (v : bool) (s : State) : State :=
  {| chubCharacters := chubCharacters s; characterListContainer := characterListContainer s;
     isLoading := v; currentPage := currentPage s;
     hasMoreResults := hasMoreResults s; extension_settings := extension_settings s;
     trace := trace s |}.

Definition set_currentPage (v : nat) (s : State) : State :=
  {| chubCharacters := chubCharacters s; characterListContainer := characterListContainer s;
     isLoading := isLoading s; currentPage := v;
     hasMoreResults := hasMoreResults s; extension_settings := extension_settings s;
     trace := trace s |}.

Definition set_hasMoreResults (v : bool) (s : State) : State :=
  {| chubCharacters := chubCharacters s; characterListContainer := characterListContainer s;
     isLoading := isLoading s; currentPage := currentPage s;
     hasMoreResults := v; extension_settings := extension_settings s;
     trace := trace s |}.

(** Append events to the trace. *)
Definition log (evs : list Event) (s : State) : State :=
  {| chubCharacters := chubCharacters s; characterListContainer := characterListContainer s;
     isLoading := isLoading s; currentPage := currentPage s;
     hasMoreResults := hasMoreResults s; extension_settings := extension_settings s;
     trace := trace s ++ evs |}.

(** The module-level variables as the script initialises them, with the
    default settings merged by [loadSettings]. *)
Definition initialState : State :=
  {| chubCharacters := []; characterListContainer := None; isLoading := false;
     currentPage := 1; hasMoreResults := true;
     extension_settings := defaultSettings; trace := [] |}.

(* ================================================================== *)
(** ** The monad of [async] functions *)
(* ================================================================== *)

Inductive Result (A : Type) :=
| Ok (a : A)
| Throw (e : Exn).

Arguments Ok {A} a.
Arguments Throw {A} e.

Definition M (A : Type) : Type := State -> Result A * State.

Definition ret {A} (a : A) : M A := fun s => (Ok a, s).

Definition bind {A B} (m : M A) (k : A -> M B) : M B :=
  fun s => match m s with
           | (Ok a, s') => k a s'
           | (Throw e, s') => (Throw e, s')
           end.

Definition throw {A} (e : Exn) : M A := fun s => (Throw e, s).

Definition gets {A} (f : State -> A) : M A := fun s => (Ok (f s), s).

Definition modify (f : State -> State) : M unit := fun s => (Ok tt, f s).

Definition emit (e : Event) : M unit := modify (log [e]).

(** Run a promise to settlement without throwing: the outcome as a value. *)
Definition settle {A} (m : M A) : M (Result A) :=
  fun s => let (r, s') := m s in (Ok r, s').

(** [p.finally(h)]. *)
Definition finally {A} (m : M A) (h : M unit) : M A :=
  fun s => match m s with
           | (r, s') => match h s' with
                        | (Ok _, s'') => (r, s'')
                        | (Throw e, s'') => (Throw e, s'')
                        end
           end.

(** [p.catch(h)]. *)
Definition catch (m : M unit) (h : Exn -> M unit) : M unit :=
  fun s => match m s with
           | (Ok a, s') => (Ok a, s')
           | (Throw e, s') => h e s'
           end.

Declare Scope js_scope.
Delimit Scope js_scope with js.
Notation "x <- m ;; k" := (bind m (fun x => k))
  (at level 61, m at next level, right associativity) : js_scope.
Notation "m ;; k" := (bind m (fun _ => k))
  (at level 61, right associativity) : js_scope.
Open Scope js_scope.

Definition when (b : bool) (m : M unit) : M unit := if b then m else ret tt.

Fixpoint mapM {A B} (f : A -> M B) (l : list A) : M (list B) :=
  match l with
  | [] => ret []
  | a :: l' => b <- f a ;; bs <- mapM f l' ;; ret (b :: bs)
  end.

(** [await Promise.all(promises)] once every promise has settled: the
    values in order, or the rejection of a promise that rejected.  Which
    rejection comes first in time is not modelled; the first in the order
    of the array is taken. *)
Fixpoint promise_all {A} (settled : list (Result A)) : Result (list A) :=
  match settled with
  | [] => Ok []
  | Throw e :: _ => Throw e
  | Ok a :: rest =>
      match promise_all rest with
      | Ok l => Ok (a :: l)
      | Throw e => Throw e
      end
  end.

Definition await_all {A} (settled : list (Result A)) : M (list A) :=
  match promise_all settled with
  | Ok l => ret l
  | Throw e => throw e
  end.

(* ================================================================== *)
(** ** The program *)
(* ================================================================== *)

Definition API_ENDPOINT_SEARCH : string := "https://api.chub.ai/api/characters/search".
Definition API_ENDPOINT_DOWNLOAD : string := "https://api.chub.ai/api/characters/download".

(** *** Query construction (the synchronous head of [fetchCharactersBySearch]) *)

(** [tags.filter(tag => tag.length > 0)]. *)
Definition filterTags (tags : list Utf16.text) : list Utf16.text :=
  filter (fun tag => 0 <? List.length tag) tags.

(** The value that is URL-encoded and attached for a tag list, or [None]
    when the filtered list is empty and nothing is attached:
    [tags.join(',').slice(0, 100)]. *)
Definition tagsValue (tags : list Utf16.text) : option Utf16.text :=
  let tags := filterTags tags in
  if 0 <? List.length tags
  then Some (Utf16.slice 0 100 (Utf16.join [Utf16.comma] tags))
  else None.

(** [url += `&key=${encodeURIComponent(value)}`], or nothing: what is
    appended to the URL, or [None] when [encodeURIComponent] throws. *)
Definition tagsParameter (key : string) (tags : list Utf16.text) : option string :=
  match tagsValue tags with
  | Some value =>
      option_map (fun encoded => ("&" ++ key ++ "=" ++ encoded)%string)
                 (Utf16.encodeURIComponent value)
  | None => Some ""
  end.

(** The URL before the tag parameters are attached, or [None] when
    [encodeURIComponent(searchTerm)] throws. *)
Definition baseUrl (settings : Settings) (options : SearchOptions) : option string :=
  let first := findCount settings in
  let asc := false in
  let include_forks := true in
  let nsfw := nsfw options || settings_nsfw settings in
  let require_images := false in
  let require_custom_prompt := false in
  let searchTerm :=
    match searchTerm options with
    | [] => Some ""
    | term => option_map (fun encoded => ("search=" ++ encoded ++ "&")%string)
                         (Utf16.encodeURIComponent term)
    end in
  let sort := if String.eqb (sort options) "" then "download_count" else sort options in
  option_map
    (fun searchTerm =>
       (API_ENDPOINT_SEARCH ++ "?" ++ searchTerm ++ "first=" ++ JsString.of_nat first
        ++ "&page=" ++ JsString.of_nat (page options) ++ "&sort=" ++ sort
        ++ "&asc=" ++ JsString.of_bool asc ++ "&venus=true&include_forks="
        ++ JsString.of_bool include_forks ++ "&nsfw=" ++ JsString.of_bool nsfw
        ++ "&require_images=" ++ JsString.of_bool require_images
        ++ "&require_custom_prompt=" ++ JsString.of_bool require_custom_prompt)%string)
    searchTerm.

(** The URL that is fetched, or [None] when one of the three calls of
    [encodeURIComponent] throws [URIError]. *)
Definition searchUrl (settings : Settings) (options : SearchOptions) : option string :=
  match baseUrl settings options,
        tagsParameter "tags" (includeTags options),
        tagsParameter "exclude_tags" (excludeTags options) with
  | Some url, Some tags, Some exclude_tags => Some (url ++ tags ++ exclude_tags)%string
  | _, _, _ => None
  end.

Definition searchRequest (settings : Settings) (options : SearchOptions) : option Request :=
  option_map (fun url => {| req_url := url; req_method := GET; req_body := NoBody |})
             (searchUrl settings options).

(** *** Requests of [getCharacter] and [downloadCharacter] *)

Definition downloadRequest (fullPath : string) : Request :=
  {| req_url := API_ENDPOINT_DOWNLOAD; req_method := POST;
     req_body := DownloadBody fullPath "tavern" "main" |}.

Definition avatarRequest (fullPath : string) : Request :=
  {| req_url := ("https://avatars.charhub.io/avatars/" ++ fullPath ++ "/avatar.webp")%string;
     req_method := GET; req_body := NoBody |}.

Definition importRequest (endpoint url : string) : Request :=
  {| req_url := endpoint; req_method := POST; req_body := ImportBody url |}.

(** *** Batching *)

Definition batchSize : nat := 20.

(** [nodes.slice(i, j)]. *)
Definition list_slice {A} (i j : nat) (l : list A) : list A := firstn (j - i) (skipn i l).

(** [for (let i = 0; i < nodes.length; i += batchSize)
       batches.push(nodes.slice(i, i + batchSize))], from index [i];
    [fuel] bounds the number of iterations. *)
Fixpoint batches_from {A} (fuel i : nat) (nodes : list A) : list (list A) :=
  match fuel with
  | O => []
  | S fuel' =>
      if i <? List.length nodes
      then list_slice i (i + batchSize) nodes :: batches_from fuel' (i + batchSize) nodes
      else []
  end.

(** The loop runs at most once per node. *)
Definition make_batches {A} (nodes : list A) : list (list A) :=
  batches_from (List.length nodes) 0 nodes.

(** *** Entities *)

Definition placeholderDescription : string := "Description here...".

(** [node.tagline || "Description here..."]. *)
Definition descriptionOf (node : CatalogNode) : string :=
  match node_tagline node with
  | Some t => if String.eqb t "" then placeholderDescription else t
  | None => placeholderDescription
  end.

(** [node.fullPath.split('/')[0]]. *)
Definition authorOf (fullPath : string) : string := hd "" (JsString.split "/" fullPath).

Definition makeEntity (node : CatalogNode) (blob : Blob) : DisplayEntity :=
  {| url := blob;
     description := descriptionOf node;
     name := node_name node;
     fullPath := node_fullPath node;
     tags := node_topics node;
     author := authorOf (node_fullPath node) |}.

(** *** Markup of the list *)

Definition doubleQuote : ascii := ascii_of_nat 34.

Definition quote : string := String doubleQuote "".

Definition newline : string := String (ascii_of_nat 10) "".

Fixpoint indent (n : nat) : string :=
  match n with
  | O => ""
  | S n' => String " "%char (indent n')
  end.

(** The name of an attribute, the equals sign and the quote that opens its
    value. *)
Definition attribute (name : string) : string := (name ++ "=" ++ quote)%string.

(** The literal parts of the template of [generateCharacterListItem], from
    one [${...}] to the next. *)
Definition itemTemplate : list string :=
  [ (newline ++ indent 8 ++ "<div " ++ attribute "class" ++ "character-list-item" ++ quote
      ++ " " ++ attribute "data-index")%string;
    (quote ++ ">" ++ newline
      ++ indent 12 ++ "<img " ++ attribute "class" ++ "thumbnail lazy" ++ quote ++ " "
      ++ newline ++ indent 16 ++ attribute "src")%string;
    (quote ++ " " ++ newline ++ indent 16 ++ attribute "alt")%string;
    (quote ++ " />" ++ newline
      ++ indent 12 ++ "<div " ++ attribute "class" ++ "info" ++ quote ++ ">" ++ newline
      ++ indent 16 ++ "<a " ++ attribute "href" ++ "https://chub.ai/characters/")%string;
    (quote ++ " " ++ attribute "target" ++ "_blank" ++ quote ++ ">" ++ newline
      ++ indent 20 ++ "<div " ++ attribute "class" ++ "name" ++ quote ++ ">")%string;
    ("</div>" ++ newline
      ++ indent 16 ++ "</a>" ++ newline
      ++ indent 16 ++ "<a " ++ attribute "href" ++ "https://chub.ai/users/")%string;
    (quote ++ " " ++ attribute "target" ++ "_blank" ++ quote ++ ">" ++ newline
      ++ indent 20 ++ "<span " ++ attribute "class" ++ "author" ++ quote ++ ">by ")%string;
    ("</span>" ++ newline
      ++ indent 16 ++ "</a>" ++ newline
      ++ indent 16 ++ "<div " ++ attribute "class" ++ "description" ++ quote ++ ">")%string;
    ("</div>" ++ newline
      ++ indent 16 ++ "<div " ++ attribute "class" ++ "description-toggle" ++ quote
      ++ ">Show More</div>" ++ newline
      ++ indent 16 ++ "<div " ++ attribute "class" ++ "tags" ++ quote ++ ">")%string;
    ("</div>" ++ newline
      ++ indent 12 ++ "</div>" ++ newline
      ++ indent 12 ++ "<div " ++ attribute "data-path")%string;
    (quote ++ " " ++ attribute "class"
      ++ "menu_button download-btn fa-solid fa-cloud-arrow-down faSmallFontSquareFix"
      ++ quote ++ "></div>" ++ newline
      ++ indent 8 ++ "</div>" ++ newline ++ indent 4)%string ].

Definition literal (i : nat) : string := nth i itemTemplate "".

(** [value || fallback] for strings. *)
Definition orElse (value fallback : string) : string :=
  if String.eqb value "" then fallback else value.

(** The [span] of class [tag] that holds a tag. *)
Definition tagMarkup (tag : string) : Markup :=
  Text ("<span " ++ attribute "class" ++ "tag" ++ quote ++ ">" ++ tag ++ "</span>")%string.

(** [generateCharacterListItem(character, index)].  The final [trim()]
    takes away the white space at the two ends of the template; the
    interpolated values stand between these ends. *)
Definition generateCharacterListItem (character : DisplayEntity) (index : nat) : Html :=
  [ Text (JsString.trim_start (literal 0)); Text (JsString.of_nat index);
    Text (literal 1); ObjectUrl (url character);
    Text (literal 2); Text (orElse (name character) "Character Image");
    Text (literal 3); Text (fullPath character);
    Text (literal 4); Text (orElse (name character) "Default Name");
    Text (literal 5); Text (author character);
    Text (literal 6); Text (author character);
    Text (literal 7); Text (description character);
    Text (literal 8) ]
  ++ map tagMarkup (tags character)
  ++ [ Text (literal 9); Text (fullPath character);
       Text (JsString.trim_end (literal 10)) ].

(** [characters.map((character, i) => generateCharacterListItem(character, i)).join('')]. *)
Definition renderItems (characters : list DisplayEntity) : Html :=
  flat_map (fun ic => generateCharacterListItem (snd ic) (fst ic))
           (combine (seq 0 (List.length characters)) characters).

(** The [div] of class [no-characters-found]. *)
Definition noCharactersFound : Html :=
  [Text ("<div " ++ attribute "class" ++ "no-characters-found" ++ quote
         ++ ">No characters found</div>")%string].

(** *** Scroll geometry and the search form *)

Record ScrollGeometry := { scrollHeight : Z; scrollTop : Z; clientHeight : Z }.

(** The values of the popup's inputs.  The page-number input is read by
    [handleSearch] too, but only to be clamped in the DOM: no request
    depends on it. *)
Record Form := {
  characterSearchInput : Utf16.text;
  includeTagsInput : Utf16.text;
  excludeTagsInput : Utf16.text;
  nsfwCheckbox : bool;
  sortOrder : string
}.

Record DomEvent := { ev_type : string; ev_key : string; ev_target : string }.

(** [splitAndTrim] of [handleSearch]. *)
Definition splitAndTrim (str : Utf16.text) : list Utf16.text :=
  let str := Utf16.trim str in
  if negb (Utf16.includes Utf16.comma str) then [str]
  else map Utf16.trim (Utf16.split Utf16.comma str).

(** [value.split(',').filter(tag => tag.length > 0).map(t => t.trim())]
    of [scrollHandler]. *)
Definition scrollTags (value : Utf16.text) : list Utf16.text :=
  map Utf16.trim (filterTags (Utf16.split Utf16.comma value)).

(** [case expected:] of a [switch] over a header value that may be [null]. *)
Definition isContentType (expected : string) (declared : option string) : bool :=
  match declared with
  | Some t => String.eqb t expected
  | None => false
  end.

(** [header.split('filename=')[1]] with every double quote removed; [None]
    where the source dereferences [undefined]. *)
Definition fileNameOf (contentDisposition : string) : option string :=
  match nth_error (JsString.split "filename=" contentDisposition) 1 with
  | Some part => Some (JsString.remove_all doubleQuote part)
  | None => None
  end.

Section Program.

Variable net : Network.

(** [fetch(request)] up to the point where the request has been sent. *)
Definition fetch_start (r : Request) : M FetchResult :=
  emit (Fetch r) ;; ret (net r).

(** [await] on a started fetch. *)
Definition fetch_await (r : Request) (answer : FetchResult) : M Response :=
  match answer with
  | Responded response => ret response
  | Rejected => throw (NetworkError r)
  end.

(** [await fetch(request)]. *)
Definition fetch (r : Request) : M Response :=
  answer <- fetch_start r ;; fetch_await r answer.

(** [getCharacter] from its first [await] on: the primary request has been
    sent and [answer] is what comes back. *)
Definition getCharacter_resume (fullPath : string) (answer : FetchResult) : M Blob :=
  response <- fetch_await (downloadRequest fullPath) answer ;;
  response <- (if negb (ok response)
               then fetch (avatarRequest fullPath)
               else ret response) ;;
  ret (resp_blob response).

Definition getCharacter (fullPath : string) : M Blob :=
  answer <- fetch_start (downloadRequest fullPath) ;;
  getCharacter_resume fullPath answer.

(** [updateCharacterListInView(characters, append)]: the markup of all
    characters is parsed into a fragment, the list is emptied unless
    [append], and the fragment goes to the end of the list. *)
Definition updateCharacterListInView (characters : list DisplayEntity) (append : bool)
  : M unit :=
  container <- gets characterListContainer ;;
  match container with
  | None => ret tt
  | Some c =>
      modify (set_characterListContainer
                (Some {| inDocument := inDocument c; searching := searching c;
                         children := (if append then children c else [])
                                       ++ [renderItems characters] |})) ;;
      emit (Render characters append)
  end.

(** One batch: [batch.map(async (node) => ...)] sends the primary request of
    every node before anything is awaited; then each promise runs on its
    own to settlement; [Promise.all] joins them. *)
Definition processBatch (batch : list CatalogNode) : M (list DisplayEntity) :=
  started <- mapM (fun node =>
                     answer <- fetch_start (downloadRequest (node_fullPath node)) ;;
                     ret (node, answer)) batch ;;
  settled <- mapM (fun na =>
                     settle (blob <- getCharacter_resume (node_fullPath (fst na)) (snd na) ;;
                             ret (makeEntity (fst na) blob))) started ;;
  await_all settled.

(** [for (const batch of batches) { ... }] with [processedCharacters] as
    accumulator. *)
Fixpoint processBatches (batches : list (list CatalogNode))
         (processedCharacters : list DisplayEntity) : M (list DisplayEntity) :=
  match batches with
  | [] => ret processedCharacters
  | batch :: rest =>
      results <- processBatch batch ;;
      let processedCharacters := processedCharacters ++ results in
      container <- gets characterListContainer ;;
      match container with
      | Some _ => updateCharacterListInView processedCharacters true
      | None => ret tt
      end ;;
      processBatches rest processedCharacters
  end.

Definition processCharacters (nodes : list CatalogNode) : M (list DisplayEntity) :=
  processBatches (make_batches nodes) [].

Definition fetchCharactersBySearch (options : SearchOptions) : M (list DisplayEntity) :=
  settings <- gets extension_settings ;;
  request <- match searchRequest settings options with
             | Some request => ret request
             | None => throw URIError
             end ;;
  searchResponse <- fetch request ;;
  searchData <- match resp_json searchResponse with
                | Some d => ret d
                | None => throw SyntaxError
                end ;;
  modify (set_chubCharacters []) ;;
  nodes <- match sd_nodes searchData with
           | Some nodes => ret nodes
           | None => throw (TypeError "searchData.nodes is undefined")
           end ;;
  if List.length nodes =? 0 then gets chubCharacters
  else
    characters <- processCharacters nodes ;;
    modify (set_chubCharacters characters) ;;
    gets chubCharacters.

Definition set_searching (b : bool) : M unit :=
  container <- gets characterListContainer ;;
  match container with
  | Some c => modify (set_characterListContainer
                        (Some {| inDocument := inDocument c; searching := b;
                                 children := children c |}))
  | None => ret tt
  end.

Definition searchCharacters (options : SearchOptions) : M (list DisplayEntity) :=
  container <- gets characterListContainer ;;
  match container with
  | Some c => when (negb (inDocument c)) (modify (set_characterListContainer None))
  | None => ret tt
  end ;;
  set_searching true ;;
  characters <- fetchCharactersBySearch options ;;
  set_searching false ;;
  ret characters.

Definition with_page (options : SearchOptions) (p : nat) : SearchOptions :=
  {| searchTerm := searchTerm options; includeTags := includeTags options;
     excludeTags := excludeTags options; nsfw := nsfw options;
     sort := sort options; page := p |}.

(** [executeCharacterSearch] from its [await] on: [searchCharacters] has
    resolved with [characters]. *)
Definition executeCharacterSearch_resume (characters : list DisplayEntity) (append : bool)
  : M unit :=
  (if 0 <? List.length characters
   then
     updateCharacterListInView characters append ;;
     settings <- gets extension_settings ;;
     modify (set_hasMoreResults (List.length characters =? findCount settings))
   else
     when (negb append)
          (container <- gets characterListContainer ;;
           match container with
           | Some c => modify (set_characterListContainer
                                 (Some {| inDocument := inDocument c;
                                          searching := searching c;
                                          children := [noCharactersFound] |}))
           | None => throw (TypeError "characterListContainer is null")
           end) ;;
     modify (set_hasMoreResults false)) ;;
  modify (set_isLoading false).

Definition executeCharacterSearch (options : SearchOptions) (append : bool) : M unit :=
  when (negb append)
       (modify (set_currentPage 1) ;; modify (set_hasMoreResults true)) ;;
  more <- gets hasMoreResults ;;
  if negb more then ret tt
  else
    p <- gets currentPage ;;
    characters <- searchCharacters (with_page options p) ;;
    executeCharacterSearch_resume characters append.

(** The body that [debounce] runs for [executeCharacterSearchDebounced]. *)
Definition executeCharacterSearchDebounced (options : SearchOptions) : M unit :=
  loading <- gets isLoading ;;
  if negb loading
  then modify (set_isLoading true) ;;
       finally (executeCharacterSearch options false) (modify (set_isLoading false))
  else ret tt.

Definition formOptions (form : Form) (tagsOf : Utf16.text -> list Utf16.text) (p : nat)
  : SearchOptions :=
  {| searchTerm := characterSearchInput form;
     includeTags := tagsOf (includeTagsInput form);
     excludeTags := tagsOf (excludeTagsInput form);
     nsfw := nsfwCheckbox form;
     sort := sortOrder form;
     page := p |}.

(** Whether [handleSearch] returns at its first test. *)
Definition ignoredKey (e : DomEvent) : bool :=
  String.eqb (ev_type e) "keydown" && negb (String.eqb (ev_key e) "Enter")
  && negb (String.eqb (ev_target e) "includeTags")
  && negb (String.eqb (ev_target e) "excludeTags").

Definition handleSearch (e : DomEvent) (form : Form) : M unit :=
  if ignoredKey e then ret tt
  else
    modify (set_currentPage 1) ;;
    modify (set_hasMoreResults true) ;;
    modify (set_isLoading false) ;;
    p <- gets currentPage ;;
    executeCharacterSearch (formOptions form splitAndTrim p) false.

Definition threshold : Z := 200.

(** The body that [debounce] runs for [scrollHandler]. *)
Definition scrollHandler (g : ScrollGeometry) (form : Form) : M unit :=
  loading <- gets isLoading ;;
  more <- gets hasMoreResults ;;
  if loading || negb more then ret tt
  else
    container <- gets characterListContainer ;;
    match container with
    | None => throw (TypeError "characterListContainer is null")
    | Some _ =>
        let bottomOffset := (scrollHeight g - (scrollTop g + clientHeight g))%Z in
        if (bottomOffset <? threshold)%Z
        then
          modify (set_isLoading true) ;;
          p <- gets currentPage ;;
          let searchParams := formOptions form scrollTags (p + 1) in
          modify (set_currentPage (page searchParams)) ;;
          finally
            (catch (executeCharacterSearch searchParams true)
                   (fun _ => emit (ConsoleError "Infinite scroll error:")))
            (modify (set_isLoading false))
        else ret tt
    end.

(** [downloadCharacter(input)]. *)
Definition downloadCharacter (input : string) : M unit :=
  let url := JsString.trim input in
  request <- fetch (importRequest "/api/content/importUUID" url) ;;
  request <- (if negb (ok request)
              then fetch (importRequest "/import_custom" url)
              else ret request) ;;
  if negb (ok request)
  then
    emit (ToastInfo "Click to go to the character page" "Custom content import failed"
                    ("https://www.chub.ai/characters/" ++ url)%string) ;;
    emit (ConsoleError "Custom content import failed")
  else
    let data := resp_blob request in
    let customContentType := headers_get (resp_headers request) "X-Custom-Content-Type" in
    fileName <- match headers_get (resp_headers request) "Content-Disposition" with
                | None => throw (TypeError "Content-Disposition header is null")
                | Some header =>
                    match fileNameOf header with
                    | Some f => ret f
                    | None => throw (TypeError "no filename= in Content-Disposition")
                    end
                end ;;
    let file := {| file_data := data; file_name := fileName; file_type := blob_type data |} in
    if isContentType "character" customContentType
    then emit (ProcessDroppedFiles [file])
    else
      emit (ToastWarning "Unknown content type") ;;
      emit (ConsoleError "Unknown content type").

End Program.

(* ================================================================== *)
(** ** Pure descriptions used in the statements *)
(* ================================================================== *)

(** What [getCharacter] yields once the primary request got [answer]. *)
Definition blobOutcome (net : Network) (fullPath : string) (answer : FetchResult)
  : Result Blob :=
  match answer with
  | Rejected => Throw (NetworkError (downloadRequest fullPath))
  | Responded r =>
      if ok r then Ok (resp_blob r)
      else match net (avatarRequest fullPath) with
           | Responded r2 => Ok (resp_blob r2)
           | Rejected => Throw (NetworkError (avatarRequest fullPath))
           end
  end.

(** The backup request, when the primary answer calls for one. *)
Definition backupRequests (fullPath : string) (answer : FetchResult) : list Event :=
  match answer with
  | Responded r => if ok r then [] else [Fetch (avatarRequest fullPath)]
  | Rejected => []
  end.

(** The settled promise of a node whose primary request got [snd na]. *)
Definition settledOf (net : Network) (na : CatalogNode * FetchResult)
  : Result DisplayEntity :=
  match blobOutcome net (node_fullPath (fst na)) (snd na) with
  | Ok blob => Ok (makeEntity (fst na) blob)
  | Throw e => Throw e
  end.

(** The settled promise of one node of a batch. *)
Definition entityOutcome (net : Network) (node : CatalogNode) : Result DisplayEntity :=
  match blobOutcome net (node_fullPath node) (net (downloadRequest (node_fullPath node))) with
  | Ok blob => Ok (makeEntity node blob)
  | Throw e => Throw e
  end.

(** Every request made for the node is answered with a response, of
    whatever status. *)
Definition answered (net : Network) (node : CatalogNode) : bool :=
  match entityOutcome net node with
  | Ok _ => true
  | Throw _ => false
  end.

(** The node's requests are answered, and with failure statuses only: the
    primary endpoint responds unsuccessfully and so does the backup. *)
Definition failsOnBothStatuses (net : Network) (node : CatalogNode) : bool :=
  match net (downloadRequest (node_fullPath node)),
        net (avatarRequest (node_fullPath node)) with
  | Responded r1, Responded r2 => negb (ok r1) && negb (ok r2)
  | _, _ => false
  end.

(** The node fails on both endpoints: the primary responds unsuccessfully,
    and the backup responds unsuccessfully or is rejected. *)
Definition failsOnBoth (net : Network) (node : CatalogNode) : bool :=
  match net (downloadRequest (node_fullPath node)),
        net (avatarRequest (node_fullPath node)) with
  | Responded r1, Responded r2 => negb (ok r1) && negb (ok r2)
  | Responded r1, Rejected => negb (ok r1)
  | Rejected, _ => false
  end.

Definition emptyBlob : Blob := {| blob_data := ""; blob_type := "" |}.

(** The entity of an answered node. *)
Definition entityOf (net : Network) (node : CatalogNode) : DisplayEntity :=
  match entityOutcome net node with
  | Ok e => e
  | Throw _ => makeEntity node emptyBlob
  end.

(** The requests of one batch, in the order the model sends them. *)
Definition batchRequests (net : Network) (batch : list CatalogNode) : list Event :=
  map (fun node => Fetch (downloadRequest (node_fullPath node))) batch
  ++ flat_map (fun node => backupRequests (node_fullPath node)
                             (net (downloadRequest (node_fullPath node)))) batch.

(** The trace of the enricher over answered batches, with a container
    present: per batch its requests, then the rendering of everything
    processed so far. *)
Fixpoint enrichTrace (net : Network) (processed : list DisplayEntity)
         (batches : list (list CatalogNode)) : list Event :=
  match batches with
  | [] => []
  | batch :: rest =>
      let processed' := processed ++ map (entityOf net) batch in
      batchRequests net batch ++ Render processed' true :: enrichTrace net processed' rest
  end.

(** The lists handed to [updateCharacterListInView], in order. *)
Fixpoint deliveries (tr : list Event) : list (list DisplayEntity) :=
  match tr with
  | [] => []
  | Render characters _ :: tr' => characters :: deliveries tr'
  | _ :: tr' => deliveries tr'
  end.

(** The requests sent, in order. *)
Fixpoint requests (tr : list Event) : list Request :=
  match tr with
  | [] => []
  | Fetch r :: tr' => r :: requests tr'
  | _ :: tr' => requests tr'
  end.

(** The calls of the host's file-ingestion callback, in order. *)
Fixpoint ingestions (tr : list Event) : list (list File) :=
  match tr with
  | [] => []
  | ProcessDroppedFiles files :: tr' => files :: ingestions tr'
  | _ :: tr' => ingestions tr'
  end.

(** Running concatenations: [[b1; b1 ++ b2; ...]] on top of [acc]. *)
Fixpoint accumulate {A} (acc : list A) (batches : list (list A)) : list (list A) :=
  match batches with
  | [] => []
  | b :: rest => (acc ++ b) :: accumulate (acc ++ b) rest
  end.

(** Each list extends the one before it. *)
Fixpoint increasing {A} (l : list (list A)) : Prop :=
  match l with
  | a :: (b :: _) as rest => (exists ext, b = a ++ ext) /\ increasing rest
  | _ => True
  end.

(** The sizes of the batches of [n] nodes. *)
Fixpoint batchSizes (fuel n : nat) : list nat :=
  match fuel with
  | O => []
  | S fuel' => if n =? 0 then [] else Nat.min batchSize n :: batchSizes fuel' (n - batchSize)
  end.

(** Batches of [batchSize] nodes, the last one possibly smaller. *)
Fixpoint wellSized (sizes : list nat) : Prop :=
  match sizes with
  | [] => True
  | [x] => 1 <= x <= batchSize
  | x :: rest => x = batchSize /\ wellSized rest
  end.

(** The state in which [searchCharacters] calls [fetchCharactersBySearch]:
    a container that left the document is forgotten, one that is present
    is greyed out. *)
Definition markSearching (b : bool) (s : State) : State :=
  match characterListContainer s with
  | Some c => set_characterListContainer
                (Some {| inDocument := inDocument c; searching := b;
                         children := children c |}) s
  | None => s
  end.

Definition beginSearch (s : State) : State :=
  markSearching true
    (match characterListContainer s with
     | Some c => if negb (inDocument c) then set_characterListContainer None s else s
     | None => s
     end).

(** The state in which [executeCharacterSearch] passes its gate. *)
Definition resetPagination (append : bool) (s : State) : State :=
  if append then s else set_hasMoreResults true (set_currentPage 1 s).

(** The comma-separated members of a tag string. *)
Definition members (value : Utf16.text) : list Utf16.text := Utf16.split Utf16.comma value.

Definition nonEmpty (s : Utf16.text) : bool := 0 <? List.length s.

(** [encodeURIComponent] returns. *)
Definition encodable (s : Utf16.text) : bool :=
  match Utf16.encodeURIComponent s with
  | Some _ => true
  | None => false
  end.

(** A string without an unpaired surrogate
    ([String.prototype.isWellFormed]). *)
Fixpoint wellFormed (s : Utf16.text) : bool :=
  match s with
  | [] => true
  | c :: rest =>
      if Utf16.is_lead c
      then match rest with
           | d :: rest' => Utf16.is_trail d && wellFormed rest'
           | [] => false
           end
      else negb (Utf16.is_trail c) && wellFormed rest
  end.

(** *** State relations *)

(** [f] has the same value in both states. *)
Definition keeps {A} (f : State -> A) (s s' : State) : Prop := f s' = f s.

(** A computation that never leaves the relation [R]. *)
Definition preserves (R : State -> State -> Prop) {A} (m : M A) : Prop :=
  forall s, R s (snd (m s)).

Definition hasContainer (s : State) : bool :=
  match characterListContainer s with Some _ => true | None => false end.

(** [isLoading] is not switched on. *)
Definition notRaised (s s' : State) : Prop := isLoading s' = true -> isLoading s = true.

(** The trace only grows. *)
Definition grows (s s' : State) : Prop := exists evs, trace s' = trace s ++ evs.

(** *** Search operations *)

(** The operations through which the popup starts a search: the handler of
    the search inputs, the scroll handler, and the debounced wrapper. *)
Inductive SearchOperation :=
| FreshSearch (e : DomEvent) (form : Form)
| LoadMore (g : ScrollGeometry) (form : Form)
| DebouncedSearch (options : SearchOptions).

Definition runOperation (net : Network) (op : SearchOperation) : M unit :=
  match op with
  | FreshSearch e form => handleSearch net e form
  | LoadMore g form => scrollHandler net g form
  | DebouncedSearch options => executeCharacterSearchDebounced net options
  end.

(** Whether the operation gets as far as calling [executeCharacterSearch]. *)
Definition startsSearch (op : SearchOperation) (s : State) : bool :=
  match op with
  | FreshSearch e _ => negb (ignoredKey e)
  | LoadMore g _ =>
      negb (isLoading s) && hasMoreResults s && hasContainer s
      && (scrollHeight g - (scrollTop g + clientHeight g) <? threshold)%Z
  | DebouncedSearch _ => negb (isLoading s)
  end.

(** The file handed to the host for an import response. *)
Definition importedFile (response : Response) (fileName : string) : File :=
  {| file_data := resp_blob response; file_name := fileName;
     file_type := blob_type (resp_blob response) |}.

(** The last response of the import sequence and the requests sent. *)
Definition importRequests (url : string) (primaryOk : bool) : list Event :=
  if primaryOk
  then [Fetch (importRequest "/api/content/importUUID" url)]
  else [Fetch (importRequest "/api/content/importUUID" url);
        Fetch (importRequest "/import_custom" url)].

Definition importFailed (url : string) : list Event :=
  [ToastInfo "Click to go to the character page" "Custom content import failed"
             ("https://www.chub.ai/characters/" ++ url)%string;
   ConsoleError "Custom content import failed"].

Definition unknownContentType : list Event :=
  [ToastWarning "Unknown content type"; ConsoleError "Unknown content type"].

(* ================================================================== *)
(** ** Concrete scenarios *)
(* ================================================================== *)

Definition pngBlob (data : string) : Blob := {| blob_data := data; blob_type := "image/png" |}.

Definition respond (isOk : bool) (code : nat) (text data : string) : Response :=
  {| ok := isOk; status := code; statusText := text; resp_headers := [];
     resp_blob := pngBlob data; resp_json := None |}.

Definition ok200 (data : string) : Response := respond true 200 "OK" data.
Definition error500 : Response := respond false 500 "Internal Server Error" "error".
Definition error404 : Response := respond false 404 "Not Found" "missing".

(** A search response carrying [nodes]. *)
Definition page200 (nodes : list CatalogNode) : Response :=
  {| ok := true; status := 200; statusText := "OK"; resp_headers := [];
     resp_blob := pngBlob ""; resp_json := Some {| sd_nodes := Some nodes |} |}.

Definition sampleNode (i : nat) : CatalogNode :=
  {| node_fullPath := ("author/card" ++ JsString.of_nat i)%string;
     node_name := ("Card " ++ JsString.of_nat i)%string;
     node_tagline := None;
     node_topics := ["fantasy"] |}.

Definition sampleNodes (n : nat) : list CatalogNode := map sampleNode (seq 1 n).

Definition isSearch (r : Request) : bool := prefix API_ENDPOINT_SEARCH (req_url r).

Definition isAvatar (r : Request) : bool :=
  prefix "https://avatars.charhub.io/avatars/" (req_url r).

(** A catalog whose every search page holds [nodes] and whose download
    endpoint serves every card. *)
Definition healthyNet (nodes : list CatalogNode) : Network :=
  fun r => if isSearch r then Responded (page200 nodes) else Responded (ok200 "card").

(** A network on which every request is rejected. *)
Definition deadNet : Network := fun _ => Rejected.

(** As [healthyNet], but the card [author/card2] gets a failure status from
    the download endpoint and from the avatar endpoint. *)
Definition bothStatusesFailNet (nodes : list CatalogNode) : Network :=
  fun r =>
    if isSearch r then Responded (page200 nodes)
    else if isAvatar r then Responded error404
    else match req_body r with
         | DownloadBody "author/card2" _ _ => Responded error500
         | _ => Responded (ok200 "card")
         end.

(** As [healthyNet], but the card [author/card2] gets a failure status from
    the download endpoint and its avatar request is rejected. *)
Definition backupRejectedNet (nodes : list CatalogNode) : Network :=
  fun r =>
    if isSearch r then Responded (page200 nodes)
    else if isAvatar r then Rejected
    else match req_body r with
         | DownloadBody "author/card2" _ _ => Responded error500
         | _ => Responded (ok200 "card")
         end.

Definition emptyContainer : Container :=
  {| inDocument := true; searching := false; children := [] |}.

(** The popup is open and nothing has been searched yet. *)
Definition openState : State := set_characterListContainer (Some emptyContainer) initialState.

(** A scroll-triggered load is outstanding: page 2 was requested and the
    guard is set. *)
Definition loadingState : State := set_isLoading true (set_currentPage 2 openState).

Definition elfOptions : SearchOptions :=
  {| searchTerm := Utf16.of_string "elf";
     includeTags := [Utf16.of_string "fantasy"; []]; excludeTags := [];
     nsfw := false; sort := ""; page := 1 |}.

Definition elfForm : Form :=
  {| characterSearchInput := Utf16.of_string "elf";
     includeTagsInput := Utf16.of_string "fantasy,";
     excludeTagsInput := []; nsfwCheckbox := false; sortOrder := "download_count" |}.

Definition clickSearch : DomEvent :=
  {| ev_type := "click"; ev_key := ""; ev_target := "characterSearchButton" |}.

Definition atBottom : ScrollGeometry :=
  {| scrollHeight := 1000; scrollTop := 400; clientHeight := 500 |}.

(** Eleven tags of nine characters: joined they take 109 characters. *)
Definition elevenTags : list Utf16.text := repeat (Utf16.of_string "aaaaaaaaa") 11.

(** U+1F600 as its surrogate pair. *)
Definition grinningFace : Utf16.text := [Utf16.of_code 0xD83D; Utf16.of_code 0xDE00].

(** One tag of 99 letters and an emoji: 101 code units, the pair of the
    emoji at the positions 99 and 100. *)
Definition emojiTag : Utf16.text := repeat (Utf16.latin1 "a"%char) 99 ++ grinningFace.

Definition emojiOptions : SearchOptions :=
  {| searchTerm := Utf16.of_string "elf"; includeTags := [emojiTag]; excludeTags := [];
     nsfw := false; sort := ""; page := 1 |}.

(** Import responses, with the header names in lower case. *)
Definition importResponse (contentType : string) : Response :=
  {| ok := true; status := 200; statusText := "OK";
     resp_headers := [("x-custom-content-type", contentType);
                      ("content-disposition", "attachment; filename=card.png")];
     resp_blob := pngBlob "card"; resp_json := None |}.

(** A successful import response that declares a character and names no
    file. *)
Definition namelessResponse : Response :=
  {| ok := true; status := 200; statusText := "OK";
     resp_headers := [("X-Custom-Content-Type", "character")];
     resp_blob := pngBlob "card"; resp_json := None |}.

Definition namelessNet : Network := fun _ => Responded namelessResponse.

(** The primary import endpoint answers 500, the legacy one 200 with
    content type [contentType]. *)
Definition legacyOnlyNet (contentType : string) : Network :=
  fun r => if String.eqb (req_url r) "/import_custom"
           then Responded (importResponse contentType)
           else Responded error500.

Definition importDownNet : Network := fun _ => Responded error500.

(** The state after a first page of ten results was found and shown. *)
Definition pageOneState : State :=
  snd (executeCharacterSearch (healthyNet (sampleNodes 10)) elfOptions false openState).

(** The state in which [scrollHandler] calls [executeCharacterSearch] for
    the second page. *)
Definition pageTwoRequested : State := set_currentPage 2 (set_isLoading true pageOneState).

(* ================================================================== *)
(** ** The rest of the script *)
(* ================================================================== *)

(** *** The settings store *)

(** The values the settings store holds.  The store comes from the host's
    settings file, which is JSON: no value in it is a function. *)
Inductive JsValue :=
| JsNumber (n : Z)
| JsBoolean (b : bool)
| JsText (s : string).

(** An object as its own properties, in insertion order. *)
Definition JsObject := list (string * JsValue).

(** The own property [key] of [o]. *)
Fixpoint getProperty (o : JsObject) (key : string) : option JsValue :=
  match o with
  | [] => None
  | (k, v) :: o' => if String.eqb k key then Some v else getProperty o' key
  end.

(** [Object.prototype.hasOwnProperty]. *)
Definition hasOwnProperty (o : JsObject) (key : string) : bool :=
  match getProperty o key with
  | Some _ => true
  | None => false
  end.

(** [o.hasOwnProperty(key)] as the script writes it: the method is looked
    up on [o] itself, so that an own property named [hasOwnProperty] is what
    gets called, and it is not a function. *)
Definition callHasOwnProperty (o : JsObject) (key : string) : Result bool :=
  match getProperty o "hasOwnProperty" with
  | Some _ => Throw (TypeError "extension_settings.chub.hasOwnProperty is not a function")
  | None => Ok (hasOwnProperty o key)
  end.

(** [o[key] = value]: an existing property keeps its place, a new one goes
    to the end. *)
Fixpoint setProperty (o : JsObject) (key : string) (value : JsValue) : JsObject :=
  match o with
  | [] => [(key, value)]
  | (k, v) :: o' =>
      if String.eqb k key then (k, value) :: o' else (k, v) :: setProperty o' key value
  end.

(** [Object.entries(defaultSettings)]. *)
Definition defaultSettingsEntries : JsObject :=
  [("findCount", JsNumber 10); ("nsfw", JsBoolean false)].

(** The loop of [loadSettings] over the entries that are left: how it ends
    and what the store holds then. *)
Fixpoint mergeDefaults (entries : list (string * JsValue)) (chub : JsObject)
  : Result unit * JsObject :=
  match entries with
  | [] => (Ok tt, chub)
  | (key, value) :: rest =>
      match callHasOwnProperty chub key with
      | Throw e => (Throw e, chub)
      | Ok true => mergeDefaults rest chub
      | Ok false => mergeDefaults rest (setProperty chub key value)
      end
  end.

(** [loadSettings()]: [chub] is [extension_settings.chub] before the call,
    an object or [None] when it is missing; the result is how the call ends
    and what [extension_settings.chub] holds afterwards. *)
Definition loadSettings (chub : option JsObject) : Result unit * JsObject :=
  mergeDefaults defaultSettingsEntries (match chub with Some o => o | None => [] end).

(** *** Clamping and the page buttons *)











(** *** Tag permutations *)

Section TagPermutations.

(** [String.prototype.toUpperCase]. *)
Variable toUpperCase : Utf16.text -> Utf16.text.

(** [tag[0].toUpperCase() + tag.slice(1)] for a non-empty tag. *)
Definition capitalize (tag : Utf16.text) : Utf16.text :=
  match tag with
  | [] => []
  | c :: rest => toUpperCase [c] ++ rest
  end.

Fixpoint makeTagPermutations (tags : list Utf16.text) : list Utf16.text :=
  match tags with
  | [] => []
  | tag :: rest =>
      if nonEmpty tag
      then tag :: toUpperCase tag :: capitalize tag :: makeTagPermutations rest
      else makeTagPermutations rest
  end.

End TagPermutations.

(** *** Descriptions used in the further properties *)

(** Nothing but white space. *)
Definition blank (s : Utf16.text) : bool := forallb Utf16.is_space s.

(** The separator does not start anywhere in [s]. *)
Fixpoint noOccurrence (sep s : string) : bool :=
  match s with
  | EmptyString => true
  | String _ s' => negb (prefix sep s) && noOccurrence sep s'
  end.

(** The separator does not start at any position of [pre] in [pre ++ tail]. *)
Fixpoint noEarlierOccurrence (sep pre tail : string) : bool :=
  match pre with
  | EmptyString => true
  | String c pre' =>
      negb (prefix sep (String c pre' ++ tail)%string) && noEarlierOccurrence sep pre' tail
  end.

(** The view's [searching] class, when there is a container. *)
Definition searchingFlag (s : State) : option bool :=
  match characterListContainer s with
  | Some c => Some (searching c)
  | None => None
  end.

Definition containerChildren (s : State) : list Html :=
  match characterListContainer s with
  | Some c => children c
  | None => []
  end.

(** The [searching] class and the presence of the container are the same. *)
Definition sameSearching (s s' : State) : Prop := searchingFlag s' = searchingFlag s.

(** Without a container nothing is rendered and none appears. *)
Definition staysDetached (s s' : State) : Prop :=
  characterListContainer s = None ->
  characterListContainer s' = None /\ deliveries (trace s') = deliveries (trace s).

(** The current page does not fall below 1. *)
Definition pageStaysPositive (s s' : State) : Prop := 1 <= currentPage s -> 1 <= currentPage s'.

(** Operations one after the other, each against the network of its time;
    a rejection stays unhandled and the next operation starts from the
    state the failed one left. *)
Fixpoint runOperations (steps : list (Network * SearchOperation)) (s : State) : State :=
  match steps with
  | [] => s
  | (net, op) :: rest => runOperations rest (snd (runOperation net op s))
  end.

(** What the enricher puts into the container over answered batches: after
    every batch, the markup of everything processed so far. *)
Definition renderedItems (net : Network) (batches : list (list CatalogNode)) : list Html :=
  map renderItems (accumulate [] (map (map (entityOf net)) batches)).

(** Scenarios. *)

Definition storedSettings : JsObject := [("nsfw", JsBoolean true); ("theme", JsText "dark")].

(** A store with a setting named like the method. *)
Definition shadowedSettings : JsObject := [("hasOwnProperty", JsBoolean true)].

Definition detachedContainer : Container :=
  {| inDocument := false; searching := false; children := [] |}.

Definition closedState : State := set_characterListContainer (Some detachedContainer) initialState.

(* ================================================================== *)
(** * Properties *)
(* ================================================================== *)

Example ex_split_filename :
  JsString.split "filename=" "attachment; filename=x.png; filename=y" =
  ["attachment; "; "x.png; "; "y"].
Proof. reflexivity. Qed.

Example ex_split_commas :
  Utf16.split Utf16.comma (Utf16.of_string "a,,b,") =
  [Utf16.of_string "a"; []; Utf16.of_string "b"; []].
Proof. reflexivity. Qed.

Example ex_trim : JsString.trim "  a b  " = "a b".
Proof. reflexivity. Qed.

Example ex_trim_ideographic_space :
  Utf16.trim (Utf16.of_code 0x3000 :: Utf16.of_string " a b " ++ [Utf16.of_code 0xFEFF]) =
  Utf16.of_string "a b".
Proof. reflexivity. Qed.

Example ex_encode :
  Utf16.encodeURIComponent (Utf16.of_string "a b,c/d") = Some "a%20b%2Cc%2Fd".
Proof. reflexivity. Qed.

(** U+00E9, U+20AC and U+1F600 take two, three and four bytes. *)
Example ex_encode_utf8 :
  Utf16.encodeURIComponent
    (Utf16.of_code 0xE9 :: Utf16.of_code 0x20AC :: grinningFace) =
  Some "%C3%A9%E2%82%AC%F0%9F%98%80".
Proof. reflexivity. Qed.

Example ex_encode_lone_surrogate :
  Utf16.encodeURIComponent (Utf16.of_string "a" ++ [Utf16.of_code 0xD83D]) = None
  /\ Utf16.encodeURIComponent (Utf16.of_code 0xDE00 :: Utf16.of_string "a") = None.
Proof. split; reflexivity. Qed.

Example ex_headers_get :
  headers_get [("content-type", "image/png"); ("X-Tag", "a"); ("x-tag", "b")] "X-TAG"
  = Some "a, b".
Proof. reflexivity. Qed.

(** The query of the specification's round-trip example. *)
Example ex_searchUrl_elf :
  searchUrl defaultSettings elfOptions =
  Some "https://api.chub.ai/api/characters/search?search=elf&first=10&page=1&sort=download_count&asc=false&venus=true&include_forks=true&nsfw=false&require_images=false&require_custom_prompt=false&tags=fantasy".
Proof. reflexivity. Qed.

Example ex_batches_45 : map (@List.length _) (make_batches (sampleNodes 45)) = [20; 20; 5].
Proof. reflexivity. Qed.

Example ex_batchSizes_45 : batchSizes 45 45 = [20; 20; 5].
Proof. reflexivity. Qed.

(* ------------------------------------------------------------------ *)
(** ** The trace and the monad *)
(* ------------------------------------------------------------------ *)

Lemma log_nil (s : State) : log [] s = s.
Proof. destruct s; unfold log; simpl; rewrite app_nil_r; reflexivity. Qed.

Lemma log_app (a b : list Event) (s : State) : log b (log a s) = log (a ++ b) s.
Proof. unfold log; simpl; rewrite app_assoc; reflexivity. Qed.

Lemma deliveries_app (a b : list Event) : deliveries (a ++ b) = deliveries a ++ deliveries b.
Proof.
  induction a as [|e a IH]; simpl; [reflexivity|].
  destruct e; simpl; rewrite IH; reflexivity.
Qed.

Lemma requests_app (a b : list Event) : requests (a ++ b) = requests a ++ requests b.
Proof.
  induction a as [|e a IH]; simpl; [reflexivity|].
  destruct e; simpl; rewrite IH; reflexivity.
Qed.

Lemma ingestions_app (a b : list Event) : ingestions (a ++ b) = ingestions a ++ ingestions b.
Proof.
  induction a as [|e a IH]; simpl; [reflexivity|].
  destruct e; simpl; rewrite IH; reflexivity.
Qed.

Section Frame.

Variable R : State -> State -> Prop.
Hypothesis R_refl : forall s, R s s.
Hypothesis R_trans : forall a b c, R a b -> R b c -> R a c.

Lemma preserves_ret A (a : A) : preserves R (ret a).
Proof. intro s; apply R_refl. Qed.

Lemma preserves_throw A (e : Exn) : preserves R (@throw A e).
Proof. intro s; apply R_refl. Qed.

Lemma preserves_gets A (f : State -> A) : preserves R (gets f).
Proof. intro s; apply R_refl. Qed.

Lemma preserves_modify (f : State -> State) :
  (forall s, R s (f s)) -> preserves R (modify f).
Proof. intros H s; apply H. Qed.

Lemma preserves_bind A B (m : M A) (k : A -> M B) :
  preserves R m -> (forall a, preserves R (k a)) -> preserves R (bind m k).
Proof.
  intros Hm Hk s. unfold bind. specialize (Hm s).
  destruct (m s) as [[a|e] s']; simpl in *.
  - eapply R_trans; [exact Hm | apply Hk].
  - exact Hm.
Qed.

Lemma preserves_settle A (m : M A) : preserves R m -> preserves R (settle m).
Proof. intros Hm s. unfold settle. specialize (Hm s). destruct (m s); exact Hm. Qed.

Lemma preserves_finally A (m : M A) (h : M unit) :
  preserves R m -> preserves R h -> preserves R (finally m h).
Proof.
  intros Hm Hh s. unfold finally. specialize (Hm s).
  destruct (m s) as [r s']. specialize (Hh s').
  destruct (h s') as [[u|e] s'']; simpl in *; eapply R_trans; eauto.
Qed.

Lemma preserves_catch (m : M unit) (h : Exn -> M unit) :
  preserves R m -> (forall e, preserves R (h e)) -> preserves R (catch m h).
Proof.
  intros Hm Hh s. unfold catch. specialize (Hm s).
  destruct (m s) as [[u|e] s']; simpl in *; [exact Hm|].
  eapply R_trans; [exact Hm | apply Hh].
Qed.

Lemma preserves_when (b : bool) (m : M unit) : preserves R m -> preserves R (when b m).
Proof. intros Hm. destruct b; simpl; [exact Hm | apply preserves_ret]. Qed.

Lemma preserves_mapM A B (f : A -> M B) (l : list A) :
  (forall a, preserves R (f a)) -> preserves R (mapM f l).
Proof.
  intros Hf. induction l as [|a l IH]; simpl.
  - apply preserves_ret.
  - apply preserves_bind; [apply Hf | intro b].
    apply preserves_bind; [exact IH | intro bs]. apply preserves_ret.
Qed.

Lemma preserves_await_all A (l : list (Result A)) : preserves R (await_all l).
Proof.
  unfold await_all. destruct (promise_all l); [apply preserves_ret | apply preserves_throw].
Qed.

End Frame.

Lemma keeps_refl A (f : State -> A) (s : State) : keeps f s s.
Proof. reflexivity. Qed.

Lemma keeps_trans A (f : State -> A) (a b c : State) :
  keeps f a b -> keeps f b c -> keeps f a c.
Proof. unfold keeps; congruence. Qed.

Lemma notRaised_refl (s : State) : notRaised s s.
Proof. intro H; exact H. Qed.

Lemma notRaised_trans (a b c : State) : notRaised a b -> notRaised b c -> notRaised a c.
Proof. unfold notRaised; auto. Qed.

(** Takes a computation apart along its syntax; [rfl] and [trs] prove
    that the relation is a preorder, [step] closes the [modify] goals. *)
Ltac frame_with rfl trs step :=
  repeat (intros;
    match goal with
    | |- preserves _ (ret _) => apply (@preserves_ret _ rfl)
    | |- preserves _ (throw _) => apply (@preserves_throw _ rfl)
    | |- preserves _ (gets _) => apply (@preserves_gets _ rfl)
    | |- preserves _ (bind _ _) => apply (@preserves_bind _ trs)
    | |- preserves _ (settle _) => apply preserves_settle
    | |- preserves _ (finally _ _) => apply (@preserves_finally _ trs)
    | |- preserves _ (catch _ _) => apply (@preserves_catch _ trs)
    | |- preserves _ (when _ _) => apply (@preserves_when _ rfl)
    | |- preserves _ (mapM _ _) => apply (@preserves_mapM _ rfl trs)
    | |- preserves _ (await_all _) => apply (@preserves_await_all _ rfl)
    | |- preserves _ (emit _) => unfold emit
    | |- preserves _ (modify _) => apply preserves_modify; step
    | |- preserves _ (match ?x with _ => _ end) => destruct x
    end).

Ltac keeps_frame f :=
  frame_with (@keeps_refl _ f) (@keeps_trans _ f) ltac:(intro; reflexivity).

Ltac notRaised_frame :=
  frame_with notRaised_refl notRaised_trans
             ltac:(let s := fresh in let H := fresh in
                   intros s H; solve [exact H | discriminate H]).

(* ------------------------------------------------------------------ *)
(** ** [getCharacter] and one batch *)
(* ------------------------------------------------------------------ *)

Section Enricher.

Variable net : Network.

Lemma getCharacter_resume_run (fullPath : string) (answer : FetchResult) (s : State) :
  getCharacter_resume net fullPath answer s =
  (blobOutcome net fullPath answer, log (backupRequests fullPath answer) s).
Proof.
  unfold getCharacter_resume, blobOutcome, backupRequests.
  destruct answer as [r|]; simpl.
  - unfold bind; simpl. destruct (ok r); simpl.
    + rewrite log_nil; reflexivity.
    + unfold fetch, fetch_start, emit, modify, bind, ret; simpl.
      destruct (net (avatarRequest fullPath)); reflexivity.
  - unfold bind, throw; simpl. rewrite log_nil; reflexivity.
Qed.

Lemma getCharacter_run (fullPath : string) (s : State) :
  getCharacter net fullPath s =
  (blobOutcome net fullPath (net (downloadRequest fullPath)),
   log (Fetch (downloadRequest fullPath)
          :: backupRequests fullPath (net (downloadRequest fullPath))) s).
Proof.
  unfold getCharacter, fetch_start, emit, modify, bind, ret; simpl.
  rewrite getCharacter_resume_run, log_app. reflexivity.
Qed.

Lemma mapM_start (batch : list CatalogNode) (s : State) :
  mapM (fun node =>
          answer <- fetch_start net (downloadRequest (node_fullPath node)) ;;
          ret (node, answer)) batch s =
  (Ok (map (fun node => (node, net (downloadRequest (node_fullPath node)))) batch),
   log (map (fun node => Fetch (downloadRequest (node_fullPath node))) batch) s).
Proof.
  revert s. induction batch as [|node batch IH]; intro s; simpl.
  - rewrite log_nil; reflexivity.
  - unfold bind at 1 2. unfold fetch_start, emit, modify, bind, ret at 1 2 3; simpl.
    unfold bind. rewrite IH, log_app. reflexivity.
Qed.

Lemma mapM_settle (started : list (CatalogNode * FetchResult)) (s : State) :
  mapM (fun na =>
          settle (blob <- getCharacter_resume net (node_fullPath (fst na)) (snd na) ;;
                  ret (makeEntity (fst na) blob))) started s =
  (Ok (map (settledOf net) started),
   log (flat_map (fun na => backupRequests (node_fullPath (fst na)) (snd na)) started) s).
Proof.
  revert s. induction started as [|na started IH]; intro s; cbn [mapM flat_map map].
  - rewrite log_nil; reflexivity.
  - unfold bind at 1. unfold settle at 1. unfold bind at 1.
    rewrite getCharacter_resume_run.
    assert (E : forall r s1,
               (let (r0, s') := match r with
                                | Ok a => ret (makeEntity (fst na) a) s1
                                | Throw e => (Throw e, s1)
                                end in (Ok r0, s')) =
               (Ok (match r with
                    | Ok blob => Ok (makeEntity (fst na) blob)
                    | Throw e => Throw e
                    end), s1)) by (intros [b|e] s1; reflexivity).
    rewrite E. unfold bind at 1. rewrite IH, log_app. reflexivity.
Qed.

Lemma processBatch_run (batch : list CatalogNode) (s : State) :
  processBatch net batch s =
  (promise_all (map (entityOutcome net) batch), log (batchRequests net batch) s).
Proof.
  unfold processBatch, bind. rewrite mapM_start, mapM_settle, log_app.
  rewrite map_map, flat_map_concat_map, map_map, <- flat_map_concat_map.
  unfold batchRequests, await_all. simpl.
  replace (map (fun x => settledOf net (x, net (downloadRequest (node_fullPath x)))) batch)
    with (map (entityOutcome net) batch) by reflexivity.
  destruct (promise_all (map (entityOutcome net) batch)); reflexivity.
Qed.

End Enricher.

(* ------------------------------------------------------------------ *)
(** ** Batching *)
(* ------------------------------------------------------------------ *)

Lemma batches_from_concat A (fuel i : nat) (nodes : list A) :
  List.length nodes <= i + fuel ->
  List.concat (batches_from fuel i nodes) = skipn i nodes.
Proof.
  revert i. induction fuel as [|fuel IH]; intros i H; simpl.
  - symmetry. apply skipn_all2. lia.
  - destruct (i <? List.length nodes) eqn:E.
    + simpl. rewrite IH by (unfold batchSize; lia).
      unfold list_slice. replace (i + batchSize - i) with batchSize by lia.
      replace (i + batchSize) with (batchSize + i) by lia.
      rewrite <- skipn_skipn. apply firstn_skipn.
    + apply Nat.ltb_ge in E. symmetry. apply skipn_all2. exact E.
Qed.

Lemma make_batches_concat A (nodes : list A) : List.concat (make_batches nodes) = nodes.
Proof. unfold make_batches. rewrite batches_from_concat; [reflexivity | lia]. Qed.

Lemma batches_from_sizes A (fuel i : nat) (nodes : list A) :
  map (@List.length A) (batches_from fuel i nodes) = batchSizes fuel (List.length nodes - i).
Proof.
  revert i. induction fuel as [|fuel IH]; intro i; cbn [batches_from batchSizes map];
    [reflexivity|].
  destruct (i <? List.length nodes) eqn:E.
  - apply Nat.ltb_lt in E.
    replace (List.length nodes - i =? 0) with false by (symmetry; apply Nat.eqb_neq; lia).
    cbn [map]. rewrite IH. unfold list_slice.
    rewrite length_firstn, length_skipn.
    f_equal; [lia | f_equal; lia].
  - apply Nat.ltb_ge in E.
    replace (List.length nodes - i =? 0) with true by (symmetry; apply Nat.eqb_eq; lia).
    reflexivity.
Qed.

Lemma make_batches_sizes A (nodes : list A) :
  map (@List.length A) (make_batches nodes) =
  batchSizes (List.length nodes) (List.length nodes).
Proof. unfold make_batches. rewrite batches_from_sizes. f_equal. lia. Qed.

Lemma batchSizes_wellSized (fuel n : nat) : wellSized (batchSizes fuel n).
Proof.
  revert n. induction fuel as [|fuel IH]; intro n; cbn [batchSizes]; [exact I|].
  destruct (n =? 0) eqn:E; [exact I|]. apply Nat.eqb_neq in E.
  specialize (IH (n - batchSize)).
  destruct (batchSizes fuel (n - batchSize)) as [|x rest] eqn:B; cbn [wellSized].
  - unfold batchSize. lia.
  - split; [|exact IH].
    destruct fuel as [|fuel']; [discriminate B|]. cbn [batchSizes] in B.
    destruct (n - batchSize =? 0) eqn:E2; [discriminate B|].
    apply Nat.eqb_neq in E2. unfold batchSize in *. lia.
Qed.

Lemma accumulate_increasing A (acc : list A) (batches : list (list A)) :
  increasing (accumulate acc batches).
Proof.
  revert acc. induction batches as [|b rest IH]; intro acc; simpl; [exact I|].
  specialize (IH (acc ++ b)). destruct rest as [|b' rest']; simpl in *; [exact I|].
  split; [exists b'; reflexivity | exact IH].
Qed.

Lemma accumulate_length A (acc : list A) (batches : list (list A)) :
  List.length (accumulate acc batches) = List.length batches.
Proof.
  revert acc. induction batches as [|b rest IH]; intro acc; simpl; [reflexivity|].
  rewrite IH; reflexivity.
Qed.

(* ------------------------------------------------------------------ *)
(** ** The enricher *)
(* ------------------------------------------------------------------ *)

Lemma promise_all_app A (l1 l2 : list (Result A)) :
  promise_all (l1 ++ l2) =
  match promise_all l1 with
  | Throw e => Throw e
  | Ok a => match promise_all l2 with
            | Ok b => Ok (a ++ b)
            | Throw e => Throw e
            end
  end.
Proof.
  induction l1 as [|[a|e] l1 IH]; simpl.
  - destruct (promise_all l2); reflexivity.
  - rewrite IH. destruct (promise_all l1); [|reflexivity].
    destruct (promise_all l2); reflexivity.
  - reflexivity.
Qed.

Lemma promise_all_length A (l : list (Result A)) (values : list A) :
  promise_all l = Ok values -> List.length values = List.length l.
Proof.
  revert values. induction l as [|[a|e] l IH]; simpl; intros values H.
  - injection H as <-. reflexivity.
  - destruct (promise_all l) as [v|]; [|discriminate H].
    injection H as <-. simpl. rewrite (IH v); reflexivity.
  - discriminate H.
Qed.

Lemma promise_all_answered (net : Network) (nodes : list CatalogNode) :
  forallb (answered net) nodes = true ->
  promise_all (map (entityOutcome net) nodes) = Ok (map (entityOf net) nodes).
Proof.
  induction nodes as [|node nodes IH]; simpl; intro H; [reflexivity|].
  apply andb_true_iff in H as [H1 H2]. rewrite (IH H2).
  unfold answered in H1. unfold entityOf.
  destruct (entityOutcome net node); [reflexivity | discriminate H1].
Qed.

Lemma updateCharacterListInView_run (characters : list DisplayEntity) (append : bool)
      (c : Container) (s : State) :
  characterListContainer s = Some c ->
  updateCharacterListInView characters append s =
  (Ok tt,
   log [Render characters append]
       (set_characterListContainer
          (Some {| inDocument := inDocument c; searching := searching c;
                   children := (if append then children c else [])
                                 ++ [renderItems characters] |}) s)).
Proof.
  intro H. unfold updateCharacterListInView, bind, gets. rewrite H. reflexivity.
Qed.

Lemma updateCharacterListInView_none (characters : list DisplayEntity) (append : bool)
      (s : State) :
  characterListContainer s = None ->
  updateCharacterListInView characters append s = (Ok tt, s).
Proof.
  intro H. unfold updateCharacterListInView, bind, gets. rewrite H. reflexivity.
Qed.

Lemma processBatches_result (net : Network) (batches : list (list CatalogNode))
      (processed : list DisplayEntity) (s : State) :
  fst (processBatches net batches processed s) =
  match promise_all (map (entityOutcome net) (List.concat batches)) with
  | Ok l => Ok (processed ++ l)
  | Throw e => Throw e
  end.
Proof.
  revert processed s. induction batches as [|batch rest IH]; intros processed s.
  - simpl. rewrite app_nil_r. reflexivity.
  - cbn [processBatches List.concat]. unfold bind at 1. rewrite processBatch_run.
    rewrite map_app, promise_all_app.
    destruct (promise_all (map (entityOutcome net) batch)) as [l|e]; [|reflexivity].
    unfold bind at 1. unfold gets at 1. cbn [characterListContainer log].
    destruct (characterListContainer s) as [c|] eqn:C.
    + unfold bind at 1.
      rewrite (@updateCharacterListInView_run _ _ c) by exact C.
      rewrite IH.
      destruct (promise_all (map (entityOutcome net) (List.concat rest)));
        [rewrite app_assoc|]; reflexivity.
    + unfold bind at 1, ret at 1. rewrite IH.
      destruct (promise_all (map (entityOutcome net) (List.concat rest)));
        [rewrite app_assoc|]; reflexivity.
Qed.

Lemma processCharacters_result (net : Network) (nodes : list CatalogNode) (s : State) :
  fst (processCharacters net nodes s) = promise_all (map (entityOutcome net) nodes).
Proof.
  unfold processCharacters. rewrite processBatches_result, make_batches_concat.
  destruct (promise_all (map (entityOutcome net) nodes)); reflexivity.
Qed.

Lemma deliveries_batchRequests (net : Network) (batch : list CatalogNode) :
  deliveries (batchRequests net batch) = [].
Proof.
  unfold batchRequests. rewrite deliveries_app.
  assert (E : forall l : list CatalogNode,
             deliveries (map (fun node => Fetch (downloadRequest (node_fullPath node))) l)
             = []) by (induction l; simpl; auto).
  rewrite E. cbn [app].
  induction batch as [|node batch IH]; simpl; [reflexivity|].
  rewrite deliveries_app, IH, app_nil_r. unfold backupRequests.
  destruct (net (downloadRequest (node_fullPath node))) as [r|]; [|reflexivity].
  destruct (ok r); reflexivity.
Qed.

Lemma deliveries_enrichTrace (net : Network) (processed : list DisplayEntity)
      (batches : list (list CatalogNode)) :
  deliveries (enrichTrace net processed batches) =
  accumulate processed (map (map (entityOf net)) batches).
Proof.
  revert processed. induction batches as [|batch rest IH]; intro processed; simpl.
  - reflexivity.
  - rewrite deliveries_app, deliveries_batchRequests. simpl. rewrite IH. reflexivity.
Qed.

Lemma processBatches_answered (net : Network) (batches : list (list CatalogNode))
      (processed : list DisplayEntity) (s : State) :
  hasContainer s = true ->
  forallb (answered net) (List.concat batches) = true ->
  exists s',
    processBatches net batches processed s =
      (Ok (processed ++ map (entityOf net) (List.concat batches)), s') /\
    trace s' = trace s ++ enrichTrace net processed batches /\
    hasContainer s' = true.
Proof.
  revert processed s. induction batches as [|batch rest IH]; intros processed s HC HA.
  - exists s. simpl. rewrite !app_nil_r. auto.
  - cbn [List.concat] in HA. rewrite forallb_app in HA. apply andb_true_iff in HA as [HA1 HA2].
    cbn [processBatches List.concat enrichTrace]. unfold bind at 1. rewrite processBatch_run.
    rewrite (promise_all_answered _ _ HA1).
    unfold bind at 1. unfold gets at 1. cbn [characterListContainer log].
    unfold hasContainer in HC.
    destruct (characterListContainer s) as [c|] eqn:C; [|discriminate HC].
    unfold bind at 1.
    rewrite (@updateCharacterListInView_run _ _ c) by exact C.
    match goal with |- context [processBatches net rest ?p ?s1] =>
      destruct (IH p s1) as (s' & E & T & HC'); [reflexivity | exact HA2 |]
    end.
    exists s'. rewrite E. split; [|split; [|exact HC']].
    + rewrite map_app, app_assoc. reflexivity.
    + rewrite T. cbn [trace log set_characterListContainer].
      rewrite <- !app_assoc. reflexivity.
Qed.

(* ------------------------------------------------------------------ *)
(** ** What each function leaves alone *)
(* ------------------------------------------------------------------ *)

Section Keeps.

Variable net : Network.
Variable A : Type.
Variable f : State -> A.

Hypothesis f_log : forall evs s, f (log evs s) = f s.
Hypothesis f_container : forall v s, f (set_characterListContainer v s) = f s.

Ltac keeps_f :=
  frame_with (@keeps_refl _ f) (@keeps_trans _ f)
             ltac:(intro; unfold keeps; first [apply f_log | apply f_container]).

Lemma processBatch_keeps (batch : list CatalogNode) :
  preserves (keeps f) (processBatch net batch).
Proof. intro s. rewrite processBatch_run. apply f_log. Qed.

Lemma updateCharacterListInView_keeps (characters : list DisplayEntity) (append : bool) :
  preserves (keeps f) (updateCharacterListInView characters append).
Proof. unfold updateCharacterListInView. keeps_f. Qed.

Lemma processBatches_keeps (batches : list (list CatalogNode))
      (processed : list DisplayEntity) :
  preserves (keeps f) (processBatches net batches processed).
Proof.
  revert processed. induction batches as [|batch rest IH]; intro processed;
    cbn [processBatches].
  - keeps_f.
  - apply (preserves_bind (@keeps_trans _ f)); [apply processBatch_keeps | intro results].
    apply (preserves_bind (@keeps_trans _ f)); [keeps_f | intro container].
    apply (preserves_bind (@keeps_trans _ f)); [| intro; apply IH].
    destruct container; [apply updateCharacterListInView_keeps | keeps_f].
Qed.

Hypothesis f_chub : forall v s, f (set_chubCharacters v s) = f s.

Ltac keeps_f' :=
  frame_with (@keeps_refl _ f) (@keeps_trans _ f)
             ltac:(intro; unfold keeps;
                   first [apply f_log | apply f_container | apply f_chub]).

Lemma fetchCharactersBySearch_keeps (options : SearchOptions) :
  preserves (keeps f) (fetchCharactersBySearch net options).
Proof.
  unfold fetchCharactersBySearch, fetch, fetch_start, fetch_await.
  apply (preserves_bind (@keeps_trans _ f)); [keeps_f' | intro settings].
  apply (preserves_bind (@keeps_trans _ f)); [keeps_f' | intro request].
  apply (preserves_bind (@keeps_trans _ f)); [keeps_f' | intro response].
  apply (preserves_bind (@keeps_trans _ f)); [keeps_f' | intro data].
  apply (preserves_bind (@keeps_trans _ f)); [keeps_f' | intro u].
  apply (preserves_bind (@keeps_trans _ f)); [keeps_f' | intro nodes].
  destruct (List.length nodes =? 0); [keeps_f'|].
  apply (preserves_bind (@keeps_trans _ f)); [apply processBatches_keeps | keeps_f'].
Qed.

Lemma searchCharacters_keeps (options : SearchOptions) :
  preserves (keeps f) (searchCharacters net options).
Proof.
  unfold searchCharacters, set_searching.
  apply (preserves_bind (@keeps_trans _ f)); [keeps_f' | intro c].
  apply (preserves_bind (@keeps_trans _ f)); [keeps_f' | intro u].
  apply (preserves_bind (@keeps_trans _ f)); [keeps_f' | intro u'].
  apply (preserves_bind (@keeps_trans _ f));
    [apply fetchCharactersBySearch_keeps | keeps_f'].
Qed.

End Keeps.

(* ------------------------------------------------------------------ *)
(** ** One search *)
(* ------------------------------------------------------------------ *)

Section Search.

Variable net : Network.

Lemma fetchCharactersBySearch_malformed (options : SearchOptions) (s : State) :
  searchRequest (extension_settings s) options = None ->
  fetchCharactersBySearch net options s = (Throw URIError, s).
Proof.
  intro U. unfold fetchCharactersBySearch, bind, gets, throw.
  cbn [extension_settings]. rewrite U. reflexivity.
Qed.

Lemma fetchCharactersBySearch_rejected (options : SearchOptions) (s : State)
      (request : Request) :
  searchRequest (extension_settings s) options = Some request ->
  net request = Rejected ->
  fetchCharactersBySearch net options s =
  (Throw (NetworkError request), log [Fetch request] s).
Proof.
  intros U H. unfold fetchCharactersBySearch, fetch, fetch_start, emit, modify, bind, gets, ret.
  cbn [extension_settings log]. rewrite U. cbn [extension_settings log]. rewrite H.
  reflexivity.
Qed.

Lemma fetchCharactersBySearch_unparsed (options : SearchOptions) (s : State)
      (request : Request) (r : Response) :
  searchRequest (extension_settings s) options = Some request ->
  net request = Responded r ->
  resp_json r = None ->
  fetchCharactersBySearch net options s = (Throw SyntaxError, log [Fetch request] s).
Proof.
  intros U H J.
  unfold fetchCharactersBySearch, fetch, fetch_start, emit, modify, bind, gets, ret.
  cbn [extension_settings log]. rewrite U. cbn [extension_settings log]. rewrite H.
  cbn [fetch_await]. unfold ret. rewrite J. reflexivity.
Qed.

Lemma fetchCharactersBySearch_page (options : SearchOptions) (s : State)
      (request : Request) (r : Response) (sd : SearchData) (nodes : list CatalogNode) :
  searchRequest (extension_settings s) options = Some request ->
  net request = Responded r ->
  resp_json r = Some sd ->
  sd_nodes sd = Some nodes ->
  fetchCharactersBySearch net options s =
  let s0 := set_chubCharacters [] (log [Fetch request] s) in
  if List.length nodes =? 0 then (Ok [], s0)
  else match processCharacters net nodes s0 with
       | (Ok characters, s1) => (Ok characters, set_chubCharacters characters s1)
       | (Throw e, s1) => (Throw e, s1)
       end.
Proof.
  intros U H J N.
  unfold fetchCharactersBySearch, fetch, fetch_start, emit, modify, bind, gets, ret.
  cbn [extension_settings log]. rewrite U. cbn [extension_settings log]. rewrite H.
  cbn [fetch_await]. unfold ret. rewrite J, N.
  cbv zeta. destruct (List.length nodes =? 0); [reflexivity|].
  destruct (processCharacters net nodes _) as [[cs|e] s1]; reflexivity.
Qed.

Lemma searchCharacters_run (options : SearchOptions) (s : State) :
  searchCharacters net options s =
  match fetchCharactersBySearch net options (beginSearch s) with
  | (Ok characters, s1) => (Ok characters, markSearching false s1)
  | (Throw e, s1) => (Throw e, s1)
  end.
Proof.
  unfold searchCharacters, set_searching, beginSearch, markSearching, when,
    bind, gets, modify, ret.
  destruct (characterListContainer s) as [c|] eqn:C.
  - destruct (negb (inDocument c)); cbn [characterListContainer set_characterListContainer];
      try rewrite C;
      destruct (fetchCharactersBySearch net options _) as [[cs|e] s1]; try reflexivity;
      destruct (characterListContainer s1); reflexivity.
  - rewrite C. destruct (fetchCharactersBySearch net options s) as [[cs|e] s1];
      try reflexivity. destruct (characterListContainer s1); reflexivity.
Qed.

Lemma beginSearch_keeps A (f : State -> A) (s : State) :
  (forall v s, f (set_characterListContainer v s) = f s) ->
  f (beginSearch s) = f s.
Proof.
  intro F. unfold beginSearch, markSearching.
  destruct (characterListContainer s) as [c|] eqn:C; [destruct (negb (inDocument c))|];
    cbn [characterListContainer set_characterListContainer]; try rewrite C;
    rewrite ?F; reflexivity.
Qed.

Lemma beginSearch_settings (s : State) :
  extension_settings (beginSearch s) = extension_settings s.
Proof.
  unfold beginSearch, markSearching.
  destruct (characterListContainer s) as [c|] eqn:C; [destruct (negb (inDocument c))|];
    cbn [characterListContainer set_characterListContainer]; try rewrite C; reflexivity.
Qed.

Lemma beginSearch_trace (s : State) : trace (beginSearch s) = trace s.
Proof.
  unfold beginSearch, markSearching.
  destruct (characterListContainer s) as [c|] eqn:C; [destruct (negb (inDocument c))|];
    cbn [characterListContainer set_characterListContainer]; try rewrite C; reflexivity.
Qed.

Lemma beginSearch_attached (s : State) (c : Container) :
  characterListContainer s = Some c -> inDocument c = true ->
  hasContainer (beginSearch s) = true.
Proof.
  intros C D. unfold beginSearch, markSearching, hasContainer. rewrite C, D. simpl.
  rewrite C. reflexivity.
Qed.

Lemma markSearching_chub (b : bool) (s : State) :
  chubCharacters (markSearching b s) = chubCharacters s.
Proof. unfold markSearching. destruct (characterListContainer s); reflexivity. Qed.

Lemma markSearching_settings (b : bool) (s : State) :
  extension_settings (markSearching b s) = extension_settings s.
Proof. unfold markSearching. destruct (characterListContainer s); reflexivity. Qed.

Lemma markSearching_hasContainer (b : bool) (s : State) :
  hasContainer (markSearching b s) = hasContainer s.
Proof.
  unfold markSearching, hasContainer.
  destruct (characterListContainer s) eqn:C; simpl; [|rewrite C]; reflexivity.
Qed.

(** An append request with the results exhausted is dropped at the gate. *)
Lemma executeCharacterSearch_gate (options : SearchOptions) (s : State) :
  hasMoreResults s = false ->
  executeCharacterSearch net options true s = (Ok tt, s).
Proof.
  intro H. unfold executeCharacterSearch, when, bind, gets, ret. simpl. rewrite H.
  reflexivity.
Qed.

(** Past the gate, the search runs in the reset state. *)
Lemma executeCharacterSearch_run (options : SearchOptions) (append : bool) (s : State) :
  hasMoreResults (resetPagination append s) = true ->
  executeCharacterSearch net options append s =
  bind (searchCharacters net
          (with_page options (currentPage (resetPagination append s))))
       (fun characters => executeCharacterSearch_resume characters append)
       (resetPagination append s).
Proof.
  intro G. unfold executeCharacterSearch. unfold bind at 1.
  assert (W : when (negb append)
                   (modify (set_currentPage 1);; modify (set_hasMoreResults true)) s
              = (Ok tt, resetPagination append s)) by (destruct append; reflexivity).
  rewrite W. unfold bind at 1. unfold gets at 1. rewrite G. cbn [negb].
  unfold bind at 1. unfold gets at 1. reflexivity.
Qed.

(** A search that passes the gate and completes: what it did. *)
Lemma executeCharacterSearch_ok (options : SearchOptions) (append : bool) (s s' : State) :
  hasMoreResults (resetPagination append s) = true ->
  executeCharacterSearch net options append s = (Ok tt, s') ->
  exists characters s1,
    searchCharacters net (with_page options (currentPage (resetPagination append s)))
                     (resetPagination append s) = (Ok characters, s1) /\
    hasMoreResults s' =
      (0 <? List.length characters) &&
      (List.length characters =? findCount (extension_settings s1)) /\
    chubCharacters s' = chubCharacters s1 /\
    isLoading s' = false.
Proof.
  intros G E. rewrite (executeCharacterSearch_run _ _ _ G) in E. unfold bind at 1 in E.
  destruct (searchCharacters net _ (resetPagination append s)) as [[cs|e] s1] eqn:ES;
    [|discriminate E].
  exists cs, s1. split; [reflexivity|].
  unfold executeCharacterSearch_resume in E. unfold bind at 1 in E.
  destruct (0 <? List.length cs) eqn:L.
  - unfold updateCharacterListInView, bind, gets, modify, ret, emit in E.
    destruct (characterListContainer s1); cbn in E; injection E as <-; cbn;
      repeat split; reflexivity.
  - destruct append; cbn [negb when] in E.
    + unfold bind, ret, modify in E. injection E as <-. cbn. repeat split; reflexivity.
    + unfold bind, gets, modify, ret, throw in E.
      destruct (characterListContainer s1); [|discriminate E].
      injection E as <-. cbn. repeat split; reflexivity.
Qed.

End Search.

(* ------------------------------------------------------------------ *)
(** ** Tag strings *)
(* ------------------------------------------------------------------ *)

Lemma codeUnit_eqb_eq (a b : Utf16.CodeUnit) : Utf16.eqb a b = true <-> a = b.
Proof.
  destruct a as [ah al], b as [bh bl]. unfold Utf16.eqb. cbn [fst snd].
  rewrite andb_true_iff, !Ascii.eqb_eq. split.
  - intros [-> ->]. reflexivity.
  - intro E. injection E as -> ->. auto.
Qed.

Lemma codeUnit_eqb_refl (a : Utf16.CodeUnit) : Utf16.eqb a a = true.
Proof. apply codeUnit_eqb_eq. reflexivity. Qed.

Lemma slice_0_length (n : nat) (s : Utf16.text) : List.length (Utf16.slice 0 n s) <= n.
Proof. unfold Utf16.slice. cbn [skipn]. rewrite Nat.sub_0_r. apply firstn_le_length. Qed.

Lemma slice_0_all (n : nat) (s : Utf16.text) :
  List.length s <= n -> Utf16.slice 0 n s = s.
Proof.
  intro H. unfold Utf16.slice. cbn [skipn]. rewrite Nat.sub_0_r. apply firstn_all2, H.
Qed.

Lemma filterTags_In (tags : list Utf16.text) (t : Utf16.text) :
  In t (filterTags tags) <-> In t tags /\ t <> [].
Proof.
  unfold filterTags. rewrite filter_In. split; intros [H1 H2]; split; auto.
  - intros ->. discriminate H2.
  - destruct t; [congruence | reflexivity].
Qed.

Lemma split_go_segment (cur : list Utf16.CodeUnit) (t rest : Utf16.text) :
  Utf16.includes Utf16.comma t = false ->
  Utf16.split_go Utf16.comma cur (t ++ Utf16.comma :: rest) =
  (rev cur ++ t) :: Utf16.split_go Utf16.comma [] rest.
Proof.
  revert cur. induction t as [|c t IH]; intros cur H.
  - cbn [app Utf16.split_go]. rewrite codeUnit_eqb_refl, app_nil_r. reflexivity.
  - cbn [Utf16.includes existsb] in H. apply orb_false_iff in H as [H1 H2].
    cbn [app Utf16.split_go]. rewrite H1. rewrite IH by exact H2.
    cbn [rev]. rewrite <- app_assoc. reflexivity.
Qed.

Lemma split_go_last (cur : list Utf16.CodeUnit) (t : Utf16.text) :
  Utf16.includes Utf16.comma t = false ->
  Utf16.split_go Utf16.comma cur t = [rev cur ++ t].
Proof.
  revert cur. induction t as [|c t IH]; intros cur H.
  - cbn [Utf16.split_go]. rewrite app_nil_r. reflexivity.
  - cbn [Utf16.includes existsb] in H. apply orb_false_iff in H as [H1 H2].
    cbn [Utf16.split_go]. rewrite H1. rewrite IH by exact H2.
    cbn [rev]. rewrite <- app_assoc. reflexivity.
Qed.

(** Splitting a joined list of comma-free tags gives the list back. *)
Lemma members_join (tags : list Utf16.text) :
  tags <> [] ->
  Forall (fun t => Utf16.includes Utf16.comma t = false) tags ->
  members (Utf16.join [Utf16.comma] tags) = tags.
Proof.
  unfold members, Utf16.split.
  induction tags as [|t tags IH]; intros NE F; [congruence|].
  inversion F as [|? ? Ht Htags]; subst.
  destruct tags as [|t' tags'].
  - cbn [Utf16.join]. rewrite split_go_last by exact Ht. reflexivity.
  - change (Utf16.join [Utf16.comma] (t :: t' :: tags'))
      with (t ++ Utf16.comma :: Utf16.join [Utf16.comma] (t' :: tags')).
    rewrite split_go_segment by exact Ht. cbn [rev app]. f_equal.
    apply IH; [discriminate | exact Htags].
Qed.

Lemma tagsValue_some (tags : list Utf16.text) :
  filterTags tags <> [] ->
  tagsValue tags = Some (Utf16.slice 0 100 (Utf16.join [Utf16.comma] (filterTags tags))).
Proof.
  intro NE. unfold tagsValue. destruct (filterTags tags); [congruence | reflexivity].
Qed.

Lemma tagsValue_none (tags : list Utf16.text) : filterTags tags = [] -> tagsValue tags = None.
Proof. intro E. unfold tagsValue. rewrite E. reflexivity. Qed.

(** *** Unpaired surrogates *)

Lemma unreserved_no_surrogate (c : Utf16.CodeUnit) :
  Utf16.unreserved c = true -> Utf16.is_lead c = false /\ Utf16.is_trail c = false.
Proof.
  destruct c as [hi lo]. unfold Utf16.unreserved, Utf16.is_lead, Utf16.is_trail, Utf16.code.
  cbn [fst snd]. intro U. apply andb_true_iff in U as [U _].
  apply Ascii.eqb_eq in U. subst hi.
  pose proof (N_ascii_bounded lo) as B. cbn [N_of_ascii Ascii.zero N.mul N.add].
  change (N_of_ascii Ascii.zero) with 0%N. rewrite N.mul_0_l, N.add_0_l.
  split; apply andb_false_iff; left; apply N.leb_gt; lia.
Qed.

(** [encodeURIComponent] throws exactly on the strings that hold an
    unpaired surrogate. *)
Lemma encodeURIComponent_wellFormed (s : Utf16.text) : encodable s = wellFormed s.
Proof.
  assert (O : forall (f : string -> string) (x : option string),
             match option_map f x with Some _ => true | None => false end
             = match x with Some _ => true | None => false end)
    by (intros f [x|]; reflexivity).
  enough (H : encodable s = wellFormed s
              /\ forall c, encodable (c :: s) = wellFormed (c :: s)) by apply H.
  unfold encodable.
  induction s as [|d s [IH1 IH2]].
  - split; [reflexivity|]. intro c. cbn [Utf16.encodeURIComponent wellFormed].
    destruct (Utf16.unreserved c) eqn:U.
    + destruct (unreserved_no_surrogate c U) as [L T]. rewrite L, T. reflexivity.
    + destruct (Utf16.is_lead c); [reflexivity|]. destruct (Utf16.is_trail c); reflexivity.
  - split; [apply IH2|]. intro c.
    change (Utf16.encodeURIComponent (c :: d :: s))
      with (if Utf16.unreserved c
            then option_map (String (snd c)) (Utf16.encodeURIComponent (d :: s))
            else if Utf16.is_lead c then
              if Utf16.is_trail d
              then option_map (String.append (Utf16.utf8 (Utf16.codePoint c d)))
                              (Utf16.encodeURIComponent s)
              else None
            else if Utf16.is_trail c then None
            else option_map (String.append (Utf16.utf8 (Utf16.code c)))
                            (Utf16.encodeURIComponent (d :: s))).
    change (wellFormed (c :: d :: s))
      with (if Utf16.is_lead c then Utf16.is_trail d && wellFormed s
            else negb (Utf16.is_trail c) && wellFormed (d :: s)).
    destruct (Utf16.unreserved c) eqn:U.
    + destruct (unreserved_no_surrogate c U) as [L T]. rewrite L, T, O. apply IH2.
    + destruct (Utf16.is_lead c).
      * destruct (Utf16.is_trail d); [rewrite O; exact IH1 | reflexivity].
      * destruct (Utf16.is_trail c); [reflexivity | rewrite O; apply IH2].
Qed.

Lemma wellFormed_app (a b : Utf16.text) :
  wellFormed a = true -> wellFormed b = true -> wellFormed (a ++ b) = true.
Proof.
  intros A B.
  enough (H : (wellFormed a = true -> wellFormed (a ++ b) = true)
              /\ forall c, wellFormed (c :: a) = true -> wellFormed (c :: a ++ b) = true)
    by (apply H, A).
  clear A. induction a as [|d a [IH1 IH2]].
  - split; [intros _; exact B|]. intros c. cbn [wellFormed app].
    destruct (Utf16.is_lead c); [discriminate|].
    destruct (Utf16.is_trail c); [discriminate|]. intros _. exact B.
  - split; [apply IH2|]. intros c.
    change (wellFormed (c :: d :: a))
      with (if Utf16.is_lead c then Utf16.is_trail d && wellFormed a
            else negb (Utf16.is_trail c) && wellFormed (d :: a)).
    change (wellFormed (c :: (d :: a) ++ b))
      with (if Utf16.is_lead c then Utf16.is_trail d && wellFormed (a ++ b)
            else negb (Utf16.is_trail c) && wellFormed (d :: a ++ b)).
    destruct (Utf16.is_lead c).
    + intro H. apply andb_true_iff in H as [H1 H2]. rewrite H1, (IH1 H2). reflexivity.
    + intro H. apply andb_true_iff in H as [H1 H2]. rewrite H1. cbn [andb].
      apply IH2, H2.
Qed.

Lemma wellFormed_join (tags : list Utf16.text) :
  Forall (fun t => wellFormed t = true) tags ->
  wellFormed (Utf16.join [Utf16.comma] tags) = true.
Proof.
  induction tags as [|t tags IH]; intro F; [reflexivity|].
  inversion F as [|? ? Ht Htags]; subst.
  destruct tags as [|t' tags']; [exact Ht|].
  change (Utf16.join [Utf16.comma] (t :: t' :: tags'))
    with (t ++ [Utf16.comma] ++ Utf16.join [Utf16.comma] (t' :: tags')).
  apply wellFormed_app; [exact Ht|]. apply wellFormed_app; [reflexivity | apply IH, Htags].
Qed.

Lemma tagsParameter_malformed (settings : Settings) (options : SearchOptions) :
  tagsParameter "tags" (includeTags options) = None
  \/ tagsParameter "exclude_tags" (excludeTags options) = None ->
  searchRequest settings options = None.
Proof.
  unfold searchRequest, searchUrl. intros [H|H]; rewrite H.
  - destruct (baseUrl settings options); reflexivity.
  - destruct (baseUrl settings options); [|reflexivity].
    destruct (tagsParameter "tags" (includeTags options)); reflexivity.
Qed.

(** C6, as amended.  The query builder drops the empty strings of a tag
    list; an empty remainder attaches nothing; otherwise the remainder is
    joined with commas, cut to its first 100 code units, URL-encoded and
    attached under its key, [tags] for [includeTags] and [exclude_tags] for
    [excludeTags].  The value is never longer than 100 code units before
    encoding, and when the joined string fits into 100 code units and no tag
    holds a comma, its members are exactly the non-empty tags, none of them
    empty.  The value is attached when it holds no unpaired surrogate, which
    is so when the tags hold none and the joined string fits; a value with
    an unpaired surrogate, which the cut can make of well-formed tags, makes
    [encodeURIComponent] throw, and the search is rejected before any
    request is sent. *)
Theorem tags_parameter_spec (settings : Settings) (options : SearchOptions)
        (key : string) (tags : list Utf16.text) :
  searchUrl settings options =
    match baseUrl settings options,
          tagsParameter "tags" (includeTags options),
          tagsParameter "exclude_tags" (excludeTags options) with
    | Some url, Some tags, Some exclude_tags => Some (url ++ tags ++ exclude_tags)%string
    | _, _, _ => None
    end
  /\ (forall t, In t (filterTags tags) <-> In t tags /\ t <> [])
  /\ (filterTags tags = [] -> tagsParameter key tags = Some "")
  /\ (filterTags tags <> [] ->
      let joined := Utf16.join [Utf16.comma] (filterTags tags) in
      let value := Utf16.slice 0 100 joined in
      tagsValue tags = Some value
      /\ List.length value <= 100
      /\ (wellFormed value = true ->
          exists encoded,
            Utf16.encodeURIComponent value = Some encoded
            /\ tagsParameter key tags = Some ("&" ++ key ++ "=" ++ encoded)%string)
      /\ (wellFormed value = false -> tagsParameter key tags = None)
      /\ (List.length joined <= 100 ->
          value = joined
          /\ (Forall (fun t => wellFormed t = true) tags -> wellFormed value = true)
          /\ (Forall (fun t => Utf16.includes Utf16.comma t = false) tags ->
              members value = filterTags tags /\ ~ In [] (members value))))
  /\ (tagsParameter "tags" (includeTags options) = None
      \/ tagsParameter "exclude_tags" (excludeTags options) = None ->
      forall (net : Network) (s : State),
        extension_settings s = settings ->
        fetchCharactersBySearch net options s = (Throw URIError, s)).
Proof.
  split; [reflexivity|]. split; [apply filterTags_In|]. split; [|split].
  - intro E. unfold tagsParameter. rewrite (tagsValue_none _ E). reflexivity.
  - intros NE joined value. split; [apply tagsValue_some, NE|].
    split; [apply slice_0_length|].
    pose proof (encodeURIComponent_wellFormed value) as W. unfold encodable in W.
    split; [|split].
    + intro T. rewrite T in W. unfold tagsParameter. rewrite (tagsValue_some _ NE).
      fold joined. fold value.
      destruct (Utf16.encodeURIComponent value) as [encoded|]; [|discriminate W].
      exists encoded. split; reflexivity.
    + intro T. rewrite T in W. unfold tagsParameter. rewrite (tagsValue_some _ NE).
      fold joined. fold value.
      destruct (Utf16.encodeURIComponent value); [discriminate W | reflexivity].
    + intro L.
      assert (V : value = joined) by (apply slice_0_all; exact L).
      split; [exact V|]. split.
      * intro F. rewrite V. apply wellFormed_join. unfold filterTags.
        rewrite Forall_forall in *. intros t Ht. apply filter_In in Ht as [Ht _].
        apply F, Ht.
      * intro F. rewrite V. unfold joined.
        assert (M : members (Utf16.join [Utf16.comma] (filterTags tags)) = filterTags tags).
        { apply members_join; [exact NE|]. unfold filterTags.
          rewrite Forall_forall in *. intros t Ht. apply filter_In in Ht as [Ht _].
          apply F, Ht. }
        rewrite M. split; [reflexivity|]. intro I.
        apply filterTags_In in I as [_ I]. apply I. reflexivity.
  - intros H net s <-. apply fetchCharactersBySearch_malformed.
    apply tagsParameter_malformed, H.
Qed.

Lemma tags_parameter_spec_witness :
  filterTags [Utf16.of_string "fantasy"; []] <> [] /\
  members (Utf16.slice 0 100
             (Utf16.join [Utf16.comma] (filterTags [Utf16.of_string "fantasy"; []])))
  = [Utf16.of_string "fantasy"].
Proof.
  assert (NE : filterTags [Utf16.of_string "fantasy"; []] <> [])
    by (vm_compute; discriminate).
  split; [exact NE|].
  destruct (tags_parameter_spec defaultSettings elfOptions "tags"
              [Utf16.of_string "fantasy"; []]) as (_ & _ & _ & H & _).
  destruct (H NE) as (_ & _ & _ & _ & K).
  destruct K as (_ & _ & K); [vm_compute; lia|].
  destruct K as (K & _); [repeat constructor|].
  exact K.
Defined.

(** C6 as stated fails: eleven non-empty tags of nine characters are joined
    into 109 characters, the cut to 100 characters ends right after the
    tenth comma, and the value that is attached has an empty last member. *)
Lemma truncated_tags_keep_empty_member :
  Forall (fun t => t <> []) elevenTags /\
  exists value encoded,
    tagsValue elevenTags = Some value /\
    List.length value = 100 /\
    In [] (members value) /\
    Utf16.encodeURIComponent value = Some encoded /\
    tagsParameter "tags" elevenTags = Some ("&tags=" ++ encoded)%string.
Proof.
  split; [repeat constructor; discriminate|].
  eexists. eexists. split; [vm_compute; reflexivity|].
  split; [reflexivity|]. split; [vm_compute; tauto|].
  split; vm_compute; reflexivity.
Qed.

(** The cut can also fall between the two halves of a character outside
    the basic plane: a single tag of 99 letters and an emoji is well formed,
    the value cut from it ends in an unpaired surrogate, nothing is attached
    and the search is rejected with [URIError] without a request. *)
Lemma truncated_tag_splits_surrogate_pair :
  wellFormed emojiTag = true /\
  (exists value, tagsValue [emojiTag] = Some value /\ wellFormed value = false) /\
  tagsParameter "tags" [emojiTag] = None /\
  fetchCharactersBySearch (healthyNet (sampleNodes 3)) emojiOptions openState
  = (Throw URIError, openState).
Proof.
  split; [vm_compute; reflexivity|]. split.
  - eexists. split; vm_compute; reflexivity.
  - split; vm_compute; reflexivity.
Qed.

(* ------------------------------------------------------------------ *)
(** ** [getCharacter] *)
(* ------------------------------------------------------------------ *)

(** C9.  When the primary download request is answered unsuccessfully,
    [getCharacter] sends the backup request and resolves with the blob of
    whatever response comes back: the status of the backup response is
    never looked at, so two failure statuses still give a blob and no
    error. *)
Theorem getCharacter_backup_unchecked (net : Network) (fullPath : string) (s : State)
        (r1 r2 : Response) :
  net (downloadRequest fullPath) = Responded r1 ->
  ok r1 = false ->
  net (avatarRequest fullPath) = Responded r2 ->
  getCharacter net fullPath s =
  (Ok (resp_blob r2),
   log [Fetch (downloadRequest fullPath); Fetch (avatarRequest fullPath)] s).
Proof.
  intros H1 F H2. rewrite getCharacter_run. unfold blobOutcome, backupRequests.
  rewrite H1, F, H2. reflexivity.
Qed.

Lemma getCharacter_backup_unchecked_witness :
  ok error404 = false /\
  getCharacter (bothStatusesFailNet []) "author/card2" initialState =
  (Ok (resp_blob error404),
   log [Fetch (downloadRequest "author/card2"); Fetch (avatarRequest "author/card2")]
       initialState).
Proof.
  split; [reflexivity|].
  apply (@getCharacter_backup_unchecked (bothStatusesFailNet []) "author/card2"
           initialState error500 error404); reflexivity.
Defined.

(* ------------------------------------------------------------------ *)
(** ** Import *)
(* ------------------------------------------------------------------ *)

(** C7, as amended.  [downloadCharacter] posts the trimmed url to the
    primary import endpoint and, only when that response is unsuccessful,
    posts the same payload to the legacy endpoint.  When the last response
    is unsuccessful it shows the import-failed notification and hands
    nothing to the host.  When it is successful and carries a
    [Content-Disposition] header with a [filename=] part, a declared content
    type [character] makes it call the host's file-ingestion callback
    exactly once, with the named file, and any other declared type (or none)
    makes it warn, without ingestion and without failing.  When it is
    successful and has no [Content-Disposition] header, or one without
    [filename=], the call ends with a [TypeError] before the declared type
    is looked at: nothing is ingested and no warning is shown.  Header names
    are matched without regard to case. *)
Theorem downloadCharacter_spec (net : Network) (input : string) (s : State)
        (r1 r2 : Response) :
  let url := JsString.trim input in
  let final := if ok r1 then r1 else r2 in
  let sent := importRequests url (ok r1) in
  let declared := headers_get (resp_headers final) "X-Custom-Content-Type" in
  let disposition := headers_get (resp_headers final) "Content-Disposition" in
  net (importRequest "/api/content/importUUID" url) = Responded r1 ->
  (ok r1 = false -> net (importRequest "/import_custom" url) = Responded r2) ->
  (ok final = false ->
     downloadCharacter net input s = (Ok tt, log (sent ++ importFailed url) s)
     /\ ingestions (sent ++ importFailed url) = [])
  /\ (ok final = true ->
      forall header fileName,
        disposition = Some header ->
        fileNameOf header = Some fileName ->
        (declared = Some "character" ->
           downloadCharacter net input s =
             (Ok tt, log (sent ++ [ProcessDroppedFiles [importedFile final fileName]]) s)
           /\ ingestions (sent ++ [ProcessDroppedFiles [importedFile final fileName]])
              = [[importedFile final fileName]])
        /\ (declared <> Some "character" ->
            downloadCharacter net input s = (Ok tt, log (sent ++ unknownContentType) s)
            /\ ingestions (sent ++ unknownContentType) = []))
  /\ (ok final = true ->
      disposition = None
      \/ (exists header, disposition = Some header /\ fileNameOf header = None) ->
      (exists what, downloadCharacter net input s = (Throw (TypeError what), log sent s))
      /\ ingestions sent = [])
  /\ (forall name,
        sameHeaderName name "X-Custom-Content-Type" = true ->
        headers_get (resp_headers final) name = declared).
Proof.
  intros url final sent declared disposition H1 H2.
  assert (I : forall tail, ingestions (sent ++ tail) = ingestions tail).
  { intro tail. unfold sent, importRequests. destruct (ok r1); reflexivity. }
  assert (R : forall k : Response -> M unit,
             (request <- fetch net (importRequest "/api/content/importUUID" url) ;;
              request <- (if negb (ok request)
                          then fetch net (importRequest "/import_custom" url)
                          else ret request) ;;
              k request) s = k final (log sent s)).
  { intro k. unfold fetch, fetch_start, fetch_await, emit, modify, bind, ret.
    rewrite H1. unfold final, sent, importRequests. destruct (ok r1) eqn:O; cbn [negb].
    - reflexivity.
    - rewrite (H2 eq_refl). rewrite log_app. reflexivity. }
  split; [|split; [|split]].
  - intro F. split; [|rewrite I; reflexivity].
    unfold downloadCharacter. fold url. rewrite R. rewrite F. cbn [negb].
    unfold emit, modify, bind. rewrite !log_app, <- ?app_assoc. reflexivity.
  - intros T header fileName CD FN. unfold disposition in CD. split.
    + intro D. split; [|rewrite I; reflexivity].
      unfold downloadCharacter. fold url. rewrite R. rewrite T. cbn [negb].
      rewrite CD, FN. fold declared. rewrite D.
      unfold emit, modify, bind, ret. cbn. rewrite log_app. reflexivity.
    + intro D. split; [|rewrite I; reflexivity].
      unfold downloadCharacter. fold url. rewrite R. rewrite T. cbn [negb].
      rewrite CD, FN. fold declared.
      assert (E : isContentType "character" declared = false).
      { unfold isContentType. destruct declared as [t|]; [|reflexivity].
        apply String.eqb_neq. intros ->. apply D. reflexivity. }
      rewrite E. unfold emit, modify, bind, ret. cbn [fst snd].
      rewrite !log_app, <- ?app_assoc. reflexivity.
  - intros T CD. unfold disposition in CD. split.
    + unfold downloadCharacter. fold url. rewrite R. rewrite T. cbn [negb].
      destruct CD as [CD | (header & CD & FN)]; rewrite CD; [|rewrite FN];
        eexists; reflexivity.
    + rewrite <- (app_nil_r sent). apply I.
  - intros name S. unfold declared, headers_get, sameHeaderName in *.
    apply String.eqb_eq in S. rewrite S. reflexivity.
Qed.

Lemma downloadCharacter_spec_witness :
  ingestions (trace (snd (downloadCharacter (legacyOnlyNet "character")
                                            " author/card1 " openState)))
  = [[importedFile (importResponse "character") "card.png"]].
Proof.
  destruct (@downloadCharacter_spec (legacyOnlyNet "character") " author/card1 "
              openState error500 (importResponse "character")) as (_ & H & _);
    [reflexivity | reflexivity |].
  destruct (H eq_refl "attachment; filename=card.png" "card.png" eq_refl eq_refl)
    as [K _].
  destruct (K eq_refl) as [E _]. rewrite E. reflexivity.
Defined.

(** C7 as stated fails: the primary endpoint answers 200 and declares the
    content type [character], without a [Content-Disposition] header; the
    header is dereferenced before the content type is looked at, the call
    ends with a [TypeError], and the host's callback is not invoked. *)
Lemma declared_character_without_filename_is_not_ingested :
  let outcome := downloadCharacter namelessNet "author/card1" openState in
  ok namelessResponse = true /\
  headers_get (resp_headers namelessResponse) "X-Custom-Content-Type" = Some "character" /\
  headers_get (resp_headers namelessResponse) "Content-Disposition" = None /\
  fst outcome = Throw (TypeError "Content-Disposition header is null") /\
  requests (trace (snd outcome)) = [importRequest "/api/content/importUUID" "author/card1"] /\
  ingestions (trace (snd outcome)) = [].
Proof. cbv zeta. repeat split; vm_compute; reflexivity. Qed.

(* ------------------------------------------------------------------ *)
(** ** The enricher: failures and batches *)
(* ------------------------------------------------------------------ *)

Lemma failsOnBothStatuses_entity (net : Network) (node : CatalogNode) :
  failsOnBothStatuses net node = true ->
  exists r2,
    net (avatarRequest (node_fullPath node)) = Responded r2 /\ ok r2 = false /\
    entityOutcome net node = Ok (makeEntity node (resp_blob r2)).
Proof.
  unfold failsOnBothStatuses, entityOutcome, blobOutcome. intro H.
  destruct (net (downloadRequest (node_fullPath node))) as [r1|]; [|discriminate H].
  destruct (net (avatarRequest (node_fullPath node))) as [r2|]; [|discriminate H].
  apply andb_true_iff in H as [H1 H2].
  apply negb_true_iff in H1. apply negb_true_iff in H2.
  exists r2. rewrite H1. auto.
Qed.

Lemma processCharacters_answered (net : Network) (nodes : list CatalogNode) (s : State) :
  forallb (answered net) nodes = true ->
  fst (processCharacters net nodes s) = Ok (map (entityOf net) nodes).
Proof.
  intro H. rewrite processCharacters_result. apply promise_all_answered, H.
Qed.

Lemma processCharacters_trace (net : Network) (nodes : list CatalogNode) (s : State) :
  hasContainer s = true ->
  forallb (answered net) nodes = true ->
  trace (snd (processCharacters net nodes s)) =
  trace s ++ enrichTrace net [] (make_batches nodes).
Proof.
  intros C H. unfold processCharacters.
  destruct (@processBatches_answered net (make_batches nodes) [] s C) as (s' & E & T & _).
  - rewrite make_batches_concat. exact H.
  - rewrite E. exact T.
Qed.

Lemma promise_all_rejected (net : Network) (nodes : list CatalogNode) :
  forallb (answered net) nodes = false ->
  exists e, promise_all (map (entityOutcome net) nodes) = Throw e.
Proof.
  induction nodes as [|node nodes IH]; simpl; intro H; [discriminate H|].
  unfold answered in H at 1.
  destruct (entityOutcome net node) as [entity|e]; [|exists e; reflexivity].
  destruct (IH H) as [e E]. exists e. rewrite E. reflexivity.
Qed.

(** C1, as amended.  As long as every request of the enricher is answered
    with a response, whatever its status, all nodes come out as entities,
    in input order: a node whose download request and whose avatar request
    are both answered with a failure status stops nothing and is itself
    assembled, from the body of the backup response; with a container
    present the accumulated entities are rendered batch after batch; and
    the search that called the enricher resolves with all of them.  When
    a request of some node is rejected, the enricher ends with a
    rejection, and so does the search. *)
Theorem enricher_survives_failure_statuses (net : Network) (nodes : list CatalogNode)
        (s : State) :
  (forallb (answered net) nodes = true ->
   fst (processCharacters net nodes s) = Ok (map (entityOf net) nodes)
   /\ (forall bad,
         In bad nodes -> failsOnBothStatuses net bad = true ->
         In (entityOf net bad) (map (entityOf net) nodes)
         /\ exists r2, net (avatarRequest (node_fullPath bad)) = Responded r2 /\
                       ok r2 = false /\
                       entityOf net bad = makeEntity bad (resp_blob r2))
   /\ (hasContainer s = true ->
       deliveries (trace (snd (processCharacters net nodes s))) =
       deliveries (trace s) ++ accumulate [] (map (map (entityOf net)) (make_batches nodes)))
   /\ (forall options request r sd,
         searchRequest (extension_settings s) options = Some request ->
         net request = Responded r ->
         resp_json r = Some sd -> sd_nodes sd = Some nodes ->
         fst (fetchCharactersBySearch net options s) = Ok (map (entityOf net) nodes)))
  /\ (forallb (answered net) nodes = false ->
      exists e,
        fst (processCharacters net nodes s) = Throw e
        /\ (forall options request r sd,
              searchRequest (extension_settings s) options = Some request ->
              net request = Responded r ->
              resp_json r = Some sd -> sd_nodes sd = Some nodes ->
              fst (fetchCharactersBySearch net options s) = Throw e)).
Proof.
  split.
  - intro A. split; [apply processCharacters_answered, A|]. split.
    + intros bad I F. split; [apply in_map, I|].
      destruct (failsOnBothStatuses_entity _ _ F) as (r2 & N & O & E).
      exists r2. unfold entityOf. rewrite E. auto.
    + split.
      * intro C. rewrite processCharacters_trace by assumption.
        rewrite deliveries_app, deliveries_enrichTrace. reflexivity.
      * intros options request r sd U H J N.
        rewrite (fetchCharactersBySearch_page _ _ _ U H J N).
        cbv zeta. destruct (List.length nodes =? 0) eqn:Z.
        -- apply Nat.eqb_eq in Z. destruct nodes; [reflexivity | discriminate Z].
        -- match goal with |- context [processCharacters net nodes ?s0] =>
             pose proof (processCharacters_answered net nodes s0 A) as P;
             destruct (processCharacters net nodes s0) as [[cs|e] s1]
           end; simpl in P; [injection P as ->; reflexivity | discriminate P].
  - intro A. destruct (promise_all_rejected _ _ A) as [e E]. exists e.
    split; [rewrite processCharacters_result; exact E|].
    intros options request r sd U H J N.
    rewrite (fetchCharactersBySearch_page _ _ _ U H J N).
    cbv zeta. destruct (List.length nodes =? 0) eqn:Z.
    + apply Nat.eqb_eq in Z. destruct nodes; [discriminate A | discriminate Z].
    + match goal with |- context [processCharacters net nodes ?s0] =>
        pose proof (processCharacters_result net nodes s0) as P;
        destruct (processCharacters net nodes s0) as [[cs|e'] s1]
      end; simpl in P; rewrite E in P; [discriminate P | injection P as ->; reflexivity].
Qed.

Lemma enricher_survives_failure_statuses_witness :
  failsOnBothStatuses (bothStatusesFailNet (sampleNodes 3)) (sampleNode 2) = true /\
  fst (processCharacters (bothStatusesFailNet (sampleNodes 3)) (sampleNodes 3) openState)
  = Ok (map (entityOf (bothStatusesFailNet (sampleNodes 3))) (sampleNodes 3)).
Proof.
  split; [reflexivity|].
  destruct (@enricher_survives_failure_statuses (bothStatusesFailNet (sampleNodes 3))
              (sampleNodes 3) openState) as [H _].
  destruct (H eq_refl) as [E _]. exact E.
Defined.

(** C1 as stated fails: the card [author/card2] gets a failure status from
    the download endpoint and its avatar request is rejected; the other two
    cards of the batch are served; [Promise.all] rejects, nothing of the
    batch is rendered and the search ends with the rejection. *)
Lemma rejected_backup_aborts_batch_and_search :
  let nodes := sampleNodes 3 in
  let net := backupRejectedNet nodes in
  In (sampleNode 2) nodes /\
  failsOnBoth net (sampleNode 2) = true /\
  answered net (sampleNode 1) = true /\
  answered net (sampleNode 3) = true /\
  fst (processCharacters net nodes openState) =
    Throw (NetworkError (avatarRequest "author/card2")) /\
  deliveries (trace (snd (processCharacters net nodes openState))) = [] /\
  fst (executeCharacterSearch net elfOptions false openState) =
    Throw (NetworkError (avatarRequest "author/card2")) /\
  deliveries (trace (snd (executeCharacterSearch net elfOptions false openState))) = [] /\
  chubCharacters (snd (executeCharacterSearch net elfOptions false openState)) = [].
Proof.
  cbv zeta. split; [simpl; auto|]. repeat split; vm_compute; reflexivity.
Qed.

(** C5.  The enricher cuts the nodes into consecutive batches of 20, the
    last one possibly smaller, and works through them in input order: per
    batch it sends the batch's requests and then renders everything
    processed so far, so that each delivery extends the one before it.
    For 45 nodes these are three batches of 20, 20 and 5 nodes and three
    deliveries.  (A container is present and every request is answered.) *)
Theorem enricher_batches_and_deliveries (net : Network) (nodes : list CatalogNode)
        (s : State) :
  hasContainer s = true ->
  forallb (answered net) nodes = true ->
  let batches := make_batches nodes in
  let delivered := accumulate [] (map (map (entityOf net)) batches) in
  List.concat batches = nodes
  /\ wellSized (map (@List.length _) batches)
  /\ fst (processCharacters net nodes s) = Ok (map (entityOf net) nodes)
  /\ trace (snd (processCharacters net nodes s)) = trace s ++ enrichTrace net [] batches
  /\ deliveries (trace (snd (processCharacters net nodes s))) = deliveries (trace s) ++ delivered
  /\ List.length delivered = List.length batches
  /\ increasing delivered
  /\ (List.length nodes = 45 ->
      map (@List.length _) batches = [20; 20; 5] /\ List.length delivered = 3).
Proof.
  intros C A batches delivered.
  split; [apply make_batches_concat|].
  split; [unfold batches; rewrite make_batches_sizes; apply batchSizes_wellSized|].
  split; [apply processCharacters_answered, A|].
  split; [apply processCharacters_trace; assumption|].
  split.
  { rewrite processCharacters_trace by assumption.
    rewrite deliveries_app, deliveries_enrichTrace. reflexivity. }
  assert (L : List.length delivered = List.length batches).
  { unfold delivered. rewrite accumulate_length, length_map. reflexivity. }
  split; [exact L|]. split; [apply accumulate_increasing|].
  intro N.
  assert (S : map (@List.length _) batches = [20; 20; 5]).
  { unfold batches. rewrite make_batches_sizes, N. reflexivity. }
  split; [exact S|]. rewrite L, <- (length_map (@List.length _) batches), S. reflexivity.
Qed.

Lemma enricher_batches_and_deliveries_witness :
  map (@List.length _) (make_batches (sampleNodes 45)) = [20; 20; 5] /\
  List.length (deliveries (trace (snd (processCharacters (healthyNet (sampleNodes 45))
                                                          (sampleNodes 45) openState)))) = 3.
Proof.
  destruct (@enricher_batches_and_deliveries (healthyNet (sampleNodes 45))
              (sampleNodes 45) openState)
    as (_ & _ & _ & _ & D & _ & _ & H); [reflexivity | reflexivity |].
  destruct H as [S L]; [reflexivity|].
  split; [exact S|]. rewrite D. exact L.
Defined.

(* ------------------------------------------------------------------ *)
(** ** Pagination *)
(* ------------------------------------------------------------------ *)

Lemma resetPagination_settings (append : bool) (s : State) :
  extension_settings (resetPagination append s) = extension_settings s.
Proof. destruct append; reflexivity. Qed.

(** A completed search that got the page [nodes]: the characters it found
    are as many as the nodes, and they are the in-memory list. *)
Lemma searchCharacters_page (net : Network) (options : SearchOptions) (s s1 : State)
      (request : Request) (r : Response) (sd : SearchData) (nodes : list CatalogNode)
      (characters : list DisplayEntity) :
  searchRequest (extension_settings s) options = Some request ->
  net request = Responded r ->
  resp_json r = Some sd ->
  sd_nodes sd = Some nodes ->
  searchCharacters net options s = (Ok characters, s1) ->
  promise_all (map (entityOutcome net) nodes) = Ok characters
  /\ chubCharacters s1 = characters
  /\ extension_settings s1 = extension_settings s.
Proof.
  intros U H J N E. rewrite searchCharacters_run in E.
  rewrite <- (beginSearch_settings s) in U.
  rewrite (fetchCharactersBySearch_page _ _ _ U H J N) in E. cbv zeta in E.
  destruct (List.length nodes =? 0) eqn:Z.
  - apply Nat.eqb_eq in Z. destruct nodes; [|discriminate Z].
    injection E as <- <-. rewrite markSearching_chub, markSearching_settings.
    cbn. rewrite beginSearch_settings. auto.
  - match type of E with context [processCharacters net nodes ?s0] =>
      pose proof (processCharacters_result net nodes s0) as P;
      pose proof (@processBatches_keeps net _ extension_settings
                    (fun _ _ => eq_refl) (fun _ _ => eq_refl)
                    (make_batches nodes) [] s0) as K;
      fold (processCharacters net nodes) in K;
      destruct (processCharacters net nodes s0) as [[cs|e] s2]
    end; [|discriminate E].
    injection E as <- <-. simpl in P. unfold keeps in K. simpl in K.
    rewrite markSearching_chub, markSearching_settings. cbn.
    rewrite K, beginSearch_settings. auto.
Qed.

(** A fresh search that finds nothing while no container is attached
    dereferences [null] before it clears [hasMoreResults]. *)
Lemma empty_page_without_container (net : Network) (options : SearchOptions) (s : State)
      (request : Request) (r : Response) (sd : SearchData) :
  characterListContainer s = None ->
  searchRequest (extension_settings s) (with_page options 1) = Some request ->
  net request = Responded r ->
  resp_json r = Some sd ->
  sd_nodes sd = Some [] ->
  fst (executeCharacterSearch net options false s) =
    Throw (TypeError "characterListContainer is null")
  /\ hasMoreResults (snd (executeCharacterSearch net options false s)) = true.
Proof.
  intros C U H J N.
  set (s0 := set_hasMoreResults true (set_currentPage 1 s)).
  set (s1 := set_chubCharacters [] (log [Fetch request] s0)).
  assert (B : beginSearch s0 = s0).
  { unfold beginSearch, markSearching, s0. cbn. rewrite C. cbn. rewrite C. reflexivity. }
  assert (F : searchCharacters net (with_page options 1) s0 = (Ok [], s1)).
  { rewrite searchCharacters_run, B.
    rewrite (@fetchCharactersBySearch_page net _ s0 request r sd [] U H J N). cbn.
    unfold markSearching. cbn. rewrite C. reflexivity. }
  assert (E : executeCharacterSearch net options false s =
              (Throw (TypeError "characterListContainer is null"), s1)).
  { rewrite executeCharacterSearch_run by reflexivity.
    change (resetPagination false s) with s0. change (currentPage s0) with 1.
    unfold bind at 1. rewrite F.
    unfold executeCharacterSearch_resume, bind, gets, when, throw. cbn. rewrite C.
    reflexivity. }
  rewrite E. split; reflexivity.
Qed.

(** C2, as amended.  After a search that fetched a page and completed,
    [hasMoreResults] is true exactly when the page is not empty and holds
    exactly [findCount] results; it is false for an empty page and for any
    other number of results, fewer or more.  For a page of at most
    [findCount] results this is: false if and only if the page holds
    strictly fewer results than [findCount], or none.  With [findCount]
    10, ten results leave it true and nine or fewer make it false. *)
Theorem hasMoreResults_after_page (net : Network) (options : SearchOptions)
        (append : bool) (s s' : State)
        (request : Request) (r : Response) (sd : SearchData) (nodes : list CatalogNode) :
  let s0 := resetPagination append s in
  let found := List.length nodes in
  let size := findCount (extension_settings s) in
  hasMoreResults s0 = true ->
  searchRequest (extension_settings s) (with_page options (currentPage s0)) = Some request ->
  net request = Responded r ->
  resp_json r = Some sd ->
  sd_nodes sd = Some nodes ->
  executeCharacterSearch net options append s = (Ok tt, s') ->
  hasMoreResults s' = (0 <? found) && (found =? size)
  /\ (found <= size -> (hasMoreResults s' = false <-> found < size \/ found = 0))
  /\ (size = 10 -> found = 10 -> hasMoreResults s' = true)
  /\ (size = 10 -> found <= 9 -> hasMoreResults s' = false).
Proof.
  intros s0 found size G U H J N E.
  assert (M : hasMoreResults s' = (0 <? found) && (found =? size)).
  { destruct (executeCharacterSearch_ok _ _ _ _ G E) as (cs & s1 & ES & HM & _ & _).
    fold s0 in ES. rewrite <- (resetPagination_settings append s) in U. fold s0 in U.
    destruct (searchCharacters_page _ _ _ U H J N ES) as (P & _ & S).
    rewrite HM, S. unfold s0. rewrite resetPagination_settings.
    apply promise_all_length in P. rewrite length_map in P. rewrite P. reflexivity. }
  split; [exact M|]. rewrite M. repeat split.
  - intro F. apply andb_false_iff in F as [F|F].
    + apply Nat.ltb_ge in F. lia.
    + apply Nat.eqb_neq in F. lia.
  - intros [F|F]; apply andb_false_iff.
    + right. apply Nat.eqb_neq. lia.
    + left. apply Nat.ltb_ge. lia.
  - intros S F. rewrite S, F. reflexivity.
  - intros S F. rewrite S. apply andb_false_iff. right. apply Nat.eqb_neq. lia.
Qed.

Lemma hasMoreResults_after_page_witness :
  hasMoreResults (snd (executeCharacterSearch (healthyNet (sampleNodes 10))
                                              elfOptions false openState)) = true.
Proof.
  destruct (executeCharacterSearch (healthyNet (sampleNodes 10)) elfOptions false openState)
    as [[[] | e] s'] eqn:E; [|vm_compute in E; discriminate E].
  edestruct hasMoreResults_after_page
    with (net := healthyNet (sampleNodes 10)) (options := elfOptions) (append := false)
         (s := openState) (s' := s') (r := page200 (sampleNodes 10))
         (sd := {| sd_nodes := Some (sampleNodes 10) |}) (nodes := sampleNodes 10)
    as (_ & _ & H & _); try reflexivity.
  - exact E.
  - apply H; reflexivity.
Defined.

(** C2 as stated fails: with [findCount] 10, a page of eleven results is
    not strictly smaller than the page size, and yet the search that
    received it leaves [hasMoreResults] false. *)
Lemma larger_page_clears_hasMoreResults :
  let net := healthyNet (sampleNodes 11) in
  let outcome := executeCharacterSearch net elfOptions false openState in
  findCount (extension_settings openState) = 10 /\
  option_map net (searchRequest (extension_settings openState) (with_page elfOptions 1))
    = Some (Responded (page200 (sampleNodes 11))) /\
  List.length (sampleNodes 11) = 11 /\
  fst outcome = Ok tt /\
  List.length (chubCharacters (snd outcome)) = 11 /\
  hasMoreResults (snd outcome) = false /\
  ~ (List.length (sampleNodes 11) < findCount (extension_settings openState)) /\
  List.length (sampleNodes 11) <> 0.
Proof.
  cbv zeta. repeat split; try (vm_compute; reflexivity).
  - vm_compute. lia.
  - vm_compute. discriminate.
Qed.

(* ------------------------------------------------------------------ *)
(** ** The loading guard *)
(* ------------------------------------------------------------------ *)

Lemma keeps_notRaised (s s' : State) : keeps isLoading s s' -> notRaised s s'.
Proof. unfold keeps, notRaised. intros -> H. exact H. Qed.

Lemma preserves_keeps_notRaised A (m : M A) :
  preserves (keeps isLoading) m -> preserves notRaised m.
Proof. intros H s. apply keeps_notRaised, H. Qed.

(** [executeCharacterSearch] never sets the guard; it clears it when it
    runs to its end and leaves it alone on every other path. *)
Lemma executeCharacterSearch_notRaised (net : Network) (options : SearchOptions)
      (append : bool) :
  preserves notRaised (executeCharacterSearch net options append).
Proof.
  unfold executeCharacterSearch, executeCharacterSearch_resume. notRaised_frame;
    apply preserves_keeps_notRaised;
    first [ apply searchCharacters_keeps | apply updateCharacterListInView_keeps ];
    reflexivity.
Qed.

(** On a rejected search request [executeCharacterSearch] itself leaves the
    guard as it found it: the release is the callers' [finally]. *)
Lemma executeCharacterSearch_rejected_keeps_guard (net : Network)
      (options : SearchOptions) (s : State) (request : Request) :
  searchRequest (extension_settings s) (with_page options (currentPage s)) = Some request ->
  net request = Rejected ->
  hasMoreResults s = true ->
  fst (executeCharacterSearch net options true s) = Throw (NetworkError request)
  /\ isLoading (snd (executeCharacterSearch net options true s)) = isLoading s.
Proof.
  intros U H G.
  pose proof (@fetchCharactersBySearch_rejected net (with_page options (currentPage s))
                (beginSearch s) request) as R.
  rewrite beginSearch_settings in R. specialize (R U H).
  assert (E : executeCharacterSearch net options true s =
              (Throw (NetworkError request), log [Fetch request] (beginSearch s))).
  { rewrite executeCharacterSearch_run by exact G. cbn [resetPagination].
    unfold bind at 1. rewrite searchCharacters_run, R. reflexivity. }
  rewrite E. split; [reflexivity|]. cbn [snd log isLoading].
  apply (beginSearch_keeps isLoading). reflexivity.
Qed.

Lemma finally_clears A (m : M A) (s : State) :
  isLoading (snd (finally m (modify (set_isLoading false)) s)) = false.
Proof. unfold finally, modify. destruct (m s). reflexivity. Qed.

(** C3.  Whichever way the popup starts a search (the handler of the
    search inputs, the scroll handler or the debounced wrapper), once the
    operation is over the guard [isLoading] is cleared, on every exit path
    and for every behaviour of the network, rejected and unparsable
    answers included. *)
Theorem guard_cleared_on_every_exit (net : Network) (op : SearchOperation) (s : State) :
  startsSearch op s = true ->
  isLoading (snd (runOperation net op s)) = false.
Proof.
  destruct op as [e form | g form | options]; cbn [startsSearch runOperation]; intro H.
  - unfold handleSearch. apply negb_true_iff in H. rewrite H.
    cbv beta iota delta [bind modify gets].
    match goal with |- isLoading (snd (executeCharacterSearch net ?o false ?s0)) = false =>
      pose proof (executeCharacterSearch_notRaised net o false s0) as N
    end.
    unfold notRaised in N. cbn [isLoading set_isLoading] in N.
    match goal with |- ?b = false => destruct b; [discriminate (N eq_refl) | reflexivity] end.
  - apply andb_true_iff in H as [H H4]. apply andb_true_iff in H as [H H3].
    apply andb_true_iff in H as [H1 H2]. apply negb_true_iff in H1.
    unfold scrollHandler. unfold bind at 1. unfold gets at 1.
    unfold bind at 1. unfold gets at 1. rewrite H1, H2. cbn [negb orb].
    unfold bind at 1. unfold gets at 1. unfold hasContainer in H3.
    destruct (characterListContainer s); [|discriminate H3].
    rewrite H4. cbv beta iota zeta delta [bind modify gets]. apply finally_clears.
  - apply negb_true_iff in H. unfold executeCharacterSearchDebounced.
    unfold bind at 1. unfold gets at 1. rewrite H. cbn [negb].
    cbv beta iota delta [bind modify]. apply finally_clears.
Qed.

Lemma guard_cleared_on_every_exit_witness :
  fst (runOperation deadNet (LoadMore atBottom elfForm) openState) = Ok tt /\
  trace (snd (runOperation deadNet (LoadMore atBottom elfForm) openState)) <> [] /\
  isLoading (snd (runOperation deadNet (LoadMore atBottom elfForm) openState)) = false.
Proof.
  split; [reflexivity|]. split; [vm_compute; discriminate|].
  apply (@guard_cleared_on_every_exit deadNet (LoadMore atBottom elfForm) openState).
  reflexivity.
Defined.

(** The guarded paths: with the guard set, the debounced wrapper and the
    scroll handler do nothing. *)
Lemma executeCharacterSearchDebounced_guarded (net : Network) (options : SearchOptions)
      (s : State) :
  isLoading s = true -> executeCharacterSearchDebounced net options s = (Ok tt, s).
Proof.
  intro H. unfold executeCharacterSearchDebounced, bind, gets. rewrite H. reflexivity.
Qed.

Lemma scrollHandler_guarded (net : Network) (g : ScrollGeometry) (form : Form) (s : State) :
  isLoading s = true -> scrollHandler net g form s = (Ok tt, s).
Proof.
  intro H. unfold scrollHandler, bind, gets. rewrite H. reflexivity.
Qed.

(** [handleSearch] overwrites the guard instead of testing it: what it does
    does not depend on [isLoading]. *)
Lemma handleSearch_unguarded (net : Network) (e : DomEvent) (form : Form) (s : State) :
  ignoredKey e = false ->
  handleSearch net e form s =
  executeCharacterSearch net (formOptions form splitAndTrim 1) false
    (set_isLoading false (set_hasMoreResults true (set_currentPage 1 s))).
Proof.
  intro H. unfold handleSearch. rewrite H. reflexivity.
Qed.

(** C4, the code at the failing input.  While a load-more is outstanding
    (the guard is set, page 2 was requested), a click on the search button
    is not ignored: [handleSearch] clears the guard, sends a search request
    and the requests of the enricher, and replaces the entity list. *)
Theorem handleSearch_while_loading_is_not_ignored :
  let net := healthyNet (sampleNodes 3) in
  let after := snd (handleSearch net clickSearch elfForm loadingState) in
  isLoading loadingState = true /\
  requests (trace loadingState) = [] /\
  (exists request,
      searchRequest defaultSettings (formOptions elfForm splitAndTrim 1) = Some request /\
      requests (trace after) =
        request :: map (fun node => downloadRequest (node_fullPath node)) (sampleNodes 3)) /\
  isLoading after = false /\
  currentPage loadingState = 2 /\ currentPage after = 1 /\
  chubCharacters loadingState = [] /\ List.length (chubCharacters after) = 3 /\
  after <> loadingState.
Proof.
  cbv zeta. split; [reflexivity|]. split; [reflexivity|]. split.
  { eexists. split; vm_compute; reflexivity. }
  repeat split; try (vm_compute; reflexivity).
  intro E. apply (f_equal isLoading) in E. vm_compute in E. discriminate E.
Qed.

(* ------------------------------------------------------------------ *)
(** ** The trace only grows *)
(* ------------------------------------------------------------------ *)

Lemma grows_refl (s : State) : grows s s.
Proof. exists []. symmetry. apply app_nil_r. Qed.

Lemma grows_trans (a b c : State) : grows a b -> grows b c -> grows a c.
Proof.
  intros [e1 H1] [e2 H2]. exists (e1 ++ e2). rewrite H2, H1, app_assoc. reflexivity.
Qed.

Lemma grows_log (evs : list Event) (s : State) : grows s (log evs s).
Proof. exists evs. reflexivity. Qed.

Ltac grows_frame :=
  frame_with grows_refl grows_trans
             ltac:(intro;
                   first [apply grows_log | exists []; symmetry; apply app_nil_r]).

Lemma bind_assoc A B C (m : M A) (k1 : A -> M B) (k2 : B -> M C) (s : State) :
  bind (bind m k1) k2 s = bind m (fun a => bind (k1 a) k2) s.
Proof. unfold bind. destruct (m s) as [[a|e] s']; reflexivity. Qed.

Lemma emit_first A (e : Event) (k : unit -> M A) (s : State) :
  preserves grows (k tt) ->
  exists evs, trace (snd (bind (emit e) k s)) = trace s ++ e :: evs.
Proof.
  intro H. unfold bind, emit, modify. destruct (H (log [e] s)) as [evs E].
  exists evs. rewrite E. cbn [trace log]. rewrite <- app_assoc. reflexivity.
Qed.

Lemma bind_first A B (m : M A) (k : A -> M B) (s : State) (e : Event) :
  (exists evs, trace (snd (m s)) = trace s ++ e :: evs) ->
  (forall a, preserves grows (k a)) ->
  exists evs, trace (snd (bind m k s)) = trace s ++ e :: evs.
Proof.
  intros [evs E] H. unfold bind. destruct (m s) as [[a|x] s']; cbn [snd] in *.
  - destruct (H a s') as [evs' E']. exists (evs ++ evs').
    rewrite E', E, <- app_assoc. reflexivity.
  - exists evs. exact E.
Qed.

Section Grows.

Variable net : Network.

Lemma processBatches_grows (batches : list (list CatalogNode))
      (processed : list DisplayEntity) :
  preserves grows (processBatches net batches processed).
Proof.
  revert processed. induction batches as [|batch rest IH]; intro processed;
    cbn [processBatches].
  - grows_frame.
  - apply (preserves_bind grows_trans);
      [intro s; rewrite processBatch_run; apply grows_log | intro results].
    apply (preserves_bind grows_trans); [grows_frame | intro container].
    apply (preserves_bind grows_trans); [| intro; apply IH].
    unfold updateCharacterListInView. grows_frame.
Qed.

Lemma fetchCharactersBySearch_first_request (options : SearchOptions) (s : State)
      (request : Request) :
  searchRequest (extension_settings s) options = Some request ->
  exists evs,
    trace (snd (fetchCharactersBySearch net options s)) = trace s ++ Fetch request :: evs.
Proof.
  intro U. unfold fetchCharactersBySearch. unfold bind at 1. unfold gets at 1.
  rewrite U. unfold bind at 1. unfold ret at 1.
  unfold fetch. rewrite bind_assoc. unfold fetch_start. rewrite bind_assoc.
  apply emit_first. unfold fetch_await.
  apply (preserves_bind grows_trans); [grows_frame | intro answer].
  apply (preserves_bind grows_trans); [grows_frame | intro response].
  apply (preserves_bind grows_trans); [grows_frame | intro data].
  apply (preserves_bind grows_trans); [grows_frame | intro u].
  apply (preserves_bind grows_trans); [grows_frame | intro nodes].
  destruct (List.length nodes =? 0); [grows_frame|].
  apply (preserves_bind grows_trans); [apply processBatches_grows | grows_frame].
Qed.

Lemma searchCharacters_first_request (options : SearchOptions) (s : State)
      (request : Request) :
  searchRequest (extension_settings s) options = Some request ->
  exists evs,
    trace (snd (searchCharacters net options s)) = trace s ++ Fetch request :: evs.
Proof.
  intro U. rewrite searchCharacters_run.
  rewrite <- (beginSearch_settings s) in U.
  destruct (fetchCharactersBySearch_first_request options (beginSearch s) U) as [evs E].
  rewrite beginSearch_trace in E. exists evs.
  destruct (fetchCharactersBySearch net options (beginSearch s)) as [[cs|e] s1];
    cbn [snd] in *; [|exact E].
  rewrite <- E. unfold markSearching. destruct (characterListContainer s1); reflexivity.
Qed.

(** A search whose URL cannot be built is rejected before anything is
    sent. *)
Lemma searchCharacters_malformed (options : SearchOptions) (s : State) :
  searchRequest (extension_settings s) options = None ->
  searchCharacters net options s = (Throw URIError, beginSearch s).
Proof.
  intro U. rewrite searchCharacters_run. rewrite <- (beginSearch_settings s) in U.
  rewrite (fetchCharactersBySearch_malformed net _ _ U). reflexivity.
Qed.

End Grows.

(** C8.  A search with [append = false] starts by resetting the pagination:
    whatever the state was, it asks for page 1 (its first effect is the
    search request for page 1, so the gate never stops it; when the URL
    cannot be built, it is rejected with [URIError] after the reset and
    without a request) and the current page is 1 afterwards.  When
    [hasMoreResults] is false at the gate, which can only be with
    [append = true], the call returns at once: no request is sent and the
    state is untouched. *)
Theorem executeCharacterSearch_reset_and_gate (net : Network) (options : SearchOptions)
        (s : State) :
  (let outcome := executeCharacterSearch net options false s in
   let after := snd outcome in
   currentPage after = 1
   /\ (forall request,
         searchRequest (extension_settings s) (with_page options 1) = Some request ->
         exists evs, trace after = trace s ++ Fetch request :: evs)
   /\ (searchRequest (extension_settings s) (with_page options 1) = None ->
       fst outcome = Throw URIError
       /\ trace after = trace s
       /\ hasMoreResults after = true))
  /\ (forall append,
        hasMoreResults (resetPagination append s) = false ->
        append = true /\ hasMoreResults s = false /\
        executeCharacterSearch net options append s = (Ok tt, s)).
Proof.
  split.
  - cbv zeta. rewrite executeCharacterSearch_run by reflexivity.
    cbn [resetPagination currentPage set_currentPage set_hasMoreResults].
    assert (KP : forall cs, preserves (keeps currentPage)
                                      (executeCharacterSearch_resume cs false)).
    { intro cs. unfold executeCharacterSearch_resume. keeps_frame currentPage.
      apply (@updateCharacterListInView_keeps _ currentPage
               (fun _ _ => eq_refl) (fun _ _ => eq_refl)). }
    assert (KG : forall cs, preserves grows (executeCharacterSearch_resume cs false)).
    { intro cs. unfold executeCharacterSearch_resume, updateCharacterListInView.
      grows_frame. }
    split; [|split].
    + apply (@preserves_bind _ (@keeps_trans _ currentPage) _ _
               (searchCharacters net (with_page options 1))
               (fun cs => executeCharacterSearch_resume cs false)
               (@searchCharacters_keeps net _ currentPage
                  (fun _ _ => eq_refl) (fun _ _ => eq_refl) (fun _ _ => eq_refl)
                  (with_page options 1)) KP).
    + intros request U.
      exact (@bind_first _ _ (searchCharacters net (with_page options 1)) _
                         (set_hasMoreResults true (set_currentPage 1 s)) _
                         (@searchCharacters_first_request net (with_page options 1)
                            (set_hasMoreResults true (set_currentPage 1 s)) request U)
                         KG).
    + intro U. unfold bind at 1 2 3.
      pose proof (@searchCharacters_malformed net (with_page options 1)
                    (set_hasMoreResults true (set_currentPage 1 s))) as M.
      cbn [extension_settings set_hasMoreResults set_currentPage] in M.
      rewrite (M U).
      cbn [fst snd]. split; [reflexivity|]. split.
      * rewrite beginSearch_trace. reflexivity.
      * rewrite (beginSearch_keeps hasMoreResults) by reflexivity. reflexivity.
  - intros append H. destruct append; [|discriminate H].
    cbn [resetPagination] in H. repeat split; [exact H|].
    apply executeCharacterSearch_gate, H.
Qed.

Lemma executeCharacterSearch_reset_and_gate_witness :
  executeCharacterSearch deadNet elfOptions true (set_hasMoreResults false openState)
  = (Ok tt, set_hasMoreResults false openState).
Proof.
  destruct (executeCharacterSearch_reset_and_gate deadNet elfOptions
              (set_hasMoreResults false openState)) as [_ H].
  destruct (H true eq_refl) as (_ & _ & E). exact E.
Defined.

(* ------------------------------------------------------------------ *)
(** ** The in-memory list *)
(* ------------------------------------------------------------------ *)

Lemma promise_all_entities (net : Network) (nodes : list CatalogNode)
      (characters : list DisplayEntity) :
  promise_all (map (entityOutcome net) nodes) = Ok characters ->
  forallb (answered net) nodes = true /\ characters = map (entityOf net) nodes.
Proof.
  intro P. destruct (forallb (answered net) nodes) eqn:A.
  - rewrite (promise_all_answered _ _ A) in P. injection P as <-. auto.
  - destruct (promise_all_rejected _ _ A) as [e E]. rewrite E in P. discriminate P.
Qed.

(** C10, as amended.  The reset of [chubCharacters] comes after the search
    request was answered and its body was parsed.  A call that gets a page
    empties the list before the enricher runs and rebuilds it from that
    page alone: afterwards the list holds the entities of the returned nodes
    when every per-item request was answered, and nothing when one of them
    was rejected, whatever it held before.  A call that does not get a page
    (the URL cannot be built, the request is rejected, the body is not
    JSON) leaves the list as it was.  So after a completed load-more search
    (with [append = true]) the list holds the entities of the newest page
    only. *)
Theorem fetchCharactersBySearch_replaces_list :
  (forall (net : Network) (options : SearchOptions) (s : State) (request : Request)
          (r : Response) (sd : SearchData) (nodes : list CatalogNode),
      searchRequest (extension_settings s) options = Some request ->
      net request = Responded r ->
      resp_json r = Some sd ->
      sd_nodes sd = Some nodes ->
      let outcome := fetchCharactersBySearch net options s in
      (forallb (answered net) nodes = true ->
       fst outcome = Ok (map (entityOf net) nodes)
       /\ chubCharacters (snd outcome) = map (entityOf net) nodes)
      /\ (forallb (answered net) nodes = false ->
          (exists e, fst outcome = Throw e) /\ chubCharacters (snd outcome) = []))
  /\ (forall (net : Network) (options : SearchOptions) (s : State),
        let outcome := fetchCharactersBySearch net options s in
        searchRequest (extension_settings s) options = None
        \/ (exists request,
               searchRequest (extension_settings s) options = Some request
               /\ (net request = Rejected
                   \/ exists r, net request = Responded r /\ resp_json r = None)) ->
        (exists e, fst outcome = Throw e)
        /\ chubCharacters (snd outcome) = chubCharacters s)
  /\ (forall (net : Network) (options : SearchOptions) (s s' : State) (request : Request)
             (r : Response) (sd : SearchData) (nodes : list CatalogNode),
         hasMoreResults s = true ->
         searchRequest (extension_settings s) (with_page options (currentPage s))
           = Some request ->
         net request = Responded r ->
         resp_json r = Some sd ->
         sd_nodes sd = Some nodes ->
         executeCharacterSearch net options true s = (Ok tt, s') ->
         chubCharacters s' = map (entityOf net) nodes
         /\ List.length (chubCharacters s') = List.length nodes).
Proof.
  split; [|split].
  - intros net options s request r sd nodes U H J N. cbv zeta.
    rewrite (fetchCharactersBySearch_page _ _ _ U H J N). cbv zeta.
    destruct (List.length nodes =? 0) eqn:Z.
    + apply Nat.eqb_eq in Z. destruct nodes; [|discriminate Z].
      split; [intros _; split; reflexivity | intro A; discriminate A].
    + match goal with |- context [processCharacters net nodes ?s0] =>
        pose proof (processCharacters_result net nodes s0) as P;
        pose proof (@processBatches_keeps net _ chubCharacters
                      (fun _ _ => eq_refl) (fun _ _ => eq_refl)
                      (make_batches nodes) [] s0) as K;
        fold (processCharacters net nodes) in K;
        destruct (processCharacters net nodes s0) as [[cs|e] s1]
      end; cbn [fst snd] in *.
      * symmetry in P. destruct (promise_all_entities _ _ P) as [A ->].
        split; [intros _; split; reflexivity | intro A'; congruence].
      * split.
        -- intro A. rewrite (promise_all_answered _ _ A) in P. discriminate P.
        -- intros _. split; [exists e; reflexivity | exact K].
  - intros net options s. cbv zeta. intros [U | (request & U & [H | (r & H & J)])].
    + rewrite (fetchCharactersBySearch_malformed net _ _ U).
      split; [exists URIError|]; reflexivity.
    + rewrite (fetchCharactersBySearch_rejected net _ _ U H).
      split; [eexists|]; reflexivity.
    + rewrite (fetchCharactersBySearch_unparsed net _ _ U H J).
      split; [eexists|]; reflexivity.
  - intros net options s s' request r sd nodes G U H J N E.
    destruct (@executeCharacterSearch_ok net options true s s' G E)
      as (cs & s1 & ES & _ & C & _).
    cbn [resetPagination] in ES.
    destruct (searchCharacters_page _ _ _ U H J N ES) as (P & C1 & _).
    destruct (promise_all_entities _ _ P) as [_ ->].
    rewrite C, C1. split; [reflexivity|]. apply length_map.
Qed.

Lemma fetchCharactersBySearch_replaces_list_witness :
  List.length (chubCharacters pageTwoRequested) = 10 /\
  List.length (chubCharacters
                 (snd (executeCharacterSearch (healthyNet (sampleNodes 10)) elfOptions true
                                              pageTwoRequested))) = 10.
Proof.
  split; [reflexivity|].
  destruct (executeCharacterSearch (healthyNet (sampleNodes 10)) elfOptions true
                                   pageTwoRequested) as [[[] | e] s'] eqn:E;
    [|vm_compute in E; discriminate E].
  destruct fetchCharactersBySearch_replaces_list as (_ & _ & H).
  edestruct H with (net := healthyNet (sampleNodes 10)) (options := elfOptions)
                   (s := pageTwoRequested) (s' := s')
                   (r := page200 (sampleNodes 10))
                   (sd := {| sd_nodes := Some (sampleNodes 10) |})
                   (nodes := sampleNodes 10) as [_ L]; try reflexivity.
  - exact E.
  - exact L.
Defined.

(** C10 as stated fails: the list holds the ten entities of the first page
    when the second page is asked for; the request is sent and rejected, and
    the list still holds the ten entities.  The reset is not the first thing
    a call does, and not every call gets to it. *)
Lemma rejected_search_keeps_the_list :
  let outcome := fetchCharactersBySearch deadNet (with_page elfOptions 2) pageTwoRequested in
  List.length (chubCharacters pageTwoRequested) = 10 /\
  (exists request,
      searchRequest (extension_settings pageTwoRequested) (with_page elfOptions 2)
        = Some request
      /\ fst outcome = Throw (NetworkError request)
      /\ requests (trace (snd outcome)) = requests (trace pageTwoRequested) ++ [request]) /\
  chubCharacters (snd outcome) = chubCharacters pageTwoRequested /\
  chubCharacters (snd outcome) <> [].
Proof.
  cbv zeta. split; [reflexivity|]. split.
  - eexists. split; [vm_compute; reflexivity|]. split; vm_compute; reflexivity.
  - split; [vm_compute; reflexivity|]. vm_compute. discriminate.
Qed.

(* ================================================================== *)
(** * Further properties of the script *)
(* ================================================================== *)

(* ------------------------------------------------------------------ *)
(** ** Settings *)
(* ------------------------------------------------------------------ *)

Lemma getProperty_app (o o' : JsObject) (key : string) :
  getProperty (o ++ o') key =
  match getProperty o key with
  | Some v => Some v
  | None => getProperty o' key
  end.
Proof.
  induction o as [|[k v] o IH]; simpl; [reflexivity|].
  destruct (String.eqb k key); [reflexivity | exact IH].
Qed.

Lemma setProperty_missing (o : JsObject) (key : string) (value : JsValue) :
  hasOwnProperty o key = false -> setProperty o key value = o ++ [(key, value)].
Proof.
  unfold hasOwnProperty. induction o as [|[k v] o IH]; simpl; intro H; [reflexivity|].
  destruct (String.eqb k key); [discriminate H|]. rewrite IH by exact H. reflexivity.
Qed.

Lemma hasOwnProperty_app (o o' : JsObject) (key : string) :
  hasOwnProperty (o ++ o') key = hasOwnProperty o key || hasOwnProperty o' key.
Proof.
  unfold hasOwnProperty. rewrite getProperty_app.
  destruct (getProperty o key); reflexivity.
Qed.

Lemma loadSettings_closed_form (chub : option JsObject) :
  let before := match chub with Some o => o | None => [] end in
  hasOwnProperty before "hasOwnProperty" = false ->
  loadSettings chub =
  (Ok tt,
   before ++ filter (fun kv => negb (hasOwnProperty before (fst kv))) defaultSettingsEntries).
Proof.
  cbv zeta. unfold loadSettings, defaultSettingsEntries.
  set (before := match chub with Some o => o | None => [] end). intro S.
  assert (G : getProperty before "hasOwnProperty" = None).
  { unfold hasOwnProperty in S. destruct (getProperty before "hasOwnProperty");
      [discriminate S | reflexivity]. }
  assert (G' : forall value,
             getProperty (before ++ [("findCount", value)]) "hasOwnProperty" = None).
  { intro value. rewrite getProperty_app, G. reflexivity. }
  cbn [mergeDefaults filter fst snd]. unfold callHasOwnProperty at 1. rewrite G.
  destruct (hasOwnProperty before "findCount") eqn:F; cbn [negb].
  - unfold callHasOwnProperty at 1. rewrite G.
    destruct (hasOwnProperty before "nsfw") eqn:N; cbn [negb].
    + rewrite app_nil_r. reflexivity.
    + rewrite (@setProperty_missing _ _ _ N). reflexivity.
  - rewrite (@setProperty_missing _ _ _ F). unfold callHasOwnProperty at 1. rewrite G'.
    rewrite hasOwnProperty_app.
    change (hasOwnProperty [("findCount", JsNumber 10)] "nsfw") with false.
    rewrite orb_false_r.
    destruct (hasOwnProperty before "nsfw") eqn:N; cbn [negb]; [reflexivity|].
    rewrite setProperty_missing.
    + rewrite <- app_assoc. reflexivity.
    + rewrite hasOwnProperty_app, N. reflexivity.
Qed.

(** X1.  As long as the store has no property of its own that is named
    [hasOwnProperty], [loadSettings] returns, keeps every stored setting as
    it is, in place, and adds at the end the defaults the store lacks:
    afterwards a key reads as it was stored, or as its default when it was
    not stored; a missing store is treated as an empty one; loading twice
    changes nothing.  A stored property named [hasOwnProperty] is what the
    script calls: the call throws at the first default and the store stays
    as it was, without the defaults it lacks. *)
Theorem loadSettings_merges_defaults (chub : option JsObject) :
  let before := match chub with Some o => o | None => [] end in
  let after := snd (loadSettings chub) in
  (hasOwnProperty before "hasOwnProperty" = false ->
   fst (loadSettings chub) = Ok tt
   /\ (forall key,
         getProperty after key =
         match getProperty before key with
         | Some v => Some v
         | None => getProperty defaultSettingsEntries key
         end)
   /\ (exists added, after = before ++ added /\ incl added defaultSettingsEntries)
   /\ hasOwnProperty after "findCount" = true
   /\ hasOwnProperty after "nsfw" = true
   /\ loadSettings (Some after) = (Ok tt, after))
  /\ (hasOwnProperty before "hasOwnProperty" = true ->
      loadSettings chub =
      (Throw (TypeError "extension_settings.chub.hasOwnProperty is not a function"), before)).
Proof.
  cbv zeta. set (before := match chub with Some o => o | None => [] end). split.
  - intro S.
    pose proof (loadSettings_closed_form chub) as C. cbv zeta in C. fold before in C.
    specialize (C S). rewrite C. cbn [fst snd].
    set (after := before ++ filter (fun kv => negb (hasOwnProperty before (fst kv)))
                                   defaultSettingsEntries).
    assert (L : forall key,
               getProperty after key =
               match getProperty before key with
               | Some v => Some v
               | None => getProperty defaultSettingsEntries key
               end).
    { intro key. unfold after. rewrite getProperty_app.
      destruct (getProperty before key) as [v|] eqn:G; [reflexivity|].
      unfold defaultSettingsEntries. cbn [filter fst].
      destruct (String.eqb "findCount" key) eqn:E1.
      - apply String.eqb_eq in E1. subst key.
        unfold hasOwnProperty. rewrite G. cbn [negb].
        destruct (negb match getProperty before "nsfw" with
                       | Some _ => true | None => false end); reflexivity.
      - destruct (String.eqb "nsfw" key) eqn:E2.
        + apply String.eqb_eq in E2. subst key.
          unfold hasOwnProperty. rewrite G. cbn [negb].
          destruct (negb match getProperty before "findCount" with
                         | Some _ => true | None => false end); reflexivity.
        + destruct (negb (hasOwnProperty before "findCount"));
            destruct (negb (hasOwnProperty before "nsfw")); cbn [getProperty];
            rewrite ?E1, ?E2; reflexivity. }
    assert (F : hasOwnProperty after "findCount" = true).
    { unfold hasOwnProperty. rewrite L. destruct (getProperty before "findCount"); reflexivity. }
    assert (N : hasOwnProperty after "nsfw" = true).
    { unfold hasOwnProperty. rewrite L. destruct (getProperty before "nsfw"); reflexivity. }
    assert (S' : hasOwnProperty after "hasOwnProperty" = false).
    { unfold hasOwnProperty in *. rewrite L.
      destruct (getProperty before "hasOwnProperty"); [discriminate S | reflexivity]. }
    split; [reflexivity|]. split; [exact L|]. split.
    + exists (filter (fun kv => negb (hasOwnProperty before (fst kv))) defaultSettingsEntries).
      split; [reflexivity | apply incl_filter].
    + split; [exact F|]. split; [exact N|].
      pose proof (loadSettings_closed_form (Some after)) as C2. cbv zeta in C2.
      etransitivity; [exact (C2 S')|].
      unfold defaultSettingsEntries. cbn [filter fst]. rewrite F, N.
      cbn [negb]. rewrite app_nil_r. reflexivity.
  - intro S. unfold loadSettings. fold before. unfold defaultSettingsEntries.
    cbn [mergeDefaults]. unfold callHasOwnProperty, hasOwnProperty in *.
    destruct (getProperty before "hasOwnProperty"); [reflexivity | discriminate S].
Qed.

Lemma loadSettings_merges_defaults_witness :
  getProperty (snd (loadSettings (Some storedSettings))) "nsfw" = Some (JsBoolean true)
  /\ getProperty (snd (loadSettings (Some storedSettings))) "findCount" = Some (JsNumber 10)
  /\ snd (loadSettings (Some shadowedSettings)) = shadowedSettings.
Proof.
  destruct (loadSettings_merges_defaults (Some storedSettings)) as [H _].
  destruct (H eq_refl) as (_ & L & _).
  destruct (loadSettings_merges_defaults (Some shadowedSettings)) as [_ K].
  split; [rewrite L; reflexivity|]. split; [rewrite L; reflexivity|].
  rewrite (K eq_refl). reflexivity.
Defined.

(* ------------------------------------------------------------------ *)
(** ** The page buttons *)
(* ------------------------------------------------------------------ *)








(* ------------------------------------------------------------------ *)
(** ** Tag permutations *)
(* ------------------------------------------------------------------ *)

(** X3.  [makeTagPermutations] gives three entries for every non-empty tag,
    in the order of the tags (the tag, the tag in upper case, the tag with
    its first character in upper case), and nothing for an empty tag: the
    result is three times as long as the list of non-empty tags and holds
    each of them. *)
Theorem makeTagPermutations_spec (toUpperCase : Utf16.text -> Utf16.text)
        (tags : list Utf16.text) :
  List.length (makeTagPermutations toUpperCase tags) = 3 * List.length (filterTags tags)
  /\ makeTagPermutations toUpperCase tags =
     flat_map (fun tag => [tag; toUpperCase tag; capitalize toUpperCase tag])
              (filterTags tags)
  /\ (forall tag, In tag tags -> tag <> [] ->
                  In tag (makeTagPermutations toUpperCase tags)
                  /\ In (toUpperCase tag) (makeTagPermutations toUpperCase tags)
                  /\ In (capitalize toUpperCase tag) (makeTagPermutations toUpperCase tags))
  /\ (filterTags tags = [] -> makeTagPermutations toUpperCase tags = []).
Proof.
  assert (F : makeTagPermutations toUpperCase tags =
              flat_map (fun tag => [tag; toUpperCase tag; capitalize toUpperCase tag])
                       (filterTags tags)).
  { unfold filterTags. induction tags as [|tag tags IH]; [reflexivity|].
    cbn [makeTagPermutations filter]. unfold nonEmpty.
    destruct (0 <? List.length tag); [|exact IH]. cbn [flat_map app]. rewrite IH.
    reflexivity. }
  split.
  - rewrite F. clear F. induction (filterTags tags) as [|tag l IH]; [reflexivity|].
    cbn [flat_map app List.length]. rewrite IH. lia.
  - split; [exact F|]. split.
    + intros tag I NE. rewrite F.
      assert (I' : In tag (filterTags tags)) by (apply filterTags_In; auto).
      repeat split; apply in_flat_map; exists tag; (split; [exact I'|]); simpl; auto.
    + intro E. rewrite F, E. reflexivity.
Qed.

Lemma makeTagPermutations_spec_witness :
  In (Utf16.of_string "elf")
     (makeTagPermutations (fun s => s) [Utf16.of_string "elf"; []]).
Proof.
  destruct (makeTagPermutations_spec (fun s => s) [Utf16.of_string "elf"; []])
    as (_ & _ & H & _).
  destruct (H (Utf16.of_string "elf")) as [I _]; [simpl; auto | discriminate | exact I].
Defined.

(* ------------------------------------------------------------------ *)
(** ** [getCharacter]: when the backup is tried *)
(* ------------------------------------------------------------------ *)

(** X5.  [getCharacter] always sends the primary request first and at most
    one more.  A successful primary response is returned without a second
    request; a rejected primary request ends the call with that rejection
    and the backup endpoint is not tried; the backup request is sent only
    after an unsuccessful primary response, and its rejection ends the
    call. *)
Theorem getCharacter_requests (net : Network) (fullPath : string) (s : State) :
  (exists more,
      requests (trace (snd (getCharacter net fullPath s))) =
      requests (trace s) ++ downloadRequest fullPath :: more
      /\ (more = [] \/ more = [avatarRequest fullPath]))
  /\ (forall r1, net (downloadRequest fullPath) = Responded r1 -> ok r1 = true ->
                 getCharacter net fullPath s =
                 (Ok (resp_blob r1), log [Fetch (downloadRequest fullPath)] s))
  /\ (net (downloadRequest fullPath) = Rejected ->
      getCharacter net fullPath s =
      (Throw (NetworkError (downloadRequest fullPath)),
       log [Fetch (downloadRequest fullPath)] s))
  /\ (forall r1, net (downloadRequest fullPath) = Responded r1 -> ok r1 = false ->
                 net (avatarRequest fullPath) = Rejected ->
                 getCharacter net fullPath s =
                 (Throw (NetworkError (avatarRequest fullPath)),
                  log [Fetch (downloadRequest fullPath); Fetch (avatarRequest fullPath)] s)).
Proof.
  rewrite getCharacter_run. unfold blobOutcome, backupRequests. split.
  - cbn [snd trace log]. rewrite requests_app. cbn [requests].
    destruct (net (downloadRequest fullPath)) as [r1|]; [destruct (ok r1)|];
      eexists; (split; [reflexivity|]); auto.
  - split; [intros r1 H O; rewrite H, O; reflexivity|].
    split; [intro H; rewrite H; reflexivity|].
    intros r1 H O R. rewrite H, O, R. reflexivity.
Qed.

Lemma getCharacter_requests_witness :
  getCharacter deadNet "author/card1" initialState =
  (Throw (NetworkError (downloadRequest "author/card1")),
   log [Fetch (downloadRequest "author/card1")] initialState).
Proof.
  destruct (getCharacter_requests deadNet "author/card1" initialState) as (_ & _ & H & _).
  apply H. reflexivity.
Defined.

(* ------------------------------------------------------------------ *)
(** ** Splitting at a separator *)
(* ------------------------------------------------------------------ *)

Lemma split_go_skip (sep p rest : string) (cur : list ascii) :
  JsString.split_go sep (String.length p) cur (p ++ rest)%string =
  JsString.split_go sep 0 cur rest.
Proof.
  induction p as [|c p IH]; [reflexivity|]. cbn [String.length String.append].
  cbn [JsString.split_go]. exact IH.
Qed.

Lemma split_go_noOccurrence (sep s : string) (cur : list ascii) :
  noOccurrence sep s = true ->
  JsString.split_go sep 0 cur s =
  [string_of_list_ascii (rev cur ++ list_ascii_of_string s)].
Proof.
  revert cur. induction s as [|c s IH]; intros cur H.
  - simpl. rewrite app_nil_r. reflexivity.
  - cbn [noOccurrence] in H. apply andb_true_iff in H as [H1 H2].
    apply negb_true_iff in H1. cbn [JsString.split_go]. rewrite H1.
    rewrite IH by exact H2. cbn [rev list_ascii_of_string]. rewrite <- app_assoc.
    reflexivity.
Qed.

Lemma prefix_append (sep rest : string) : prefix sep (sep ++ rest)%string = true.
Proof.
  induction sep as [|c sep IH]; [destruct rest; reflexivity|].
  cbn [String.append prefix]. destruct (ascii_dec c c) as [_|N]; [exact IH | congruence].
Qed.

Lemma split_go_at (d : ascii) (sep' pre rest : string) (cur : list ascii) :
  noEarlierOccurrence (String d sep') pre (String d sep' ++ rest)%string = true ->
  JsString.split_go (String d sep') 0 cur (pre ++ String d sep' ++ rest)%string =
  string_of_list_ascii (rev cur ++ list_ascii_of_string pre)
    :: JsString.split_go (String d sep') 0 [] rest.
Proof.
  revert cur. induction pre as [|c pre IH]; intros cur H.
  - cbn [String.append list_ascii_of_string]. rewrite app_nil_r.
    cbn [JsString.split_go].
    change (String d (sep' ++ rest)%string) with (String d sep' ++ rest)%string.
    rewrite prefix_append. cbn [String.length].
    replace (S (String.length sep') - 1) with (String.length sep') by lia.
    rewrite split_go_skip. reflexivity.
  - cbn [noEarlierOccurrence] in H. apply andb_true_iff in H as [H1 H2].
    apply negb_true_iff in H1.
    change (String c pre ++ String d sep' ++ rest)%string
      with (String c (pre ++ String d sep' ++ rest)%string) in *.
    cbn [JsString.split_go]. rewrite H1. rewrite IH by exact H2.
    cbn [rev list_ascii_of_string]. rewrite <- app_assoc. reflexivity.
Qed.

Lemma remove_all_gone (c : ascii) (s : string) :
  JsString.includes c (JsString.remove_all c s) = false.
Proof.
  induction s as [|d s IH]; [reflexivity|]. cbn [JsString.remove_all].
  destruct (Ascii.eqb c d) eqn:E; [exact IH|]. cbn [JsString.includes]. rewrite E, IH.
  reflexivity.
Qed.

Lemma remove_all_absent (c : ascii) (s : string) :
  JsString.includes c s = false -> JsString.remove_all c s = s.
Proof.
  induction s as [|d s IH]; [reflexivity|]. cbn [JsString.includes JsString.remove_all].
  intro H. apply orb_false_iff in H as [H1 H2]. rewrite H1, IH by exact H2. reflexivity.
Qed.

Lemma fileNameOf_no_quote (header name : string) :
  fileNameOf header = Some name -> JsString.includes doubleQuote name = false.
Proof.
  unfold fileNameOf. destruct (nth_error _ 1); [|discriminate].
  intro H. injection H as <-. apply remove_all_gone.
Qed.

(** X6.  The file name of an import is what follows the first [filename=]
    of the [Content-Disposition] header, up to the next [filename=] or, when
    there is no other, to the end of the header, with every double quote
    taken out; parameters that follow the name stay part of it.  A header
    without [filename=] has no file name (the code dereferences
    [undefined]). *)
Theorem fileNameOf_spec (pre name rest : string) :
  (noEarlierOccurrence "filename=" pre ("filename=" ++ name) = true ->
   noOccurrence "filename=" name = true ->
   fileNameOf (pre ++ "filename=" ++ name) =
     Some (JsString.remove_all doubleQuote name)
   /\ JsString.includes doubleQuote (JsString.remove_all doubleQuote name) = false
   /\ (JsString.includes doubleQuote name = false ->
       fileNameOf (pre ++ "filename=" ++ name) = Some name))
  /\ (noEarlierOccurrence "filename=" pre ("filename=" ++ name ++ "filename=" ++ rest) = true ->
      noEarlierOccurrence "filename=" name ("filename=" ++ rest) = true ->
      fileNameOf (pre ++ "filename=" ++ name ++ "filename=" ++ rest) =
        Some (JsString.remove_all doubleQuote name)
      /\ (JsString.includes doubleQuote name = false ->
          fileNameOf (pre ++ "filename=" ++ name ++ "filename=" ++ rest) = Some name))
  /\ (noOccurrence "filename=" pre = true -> fileNameOf pre = None).
Proof.
  split; [|split].
  - intros E N.
    assert (F : fileNameOf (pre ++ "filename=" ++ name) =
                Some (JsString.remove_all doubleQuote name)).
    { unfold fileNameOf, JsString.split.
      change "filename=" with (String "f"%char "ilename=") at 1 2.
      rewrite split_go_at by exact E.
      change (String "f"%char "ilename=") with "filename=".
      rewrite (@split_go_noOccurrence _ _ [] N). cbn [nth_error rev app].
      rewrite string_of_list_ascii_of_string. reflexivity. }
    split; [exact F|]. split; [apply remove_all_gone|].
    intro Q. rewrite F, (@remove_all_absent _ _ Q). reflexivity.
  - intros E N.
    assert (F : fileNameOf (pre ++ "filename=" ++ name ++ "filename=" ++ rest) =
                Some (JsString.remove_all doubleQuote name)).
    { unfold fileNameOf, JsString.split.
      change "filename=" with (String "f"%char "ilename=") in *.
      rewrite (@split_go_at _ _ pre (name ++ String "f"%char "ilename=" ++ rest) [] E).
      rewrite (@split_go_at _ _ name rest [] N). cbn [nth_error rev app].
      rewrite string_of_list_ascii_of_string. reflexivity. }
    split; [exact F|]. intro Q. rewrite F, (@remove_all_absent _ _ Q). reflexivity.
  - intro N. unfold fileNameOf, JsString.split.
    rewrite (@split_go_noOccurrence _ _ [] N). reflexivity.
Qed.

Lemma fileNameOf_spec_witness :
  fileNameOf "attachment; filename=card.png; size=3" = Some "card.png; size=3"
  /\ fileNameOf "attachment; filename=x.png; filename=y" = Some "x.png; ".
Proof.
  destruct (fileNameOf_spec "attachment; " "card.png; size=3" "") as [H _].
  destruct (H eq_refl eq_refl) as (_ & _ & K).
  destruct (fileNameOf_spec "attachment; " "x.png; " "y") as (_ & H2 & _).
  destruct (H2 eq_refl eq_refl) as (_ & K2).
  split; [apply K | apply K2]; reflexivity.
Defined.

(* ------------------------------------------------------------------ *)
(** ** Import: what never happens *)
(* ------------------------------------------------------------------ *)

(** X7.  Whatever the network does, [downloadCharacter] sends one or two
    requests, the first to the primary import endpoint with the trimmed
    url, and hands at most one file to the host, whose name holds no double
    quote.  When the first request is rejected, the call ends with that
    rejection: nothing else is sent, no notification is shown and nothing
    is ingested. *)
Theorem downloadCharacter_at_most_one_ingestion (net : Network) (input : string)
        (s : State) :
  let url := JsString.trim input in
  let after := snd (downloadCharacter net input s) in
  (exists more,
      requests (trace after) =
      requests (trace s) ++ importRequest "/api/content/importUUID" url :: more
      /\ (more = [] \/ more = [importRequest "/import_custom" url]))
  /\ (exists handed,
         ingestions (trace after) = ingestions (trace s) ++ handed
         /\ (handed = [] \/
             exists file, handed = [[file]]
                          /\ JsString.includes doubleQuote (file_name file) = false))
  /\ (net (importRequest "/api/content/importUUID" url) = Rejected ->
      downloadCharacter net input s =
      (Throw (NetworkError (importRequest "/api/content/importUUID" url)),
       log [Fetch (importRequest "/api/content/importUUID" url)] s)).
Proof.
  cbv zeta.
  assert (T : forall evs, requests (trace (log evs s)) = requests (trace s) ++ requests evs)
    by (intro; apply requests_app).
  assert (I : forall evs, ingestions (trace (log evs s)) = ingestions (trace s) ++ ingestions evs)
    by (intro; apply ingestions_app).
  unfold downloadCharacter, fetch, fetch_start, fetch_await, emit, modify, bind, ret, throw.
  destruct (net (importRequest "/api/content/importUUID" (JsString.trim input)))
    as [r1|] eqn:N1; cbn [fst snd].
  2: { rewrite T, I. split; [eexists; split; [reflexivity | auto]|].
       split; [exists []; auto | reflexivity]. }
  split; [|split; [|discriminate]].
  - destruct (ok r1) eqn:O1; cbn [negb fst snd].
    + rewrite O1. cbn [negb].
      destruct (headers_get (resp_headers r1) "Content-Disposition") as [h|];
        [destruct (fileNameOf h)|]; cbn [fst snd];
        try destruct (isContentType "character" _); cbn [fst snd];
        rewrite ?log_app, T; eexists; (split; [reflexivity | auto]).
    + destruct (net (importRequest "/import_custom" (JsString.trim input))) as [r2|];
        cbn [fst snd].
      * destruct (ok r2); cbn [negb fst snd].
        -- destruct (headers_get (resp_headers r2) "Content-Disposition") as [h|];
             [destruct (fileNameOf h)|]; cbn [fst snd];
             try destruct (isContentType "character" _); cbn [fst snd];
             rewrite ?log_app, T; eexists; (split; [reflexivity | auto]).
        -- rewrite ?log_app, T. eexists. split; [reflexivity | auto].
      * rewrite ?log_app, T. eexists. split; [reflexivity | auto].
  - assert (Q : forall (r : Response) h name,
               fileNameOf h = Some name ->
               exists file,
                 [[{| file_data := resp_blob r; file_name := name;
                      file_type := blob_type (resp_blob r) |}]] = [[file]]
                 /\ JsString.includes doubleQuote (file_name file) = false).
    { intros r h name F. eexists. split; [reflexivity|]. exact (@fileNameOf_no_quote _ _ F). }
    destruct (ok r1) eqn:O1; cbn [negb fst snd].
    + rewrite O1. cbn [negb].
      destruct (headers_get (resp_headers r1) "Content-Disposition") as [h|];
        [destruct (fileNameOf h) eqn:F|]; cbn [fst snd];
        try destruct (isContentType "character" _); cbn [fst snd];
        rewrite ?log_app, I; eexists; (split; [reflexivity|]); cbn [ingestions app];
        first [left; reflexivity | right; exact (Q r1 _ _ F)].
    + destruct (net (importRequest "/import_custom" (JsString.trim input))) as [r2|];
        cbn [fst snd].
      * destruct (ok r2); cbn [negb fst snd].
        -- destruct (headers_get (resp_headers r2) "Content-Disposition") as [h|];
             [destruct (fileNameOf h) eqn:F|]; cbn [fst snd];
             try destruct (isContentType "character" _); cbn [fst snd];
             rewrite ?log_app, I; eexists; (split; [reflexivity|]); cbn [ingestions app];
             first [left; reflexivity | right; exact (Q r2 _ _ F)].
        -- rewrite ?log_app, I. eexists. split; [reflexivity | left; reflexivity].
      * rewrite ?log_app, I. eexists. split; [reflexivity | left; reflexivity].
Qed.

Lemma downloadCharacter_at_most_one_ingestion_witness :
  downloadCharacter deadNet " author/card1 " openState =
  (Throw (NetworkError (importRequest "/api/content/importUUID" "author/card1")),
   log [Fetch (importRequest "/api/content/importUUID" "author/card1")] openState).
Proof.
  destruct (downloadCharacter_at_most_one_ingestion deadNet " author/card1 " openState)
    as (_ & _ & H).
  apply H. reflexivity.
Defined.

(* ------------------------------------------------------------------ *)
(** ** [fetchCharactersBySearch]: failures and the empty page *)
(* ------------------------------------------------------------------ *)

(** X8.  [fetchCharactersBySearch] sends the search request first and never
    looks at the status of the answer.  A rejected request and an answer
    that is not JSON end the call before the in-memory list is touched; an
    answer without [nodes] ends it after the list was emptied; an answer
    with no nodes resolves with the empty list, which is also what the
    in-memory list holds then, without any further request.  When the URL
    cannot be built, the call ends with [URIError] before anything is sent
    or touched. *)
Theorem fetchCharactersBySearch_failures (net : Network) (options : SearchOptions)
        (s : State) :
  (forall request,
      searchRequest (extension_settings s) options = Some request ->
      (net request = Rejected ->
       fetchCharactersBySearch net options s =
       (Throw (NetworkError request), log [Fetch request] s))
      /\ (forall r, net request = Responded r -> resp_json r = None ->
                    fetchCharactersBySearch net options s =
                    (Throw SyntaxError, log [Fetch request] s))
      /\ (forall r sd, net request = Responded r -> resp_json r = Some sd ->
                       sd_nodes sd = None ->
                       fetchCharactersBySearch net options s =
                       (Throw (TypeError "searchData.nodes is undefined"),
                        set_chubCharacters [] (log [Fetch request] s)))
      /\ (forall r sd, net request = Responded r -> resp_json r = Some sd ->
                       sd_nodes sd = Some [] ->
                       fetchCharactersBySearch net options s =
                       (Ok [], set_chubCharacters [] (log [Fetch request] s))))
  /\ (searchRequest (extension_settings s) options = None ->
      fetchCharactersBySearch net options s = (Throw URIError, s)).
Proof.
  split; [|apply fetchCharactersBySearch_malformed].
  intros request U. split; [apply fetchCharactersBySearch_rejected, U|].
  split; [intro r; apply fetchCharactersBySearch_unparsed, U|]. split.
  - intros r sd H J N.
    unfold fetchCharactersBySearch, fetch, fetch_start, emit, modify, bind, gets, ret.
    cbn [extension_settings log]. rewrite U. cbn [extension_settings log]. rewrite H.
    cbn [fetch_await]. unfold ret. rewrite J, N. reflexivity.
  - intros r sd H J N. rewrite (fetchCharactersBySearch_page _ _ _ U H J N). reflexivity.
Qed.

Lemma fetchCharactersBySearch_failures_witness :
  chubCharacters (snd (fetchCharactersBySearch deadNet elfOptions pageOneState))
  = chubCharacters pageOneState
  /\ fetchCharactersBySearch deadNet emojiOptions pageOneState = (Throw URIError, pageOneState).
Proof.
  destruct (fetchCharactersBySearch_failures deadNet elfOptions pageOneState) as [H _].
  edestruct H as [K _]; [vm_compute; reflexivity|].
  destruct (fetchCharactersBySearch_failures deadNet emojiOptions pageOneState) as [_ M].
  split; [rewrite K; reflexivity | apply M; vm_compute; reflexivity].
Defined.

(* ------------------------------------------------------------------ *)
(** ** Batches: how many, and where the enricher stops *)
(* ------------------------------------------------------------------ *)

Lemma batchSizes_count (fuel n : nat) :
  n <= fuel ->
  n <= batchSize * List.length (batchSizes fuel n)
  /\ batchSize * List.length (batchSizes fuel n) < n + batchSize
  /\ Forall (fun size => 1 <= size <= batchSize) (batchSizes fuel n).
Proof.
  revert n. induction fuel as [|fuel IH]; intros n H; cbn [batchSizes].
  - replace n with 0 by lia. unfold batchSize. simpl. repeat split; try lia; constructor.
  - destruct (n =? 0) eqn:E.
    + apply Nat.eqb_eq in E. subst n. unfold batchSize. simpl.
      repeat split; try lia; constructor.
    + apply Nat.eqb_neq in E. cbn [List.length].
      destruct (IH (n - batchSize)) as (A & B & C); [unfold batchSize; lia|].
      unfold batchSize in *. repeat split; try lia.
      constructor; [lia | exact C].
Qed.

(** X9.  The enricher makes as many batches as are needed to hold the nodes
    by twenties, and no more: for [n] nodes the number [k] of batches
    satisfies [20 (k - 1) < n <= 20 k]; no nodes give no batch, and no batch
    is empty or holds more than 20 nodes or a node that was not given. *)
Theorem make_batches_count (nodes : list CatalogNode) :
  let k := List.length (make_batches nodes) in
  List.length nodes <= 20 * k
  /\ 20 * k < List.length nodes + 20
  /\ (nodes = [] <-> make_batches nodes = [])
  /\ (forall batch, In batch (make_batches nodes) ->
                    1 <= List.length batch <= 20
                    /\ forall node, In node batch -> In node nodes).
Proof.
  cbv zeta.
  pose proof (make_batches_sizes nodes) as S.
  destruct (@batchSizes_count (List.length nodes) (List.length nodes) (le_n _))
    as (A & B & C).
  rewrite <- S, length_map in A, B. rewrite <- S in C. unfold batchSize in *.
  split; [exact A|]. split; [exact B|]. split.
  - split; [intros ->; reflexivity|]. intro E. rewrite E in A. simpl in A.
    destruct nodes; [reflexivity | simpl in A; lia].
  - intros batch I. split.
    + rewrite Forall_forall in C. apply C. apply in_map, I.
    + intros node J. rewrite <- (make_batches_concat nodes).
      apply in_concat. exists batch. auto.
Qed.

Lemma make_batches_count_witness : List.length (make_batches (sampleNodes 45)) = 3.
Proof.
  pose proof (make_batches_count (sampleNodes 45)) as H. cbv zeta in H.
  destruct H as (A & B & _).
  assert (L : List.length (sampleNodes 45) = 45) by reflexivity.
  rewrite L in A, B. lia.
Defined.

Lemma processBatches_rejected_head (net : Network) (bad : list CatalogNode)
      (rest : list (list CatalogNode)) (processed : list DisplayEntity) (s : State) (e : Exn) :
  promise_all (map (entityOutcome net) bad) = Throw e ->
  processBatches net (bad :: rest) processed s = (Throw e, log (batchRequests net bad) s).
Proof.
  intro E. cbn [processBatches]. unfold bind at 1. rewrite processBatch_run, E. reflexivity.
Qed.

Lemma processBatches_answered_head (net : Network) (batch : list CatalogNode)
      (rest : list (list CatalogNode)) (processed : list DisplayEntity) (s : State)
      (c : Container) :
  characterListContainer s = Some c ->
  forallb (answered net) batch = true ->
  processBatches net (batch :: rest) processed s =
  processBatches net rest (processed ++ map (entityOf net) batch)
    (log [Render (processed ++ map (entityOf net) batch) true]
       (set_characterListContainer
          (Some {| inDocument := inDocument c; searching := searching c;
                   children := children c
                                 ++ [renderItems (processed ++ map (entityOf net) batch)] |})
          (log (batchRequests net batch) s))).
Proof.
  intros C A. cbn [processBatches]. unfold bind at 1. rewrite processBatch_run.
  rewrite (promise_all_answered _ _ A).
  unfold bind at 1. unfold gets at 1. cbn [characterListContainer log]. rewrite C.
  unfold bind at 1. rewrite (@updateCharacterListInView_run _ _ c) by exact C.
  reflexivity.
Qed.

(** X10.  When some request of a batch is rejected, the enricher stops
    there: the batches before it were requested and rendered in order, the
    failed batch was requested, and neither a rendering of it nor a request
    of any later batch follows. *)
Theorem enricher_stops_at_rejected_batch (net : Network)
        (good : list (list CatalogNode)) (bad : list CatalogNode)
        (rest : list (list CatalogNode)) (processed : list DisplayEntity) (s : State) :
  hasContainer s = true ->
  forallb (answered net) (List.concat good) = true ->
  forallb (answered net) bad = false ->
  let outcome := processBatches net (good ++ bad :: rest) processed s in
  (exists e, fst outcome = Throw e)
  /\ trace (snd outcome) = trace s ++ enrichTrace net processed good ++ batchRequests net bad
  /\ deliveries (trace (snd outcome)) =
     deliveries (trace s) ++ accumulate processed (map (map (entityOf net)) good).
Proof.
  intros C G B. cbv zeta.
  assert (T : (exists e, fst (processBatches net (good ++ bad :: rest) processed s) = Throw e)
              /\ trace (snd (processBatches net (good ++ bad :: rest) processed s)) =
                 trace s ++ enrichTrace net processed good ++ batchRequests net bad).
  { revert processed s C G.
    induction good as [|batch good IH]; intros processed s C G.
    - destruct (promise_all_rejected _ _ B) as [e E].
      cbn [app enrichTrace]. rewrite (@processBatches_rejected_head net bad rest processed s e E).
      split; [exists e; reflexivity | reflexivity].
    - cbn [List.concat] in G. rewrite forallb_app in G.
      apply andb_true_iff in G as [G1 G2].
      unfold hasContainer in C.
      destruct (characterListContainer s) as [c|] eqn:CS; [|discriminate C].
      cbn [app enrichTrace].
      rewrite (@processBatches_answered_head net batch _ processed s c CS G1).
      match goal with |- context [processBatches net _ ?p ?s1] =>
        destruct (IH p s1) as (E & T); [reflexivity | exact G2 |]
      end.
      split; [exact E|]. rewrite T. cbn [trace log set_characterListContainer].
      rewrite <- !app_assoc. reflexivity. }
  destruct T as (E & T). split; [exact E|]. split; [exact T|].
  rewrite T, !deliveries_app, deliveries_enrichTrace, deliveries_batchRequests, app_nil_r.
  reflexivity.
Qed.

Lemma enricher_stops_at_rejected_batch_witness :
  requests (trace (snd (processBatches (backupRejectedNet [])
                          [[sampleNode 2]; [sampleNode 3]] [] openState)))
  = [downloadRequest "author/card2"; avatarRequest "author/card2"].
Proof.
  destruct (@enricher_stops_at_rejected_batch (backupRejectedNet []) []
              [sampleNode 2] [[sampleNode 3]] [] openState)
    as (_ & T & _); [reflexivity | reflexivity | reflexivity |].
  cbn [app] in T. rewrite T. reflexivity.
Defined.

(* ------------------------------------------------------------------ *)
(** ** Entities *)
(* ------------------------------------------------------------------ *)

Lemma string_of_list_ascii_app (a b : list ascii) :
  string_of_list_ascii (a ++ b) = (string_of_list_ascii a ++ string_of_list_ascii b)%string.
Proof. induction a as [|c a IH]; simpl; [reflexivity | rewrite IH; reflexivity]. Qed.

Lemma string_append_empty (s : string) : (s ++ "")%string = s.
Proof. induction s as [|c s IH]; simpl; [reflexivity | rewrite IH; reflexivity]. Qed.

Lemma string_append_assoc (a b c : string) : ((a ++ b) ++ c = a ++ (b ++ c))%string.
Proof. induction a as [|d a IH]; simpl; [reflexivity | rewrite IH; reflexivity]. Qed.

Lemma split_go_slash_head (cur : list ascii) (s : string) :
  exists a rest,
    hd "" (JsString.split_go "/" 0 cur s) =
      (string_of_list_ascii (rev cur) ++ a)%string
    /\ JsString.includes "/"%char a = false
    /\ (s = a \/ s = (a ++ "/" ++ rest)%string).
Proof.
  revert cur. induction s as [|c s IH]; intro cur.
  - exists "", "". simpl. rewrite string_append_empty. auto.
  - cbn [JsString.split_go prefix]. destruct (ascii_dec "/"%char c) as [E|N].
    + subst c. exists "", s. rewrite string_append_empty.
      destruct s; simpl; auto.
    + destruct (IH (c :: cur)) as (a & rest & H & I & D).
      exists (String c a), rest. rewrite H. cbn [rev].
      rewrite string_of_list_ascii_app. cbn [string_of_list_ascii].
      split; [rewrite string_append_assoc; reflexivity|].
      split.
      * cbn [JsString.includes]. rewrite I. rewrite orb_false_r.
        apply Ascii.eqb_neq. exact N.
      * destruct D as [D|D]; [left | right]; rewrite D; reflexivity.
Qed.

(** X11.  Every entity has a description that is not empty: the tagline of
    its node, or the placeholder when the tagline is absent or empty.  Its
    author is the part of [fullPath] before the first slash (all of it when
    there is none) and holds no slash; the image, the name, the path and
    the tags are those of the node and of the blob. *)
Theorem makeEntity_fields (node : CatalogNode) (blob : Blob) :
  let entity := makeEntity node blob in
  description entity <> ""
  /\ (forall t, node_tagline node = Some t -> t <> "" -> description entity = t)
  /\ (node_tagline node = None \/ node_tagline node = Some "" ->
      description entity = "Description here...")
  /\ JsString.includes "/"%char (author entity) = false
  /\ (exists rest, fullPath entity = author entity
                   \/ fullPath entity = (author entity ++ "/" ++ rest)%string)
  /\ url entity = blob /\ name entity = node_name node
  /\ fullPath entity = node_fullPath node /\ tags entity = node_topics node.
Proof.
  cbv zeta. unfold makeEntity, descriptionOf, authorOf, JsString.split.
  cbn [description author fullPath url name tags].
  split.
  - destruct (node_tagline node) as [t|]; [|discriminate].
    destruct (String.eqb t "") eqn:E; [discriminate|].
    apply String.eqb_neq in E. exact E.
  - split.
    + intros t H N. rewrite H. apply String.eqb_neq in N. rewrite N. reflexivity.
    + split; [intros [H|H]; rewrite H; reflexivity|].
      destruct (split_go_slash_head [] (node_fullPath node)) as (a & rest & H & I & D).
      cbn [rev string_of_list_ascii String.append] in H. rewrite H.
      split; [exact I|]. split; [exists rest; exact D|]. auto.
Qed.

Lemma makeEntity_fields_witness :
  description (makeEntity (sampleNode 1) emptyBlob) = "Description here...".
Proof.
  destruct (makeEntity_fields (sampleNode 1) emptyBlob) as (_ & _ & H & _).
  apply H. left. reflexivity.
Defined.

(* ------------------------------------------------------------------ *)
(** ** What the list shows after a search *)
(* ------------------------------------------------------------------ *)

Lemma processBatches_view (net : Network) (batches : list (list CatalogNode))
      (processed : list DisplayEntity) (s : State) (c : Container) :
  characterListContainer s = Some c ->
  forallb (answered net) (List.concat batches) = true ->
  exists s',
    processBatches net batches processed s =
      (Ok (processed ++ map (entityOf net) (List.concat batches)), s')
    /\ characterListContainer s' =
       Some {| inDocument := inDocument c; searching := searching c;
               children := children c
                             ++ map renderItems
                                  (accumulate processed (map (map (entityOf net)) batches)) |}
    /\ extension_settings s' = extension_settings s.
Proof.
  revert processed s c. induction batches as [|batch rest IH]; intros processed s c C A.
  - exists s. cbn. rewrite !app_nil_r. destruct c. auto.
  - cbn [List.concat] in A. rewrite forallb_app in A. apply andb_true_iff in A as [A1 A2].
    rewrite (@processBatches_answered_head net batch rest processed s c C A1).
    match goal with |- context [processBatches net rest ?p ?s1] =>
      destruct (IH p s1 _ eq_refl A2) as (s' & E & V & X)
    end.
    exists s'. rewrite E. cbn [List.concat map accumulate].
    rewrite map_app, !app_assoc. split; [reflexivity|]. split; [|exact X].
    rewrite V. cbn [inDocument searching children]. rewrite <- !app_assoc. reflexivity.
Qed.

Lemma make_batches_single A (nodes : list A) :
  nodes <> [] -> List.length nodes <= batchSize -> make_batches nodes = [nodes].
Proof.
  intros NE L. unfold make_batches. destruct nodes as [|a nodes]; [congruence|].
  cbn [List.length batches_from]. cbn [List.length] in L.
  replace (0 <? S (List.length nodes)) with true by (symmetry; apply Nat.ltb_lt; lia).
  unfold list_slice. cbn [skipn]. rewrite firstn_all2 by (cbn [List.length]; lia).
  f_equal. destruct (List.length nodes) as [|n] eqn:E; [reflexivity|].
  cbn [batches_from]. cbn [List.length]. rewrite E.
  replace (0 + batchSize <? S (S n)) with false by (symmetry; apply Nat.ltb_ge; lia).
  reflexivity.
Qed.

(** X12.  After a completed search that found something, the list holds
    this, as the markup that was parsed into it.  A fresh search leaves
    exactly one fragment, the markup of the new page: the items of its
    entities, indexed from 0, one after the other; what the list held
    before and what the enricher put there in between is gone.  A load-more
    search keeps what the list held and adds the fragments of the enricher
    (after every batch, the markup of everything processed so far) and then
    the markup of the whole page once more: with a page of at most 20
    results the markup of every new entity is there twice. *)
Theorem executeCharacterSearch_view (net : Network) (options : SearchOptions)
        (append : bool) (s : State) (c : Container)
        (request : Request) (r : Response) (sd : SearchData) (nodes : list CatalogNode) :
  characterListContainer s = Some c ->
  inDocument c = true ->
  hasMoreResults (resetPagination append s) = true ->
  searchRequest (extension_settings s)
                (with_page options (currentPage (resetPagination append s))) = Some request ->
  net request = Responded r ->
  resp_json r = Some sd ->
  sd_nodes sd = Some nodes ->
  nodes <> [] ->
  forallb (answered net) nodes = true ->
  let outcome := executeCharacterSearch net options append s in
  let page := renderItems (map (entityOf net) nodes) in
  fst outcome = Ok tt
  /\ containerChildren (snd outcome) =
     (if append then children c ++ renderedItems net (make_batches nodes) else []) ++ [page]
  /\ (append = true -> List.length nodes <= 20 ->
      containerChildren (snd outcome) = children c ++ [page; page])
  /\ (append = false -> containerChildren (snd outcome) = [page]).
Proof.
  intros C D G U H J N NE A. cbv zeta.
  assert (E : exists s',
             executeCharacterSearch net options append s = (Ok tt, s')
             /\ containerChildren s' =
                (if append then children c ++ renderedItems net (make_batches nodes) else [])
                  ++ [renderItems (map (entityOf net) nodes)]).
  { rewrite executeCharacterSearch_run by exact G.
    set (s0 := resetPagination append s) in *.
    assert (C0 : characterListContainer s0 = Some c) by (unfold s0; destruct append; exact C).
    assert (S0 : extension_settings s0 = extension_settings s) by apply resetPagination_settings.
    unfold bind at 1. rewrite searchCharacters_run.
    set (c1 := {| inDocument := inDocument c; searching := true; children := children c |}).
    assert (B : beginSearch s0 = set_characterListContainer (Some c1) s0).
    { unfold beginSearch, markSearching. rewrite C0, D. cbn [negb]. rewrite C0. reflexivity. }
    rewrite B. rewrite <- S0 in U.
    rewrite (@fetchCharactersBySearch_page net _ (set_characterListContainer (Some c1) s0)
               request r sd nodes U H J N).
    cbv zeta. replace (List.length nodes =? 0) with false
      by (symmetry; apply Nat.eqb_neq; destruct nodes; [congruence | discriminate]).
    unfold processCharacters.
    match goal with |- context [processBatches net _ [] ?s1] =>
      destruct (@processBatches_view net (make_batches nodes) [] s1 c1 eq_refl)
        as (s2 & P & V & _)
    end; [rewrite make_batches_concat; exact A|].
    rewrite P, make_batches_concat. cbn [app].
    unfold markSearching. cbn [characterListContainer set_chubCharacters]. rewrite V.
    unfold executeCharacterSearch_resume.
    replace (0 <? List.length (map (entityOf net) nodes)) with true
      by (symmetry; apply Nat.ltb_lt; rewrite length_map;
          destruct nodes; [congruence | simpl; lia]).
    unfold updateCharacterListInView, bind, gets, modify, emit, ret.
    cbn [characterListContainer set_characterListContainer fst snd].
    eexists. split; [reflexivity|].
    unfold containerChildren. cbn. unfold renderedItems. destruct append; reflexivity. }
  destruct E as (s' & E & V). rewrite E. cbn [fst snd].
  split; [reflexivity|]. split; [exact V|]. split.
  - intros -> L. rewrite V. rewrite make_batches_single by assumption.
    unfold renderedItems. cbn [map accumulate app]. rewrite <- app_assoc.
    reflexivity.
  - intros ->. exact V.
Qed.

Lemma executeCharacterSearch_view_witness :
  List.length (containerChildren pageOneState) = 1 /\
  List.length (containerChildren
                 (snd (executeCharacterSearch (healthyNet (sampleNodes 10)) elfOptions true
                                              pageTwoRequested))) = 3.
Proof.
  split; [reflexivity|].
  edestruct executeCharacterSearch_view
    with (net := healthyNet (sampleNodes 10)) (options := elfOptions) (append := true)
         (s := pageTwoRequested)
         (c := {| inDocument := true; searching := false;
                  children := containerChildren pageOneState |})
         (r := page200 (sampleNodes 10)) (sd := {| sd_nodes := Some (sampleNodes 10) |})
         (nodes := sampleNodes 10)
    as (_ & _ & H & _);
    [reflexivity | reflexivity | reflexivity | reflexivity | reflexivity | reflexivity
     | reflexivity | discriminate | reflexivity |].
  rewrite H; [reflexivity | reflexivity | vm_compute; lia].
Defined.

(* ------------------------------------------------------------------ *)
(** ** The [searching] class and a container that left the document *)
(* ------------------------------------------------------------------ *)

Lemma sameSearching_refl (s : State) : sameSearching s s.
Proof. reflexivity. Qed.

Lemma sameSearching_trans (a b c : State) :
  sameSearching a b -> sameSearching b c -> sameSearching a c.
Proof. unfold sameSearching. congruence. Qed.

Lemma staysDetached_refl (s : State) : staysDetached s s.
Proof. intro H. auto. Qed.

Lemma staysDetached_trans (a b c : State) :
  staysDetached a b -> staysDetached b c -> staysDetached a c.
Proof.
  intros H1 H2 N. destruct (H1 N) as [N1 D1]. destruct (H2 N1) as [N2 D2].
  split; [exact N2 | congruence].
Qed.

Lemma staysDetached_log (evs : list Event) (s : State) :
  deliveries evs = [] -> staysDetached s (log evs s).
Proof.
  intros E N. split; [exact N|]. cbn [trace log]. rewrite deliveries_app, E.
  apply app_nil_r.
Qed.

Section View.

Variable net : Network.

Lemma updateCharacterListInView_sameSearching (characters : list DisplayEntity)
      (append : bool) :
  preserves sameSearching (updateCharacterListInView characters append).
Proof.
  intro s. unfold updateCharacterListInView, bind, gets, modify, emit, ret.
  unfold sameSearching, searchingFlag. destruct (characterListContainer s) eqn:C;
    cbn; rewrite ?C; reflexivity.
Qed.

Lemma updateCharacterListInView_staysDetached (characters : list DisplayEntity)
      (append : bool) :
  preserves staysDetached (updateCharacterListInView characters append).
Proof.
  intros s N. rewrite updateCharacterListInView_none by exact N. auto.
Qed.

Lemma processBatches_sameSearching (batches : list (list CatalogNode))
      (processed : list DisplayEntity) :
  preserves sameSearching (processBatches net batches processed).
Proof.
  revert processed. induction batches as [|batch rest IH]; intro processed;
    cbn [processBatches].
  - apply (@preserves_ret _ sameSearching_refl).
  - apply (preserves_bind sameSearching_trans);
      [intro s; rewrite processBatch_run; reflexivity | intro results].
    apply (preserves_bind sameSearching_trans);
      [apply (@preserves_gets _ sameSearching_refl) | intro container].
    apply (preserves_bind sameSearching_trans); [| intro; apply IH].
    destruct container;
      [apply updateCharacterListInView_sameSearching
      | apply (@preserves_ret _ sameSearching_refl)].
Qed.

Lemma processBatches_staysDetached (batches : list (list CatalogNode))
      (processed : list DisplayEntity) :
  preserves staysDetached (processBatches net batches processed).
Proof.
  revert processed. induction batches as [|batch rest IH]; intro processed;
    cbn [processBatches].
  - apply (@preserves_ret _ staysDetached_refl).
  - apply (preserves_bind staysDetached_trans);
      [intro s; rewrite processBatch_run; apply staysDetached_log,
         deliveries_batchRequests | intro results].
    apply (preserves_bind staysDetached_trans);
      [apply (@preserves_gets _ staysDetached_refl) | intro container].
    apply (preserves_bind staysDetached_trans); [| intro; apply IH].
    destruct container;
      [apply updateCharacterListInView_staysDetached
      | apply (@preserves_ret _ staysDetached_refl)].
Qed.

Lemma fetchCharactersBySearch_sameSearching (options : SearchOptions) :
  preserves sameSearching (fetchCharactersBySearch net options).
Proof.
  unfold fetchCharactersBySearch, fetch, fetch_start, fetch_await, processCharacters.
  frame_with sameSearching_refl sameSearching_trans ltac:(intro; reflexivity).
  apply processBatches_sameSearching.
Qed.

Lemma fetchCharactersBySearch_staysDetached (options : SearchOptions) :
  preserves staysDetached (fetchCharactersBySearch net options).
Proof.
  unfold fetchCharactersBySearch, fetch, fetch_start, fetch_await, processCharacters.
  frame_with staysDetached_refl staysDetached_trans
             ltac:(intro;
                   first [apply staysDetached_log; reflexivity
                         | intro N; split; [exact N | reflexivity]]).
  apply processBatches_staysDetached.
Qed.

End View.

(** X13.  [searchCharacters] greys the list out while it searches and
    removes the grey only when the search resolves: after a search that ends
    with an error the list still carries the [searching] class.  A container
    that is no longer in the document is forgotten at the start: the search
    then runs without rendering anything and leaves no container. *)
Theorem searchCharacters_searching_class (net : Network) (options : SearchOptions)
        (s : State) (c : Container) :
  characterListContainer s = Some c ->
  let outcome := searchCharacters net options s in
  (inDocument c = true ->
   searchingFlag (snd outcome) =
   Some (match fst outcome with Ok _ => false | Throw _ => true end))
  /\ (inDocument c = false ->
      characterListContainer (snd outcome) = None
      /\ deliveries (trace (snd outcome)) = deliveries (trace s)).
Proof.
  intro C. cbv zeta. rewrite searchCharacters_run. split.
  - intro D.
    assert (B : searchingFlag (beginSearch s) = Some true).
    { unfold beginSearch, markSearching, searchingFlag. rewrite C, D. cbn [negb].
      rewrite C. reflexivity. }
    pose proof (fetchCharactersBySearch_sameSearching net options (beginSearch s)) as F.
    unfold sameSearching in F. rewrite B in F.
    destruct (fetchCharactersBySearch net options (beginSearch s)) as [[cs|e] s1];
      cbn [fst snd] in *; [|exact F].
    unfold searchingFlag in *. unfold markSearching.
    destruct (characterListContainer s1); [reflexivity | discriminate F].
  - intro D.
    assert (B : beginSearch s = set_characterListContainer None s).
    { unfold beginSearch, markSearching. rewrite C, D. reflexivity. }
    pose proof (fetchCharactersBySearch_staysDetached net options (beginSearch s)) as F.
    rewrite B in *. destruct (F eq_refl) as [N T]. cbn [trace set_characterListContainer] in T.
    destruct (fetchCharactersBySearch net options (set_characterListContainer None s))
      as [[cs|e] s1]; cbn [fst snd] in *; [|auto].
    unfold markSearching. rewrite N. auto.
Qed.

Lemma searchCharacters_searching_class_witness :
  searchingFlag (snd (searchCharacters deadNet elfOptions openState)) = Some true /\
  characterListContainer (snd (searchCharacters (healthyNet (sampleNodes 3)) elfOptions
                                                closedState)) = None.
Proof.
  split.
  - destruct (@searchCharacters_searching_class deadNet elfOptions openState emptyContainer
                eq_refl) as [H _].
    rewrite (H eq_refl). reflexivity.
  - destruct (@searchCharacters_searching_class (healthyNet (sampleNodes 3)) elfOptions
                closedState detachedContainer eq_refl) as [_ H].
    destruct (H eq_refl) as [N _]. exact N.
Defined.

(* ------------------------------------------------------------------ *)
(** ** Load more *)
(* ------------------------------------------------------------------ *)

Lemma executeCharacterSearch_append_keeps_page (net : Network) (options : SearchOptions) :
  preserves (keeps currentPage) (executeCharacterSearch net options true).
Proof.
  unfold executeCharacterSearch, executeCharacterSearch_resume. cbn [negb when].
  keeps_frame currentPage;
    first [ apply searchCharacters_keeps | apply updateCharacterListInView_keeps ];
    reflexivity.
Qed.

Lemma executeCharacterSearch_resume_grows (characters : list DisplayEntity) (append : bool) :
  preserves grows (executeCharacterSearch_resume characters append).
Proof.
  unfold executeCharacterSearch_resume, updateCharacterListInView. grows_frame.
Qed.

Lemma executeCharacterSearch_first_request (net : Network) (options : SearchOptions)
      (append : bool) (s : State) (request : Request) :
  hasMoreResults (resetPagination append s) = true ->
  searchRequest (extension_settings s)
                (with_page options (currentPage (resetPagination append s))) = Some request ->
  exists evs,
    trace (snd (executeCharacterSearch net options append s)) =
    trace s ++ Fetch request :: evs.
Proof.
  intros G U. rewrite executeCharacterSearch_run by exact G.
  rewrite <- (resetPagination_settings append s) in U.
  pose proof (@bind_first _ _
                (searchCharacters net (with_page options (currentPage (resetPagination append s))))
                (fun cs => executeCharacterSearch_resume cs append)
                (resetPagination append s) _
                (@searchCharacters_first_request net _ (resetPagination append s) request U)
                (fun cs => executeCharacterSearch_resume_grows cs append)) as [evs E].
  exists evs. rewrite E. destruct append; reflexivity.
Qed.

Lemma executeCharacterSearch_rejected_state (net : Network) (options : SearchOptions)
      (s : State) (request : Request) :
  searchRequest (extension_settings s) (with_page options (currentPage s)) = Some request ->
  net request = Rejected ->
  hasMoreResults s = true ->
  executeCharacterSearch net options true s =
  (Throw (NetworkError request), log [Fetch request] (beginSearch s)).
Proof.
  intros U H G.
  pose proof (@fetchCharactersBySearch_rejected net (with_page options (currentPage s))
                (beginSearch s) request) as R.
  rewrite beginSearch_settings in R. specialize (R U H).
  rewrite executeCharacterSearch_run by exact G. cbn [resetPagination].
  unfold bind at 1. rewrite searchCharacters_run, R. reflexivity.
Qed.

Lemma executeCharacterSearch_malformed_state (net : Network) (options : SearchOptions)
      (s : State) :
  searchRequest (extension_settings s) (with_page options (currentPage s)) = None ->
  hasMoreResults s = true ->
  executeCharacterSearch net options true s = (Throw URIError, beginSearch s).
Proof.
  intros U G. rewrite executeCharacterSearch_run by exact G. cbn [resetPagination].
  unfold bind at 1. rewrite (@searchCharacters_malformed net _ _ U). reflexivity.
Qed.

(** X14.  A load-more that starts always resolves, because its errors are
    caught and logged, and it always moves [currentPage] forward by one: its
    first request asks for the page after the current one.  When that
    request is rejected, or cannot be built, nothing else is sent, the
    error goes to the console, the entity list and [hasMoreResults] stay as
    they were and the guard is released, but [currentPage] stays advanced:
    the next load-more asks for the page after the one that failed. *)
Theorem scrollHandler_advances_page (net : Network) (g : ScrollGeometry) (form : Form)
        (s : State) :
  startsSearch (LoadMore g form) s = true ->
  let outcome := scrollHandler net g form s in
  let params := formOptions form scrollTags (currentPage s + 1) in
  fst outcome = Ok tt
  /\ currentPage (snd outcome) = currentPage s + 1
  /\ (forall request,
        searchRequest (extension_settings s) params = Some request ->
        (exists evs, trace (snd outcome) = trace s ++ Fetch request :: evs)
        /\ (net request = Rejected ->
            trace (snd outcome) =
              trace s ++ [Fetch request; ConsoleError "Infinite scroll error:"]
            /\ hasMoreResults (snd outcome) = true
            /\ chubCharacters (snd outcome) = chubCharacters s
            /\ isLoading (snd outcome) = false))
  /\ (searchRequest (extension_settings s) params = None ->
      trace (snd outcome) = trace s ++ [ConsoleError "Infinite scroll error:"]
      /\ hasMoreResults (snd outcome) = true
      /\ chubCharacters (snd outcome) = chubCharacters s
      /\ isLoading (snd outcome) = false).
Proof.
  cbn [startsSearch]. intro H. cbv zeta.
  apply andb_true_iff in H as [H H4]. apply andb_true_iff in H as [H H3].
  apply andb_true_iff in H as [H1 H2]. apply negb_true_iff in H1.
  set (params := formOptions form scrollTags (currentPage s + 1)).
  set (s1 := set_currentPage (currentPage s + 1) (set_isLoading true s)).
  assert (U : scrollHandler net g form s =
              finally (catch (executeCharacterSearch net params true)
                             (fun _ => emit (ConsoleError "Infinite scroll error:")))
                      (modify (set_isLoading false)) s1).
  { unfold scrollHandler. unfold bind at 1. unfold gets at 1.
    unfold bind at 1. unfold gets at 1. rewrite H1, H2. cbn [negb orb].
    unfold bind at 1. unfold gets at 1. unfold hasContainer in H3.
    destruct (characterListContainer s); [|discriminate H3].
    rewrite H4. reflexivity. }
  rewrite U. clear U.
  pose proof (executeCharacterSearch_append_keeps_page net params s1) as K.
  unfold keeps in K. unfold finally, catch, emit, modify.
  split; [|split; [|split]].
  - destruct (executeCharacterSearch net params true s1) as [[[]|e] sx]; reflexivity.
  - destruct (executeCharacterSearch net params true s1) as [[[]|e] sx];
      cbn [fst snd] in *; exact K.
  - intros request Q. split.
    + destruct (@executeCharacterSearch_first_request net params true s1 request H2 Q)
        as [evs T].
      destruct (executeCharacterSearch net params true s1) as [[[]|e] sx];
        cbn [fst snd] in *.
      * exists evs. exact T.
      * exists (evs ++ [ConsoleError "Infinite scroll error:"]).
        cbn [trace log set_isLoading]. rewrite T.
        change (trace s1) with (trace s). rewrite <- app_assoc. reflexivity.
    + intro R.
      rewrite (@executeCharacterSearch_rejected_state net params s1 request Q R H2).
      cbn [fst snd trace log set_isLoading hasMoreResults chubCharacters isLoading].
      rewrite (beginSearch_keeps trace), (beginSearch_keeps hasMoreResults),
        (beginSearch_keeps chubCharacters) by reflexivity.
      change (trace s1) with (trace s). rewrite <- app_assoc.
      repeat split; [exact H2].
  - intro Q.
    rewrite (@executeCharacterSearch_malformed_state net params s1 Q H2).
    cbn [fst snd trace log set_isLoading hasMoreResults chubCharacters isLoading].
    rewrite (beginSearch_keeps trace), (beginSearch_keeps hasMoreResults),
      (beginSearch_keeps chubCharacters) by reflexivity.
    repeat split; [exact H2].
Qed.

Lemma scrollHandler_advances_page_witness :
  currentPage (snd (scrollHandler deadNet atBottom elfForm pageOneState)) = 2 /\
  hasMoreResults (snd (scrollHandler deadNet atBottom elfForm pageOneState)) = true.
Proof.
  destruct (@scrollHandler_advances_page deadNet atBottom elfForm pageOneState eq_refl)
    as (_ & P & R & _).
  split; [exact P|].
  edestruct R as [_ R']; [vm_compute; reflexivity|].
  destruct (R' eq_refl) as (_ & M & _). exact M.
Defined.

(* ------------------------------------------------------------------ *)
(** ** Between operations *)
(* ------------------------------------------------------------------ *)

Lemma pageStaysPositive_refl (s : State) : pageStaysPositive s s.
Proof. intro H; exact H. Qed.

Lemma pageStaysPositive_trans (a b c : State) :
  pageStaysPositive a b -> pageStaysPositive b c -> pageStaysPositive a c.
Proof. unfold pageStaysPositive; auto. Qed.

Lemma preserves_keeps_pagePositive A (m : M A) :
  preserves (keeps currentPage) m -> preserves pageStaysPositive m.
Proof. intros H s P. rewrite (H s). exact P. Qed.

Ltac page_frame :=
  frame_with pageStaysPositive_refl pageStaysPositive_trans
             ltac:(let s := fresh in let H := fresh in
                   intros s H; cbn; first [exact H | lia]).

Lemma executeCharacterSearch_pagePositive (net : Network) (options : SearchOptions)
      (append : bool) :
  preserves pageStaysPositive (executeCharacterSearch net options append).
Proof.
  unfold executeCharacterSearch, executeCharacterSearch_resume. page_frame;
    apply preserves_keeps_pagePositive;
    first [ apply searchCharacters_keeps | apply updateCharacterListInView_keeps ];
    reflexivity.
Qed.

Lemma runOperation_pagePositive (net : Network) (op : SearchOperation) :
  preserves pageStaysPositive (runOperation net op).
Proof.
  destruct op as [e form | g form | options]; cbn [runOperation].
  - unfold handleSearch. page_frame. intros; apply executeCharacterSearch_pagePositive.
  - unfold scrollHandler. cbv zeta. page_frame.
    intros; apply executeCharacterSearch_pagePositive.
  - unfold executeCharacterSearchDebounced. page_frame.
    intros; apply executeCharacterSearch_pagePositive.
Qed.

Lemma runOperation_keeps_guard_down (net : Network) (op : SearchOperation) (s : State) :
  isLoading s = false -> isLoading (snd (runOperation net op s)) = false.
Proof.
  intro L. destruct op as [e form | g form | options]; cbn [runOperation].
  - unfold handleSearch. destruct (ignoredKey e); [exact L|].
    cbv beta iota delta [bind modify gets].
    match goal with |- isLoading (snd (executeCharacterSearch net ?o false ?s0)) = false =>
      pose proof (executeCharacterSearch_notRaised net o false s0) as N
    end.
    unfold notRaised in N. cbn [isLoading set_isLoading] in N.
    match goal with |- ?b = false => destruct b; [discriminate (N eq_refl) | reflexivity] end.
  - unfold scrollHandler. unfold bind at 1. unfold gets at 1.
    unfold bind at 1. unfold gets at 1. rewrite L. cbn [orb].
    destruct (hasMoreResults s); cbn [negb]; [|exact L].
    unfold bind at 1. unfold gets at 1.
    destruct (characterListContainer s); [|exact L].
    destruct (_ <? _)%Z; [|exact L].
    cbv beta iota zeta delta [bind modify gets]. apply finally_clears.
  - unfold executeCharacterSearchDebounced. unfold bind at 1. unfold gets at 1.
    rewrite L. cbn [negb]. cbv beta iota delta [bind modify]. apply finally_clears.
Qed.

(** X15.  Between operations the guard is down and the current page is at
    least 1: starting from such a state, any sequence of searches,
    load-mores and debounced searches, against any behaviour of the
    network and whether they fail or not, ends in such a state. *)
Theorem idle_state_invariant (steps : list (Network * SearchOperation)) (s : State) :
  isLoading s = false ->
  1 <= currentPage s ->
  isLoading (runOperations steps s) = false /\ 1 <= currentPage (runOperations steps s).
Proof.
  revert s. induction steps as [|[net op] steps IH]; intros s L P; [auto|].
  cbn [runOperations]. apply IH.
  - apply runOperation_keeps_guard_down, L.
  - apply (runOperation_pagePositive net op s), P.
Qed.

Lemma idle_state_invariant_witness :
  isLoading (runOperations [(deadNet, LoadMore atBottom elfForm);
                            (healthyNet (sampleNodes 3), FreshSearch clickSearch elfForm)]
                           openState) = false.
Proof.
  destruct (@idle_state_invariant
              [(deadNet, LoadMore atBottom elfForm);
               (healthyNet (sampleNodes 3), FreshSearch clickSearch elfForm)]
              openState eq_refl) as [H _]; [simpl; lia | exact H].
Defined.

(* ------------------------------------------------------------------ *)
(** ** The two readers of the tag fields *)
(* ------------------------------------------------------------------ *)

Lemma blank_app (a b : Utf16.text) : blank (a ++ b) = blank a && blank b.
Proof. apply forallb_app. Qed.

Lemma blank_rev (s : Utf16.text) : blank (rev s) = blank s.
Proof.
  induction s as [|c s IH]; [reflexivity|].
  cbn [rev]. rewrite blank_app, IH. cbn [blank forallb]. rewrite andb_true_r.
  apply andb_comm.
Qed.

Lemma includes_app (c : Utf16.CodeUnit) (a b : Utf16.text) :
  Utf16.includes c (a ++ b) = Utf16.includes c a || Utf16.includes c b.
Proof. apply existsb_app. Qed.

Lemma spaces_without (c : Utf16.CodeUnit) (sp : Utf16.text) :
  Utf16.is_space c = false ->
  blank sp = true ->
  Utf16.includes c sp = false.
Proof.
  intros N. unfold Utf16.includes. induction sp as [|d sp IH]; intro A; [reflexivity|].
  cbn [blank forallb] in A. apply andb_true_iff in A as [A1 A2].
  cbn [existsb]. rewrite (IH A2), orb_false_r.
  destruct (Utf16.eqb c d) eqn:E; [|reflexivity].
  apply codeUnit_eqb_eq in E. subst d. congruence.
Qed.

Lemma trim_start_split (s : Utf16.text) :
  exists sp, blank sp = true /\ s = sp ++ Utf16.trim_start s.
Proof.
  induction s as [|c s (sp & A & E)].
  - exists []. split; reflexivity.
  - cbn [Utf16.trim_start]. destruct (Utf16.is_space c) eqn:S.
    + exists (c :: sp). split.
      * cbn [blank forallb]. rewrite S. exact A.
      * cbn [app]. rewrite <- E. reflexivity.
    + exists []. split; reflexivity.
Qed.

Lemma trim_start_spaces_app (sp s : Utf16.text) :
  blank sp = true -> Utf16.trim_start (sp ++ s) = Utf16.trim_start s.
Proof.
  induction sp as [|c sp IH]; intro A; [reflexivity|].
  cbn [blank forallb] in A. apply andb_true_iff in A as [A1 A2].
  cbn [app Utf16.trim_start]. rewrite A1. apply IH, A2.
Qed.

Lemma trim_start_spaces (sp : Utf16.text) : blank sp = true -> Utf16.trim_start sp = [].
Proof.
  intro A. rewrite <- (app_nil_r sp).
  rewrite trim_start_spaces_app by exact A. reflexivity.
Qed.

Lemma trim_start_app (x sp : Utf16.text) :
  blank sp = true ->
  (Utf16.trim_start x = [] /\ Utf16.trim_start (x ++ sp) = [])
  \/ Utf16.trim_start (x ++ sp) = Utf16.trim_start x ++ sp.
Proof.
  intro A. induction x as [|c x IH].
  - left. split; [reflexivity|]. apply trim_start_spaces, A.
  - cbn [app Utf16.trim_start].
    destruct (Utf16.is_space c); [exact IH|]. right. reflexivity.
Qed.

Lemma trim_leading (sp x : Utf16.text) :
  blank sp = true -> Utf16.trim (sp ++ x) = Utf16.trim x.
Proof.
  intro A. unfold Utf16.trim. rewrite trim_start_spaces_app by exact A. reflexivity.
Qed.

Lemma trim_trailing (x sp : Utf16.text) :
  blank sp = true -> Utf16.trim (x ++ sp) = Utf16.trim x.
Proof.
  intro A. unfold Utf16.trim.
  destruct (@trim_start_app x sp A) as [[E1 E2]|E].
  - rewrite E1, E2. reflexivity.
  - rewrite E, rev_app_distr, trim_start_spaces_app; [reflexivity|].
    rewrite blank_rev. exact A.
Qed.

Lemma trim_decompose (v : Utf16.text) :
  exists a b, blank a = true /\ blank b = true /\ v = a ++ Utf16.trim v ++ b.
Proof.
  destruct (trim_start_split v) as (a & A & E).
  destruct (trim_start_split (rev (Utf16.trim_start v))) as (b & B & F).
  exists a, (rev b). split; [exact A|]. split.
  - rewrite blank_rev. exact B.
  - unfold Utf16.trim. rewrite <- rev_app_distr, <- F, rev_involutive. exact E.
Qed.

Lemma split_go_cur (cur : list Utf16.CodeUnit) (s : Utf16.text) :
  Utf16.split_go Utf16.comma cur s =
  match Utf16.split_go Utf16.comma [] s with
  | [] => []
  | x :: rest => (rev cur ++ x) :: rest
  end.
Proof.
  revert cur. induction s as [|c s IH]; intro cur.
  - cbn. rewrite app_nil_r. reflexivity.
  - cbn [Utf16.split_go]. destruct (Utf16.eqb Utf16.comma c).
    + cbn. rewrite app_nil_r. reflexivity.
    + rewrite (IH (c :: cur)), (IH [c]).
      destruct (Utf16.split_go Utf16.comma [] s) as [|x rest]; [reflexivity|].
      cbn [rev app]. rewrite <- app_assoc. reflexivity.
Qed.

Lemma split_leading (sp s : Utf16.text) :
  blank sp = true ->
  map Utf16.trim (Utf16.split_go Utf16.comma [] (sp ++ s)) =
  map Utf16.trim (Utf16.split_go Utf16.comma [] s).
Proof.
  induction sp as [|c sp IH]; intro A; [reflexivity|].
  cbn [blank forallb] in A. apply andb_true_iff in A as [A1 A2].
  cbn [app Utf16.split_go].
  destruct (Utf16.eqb Utf16.comma c) eqn:E;
    [apply codeUnit_eqb_eq in E; subst c; discriminate A1|].
  rewrite split_go_cur, <- (IH A2).
  destruct (Utf16.split_go Utf16.comma [] (sp ++ s)) as [|x rest]; [reflexivity|].
  cbn [map rev app].
  change (c :: x) with ([c] ++ x).
  rewrite trim_leading; [reflexivity|]. cbn [blank forallb]. rewrite A1. reflexivity.
Qed.

Lemma split_trailing (cur : list Utf16.CodeUnit) (s sp : Utf16.text) :
  blank sp = true ->
  map Utf16.trim (Utf16.split_go Utf16.comma cur (s ++ sp)) =
  map Utf16.trim (Utf16.split_go Utf16.comma cur s).
Proof.
  intro A. revert cur. induction s as [|c s IH]; intro cur.
  - cbn [app]. rewrite split_go_last by (apply spaces_without; [reflexivity | exact A]).
    cbn [Utf16.split_go map]. rewrite trim_trailing by exact A. reflexivity.
  - cbn [app Utf16.split_go].
    destruct (Utf16.eqb Utf16.comma c); cbn [map]; rewrite IH; reflexivity.
Qed.

Lemma splitAndTrim_closed_form (v : Utf16.text) :
  splitAndTrim v = map Utf16.trim (Utf16.split Utf16.comma v).
Proof.
  unfold splitAndTrim, Utf16.split.
  destruct (trim_decompose v) as (a & b & A & B & E).
  assert (I : Utf16.includes Utf16.comma v = Utf16.includes Utf16.comma (Utf16.trim v)).
  { rewrite E at 1. rewrite !includes_app.
    rewrite (@spaces_without Utf16.comma a eq_refl A),
      (@spaces_without Utf16.comma b eq_refl B).
    rewrite orb_false_r. reflexivity. }
  destruct (Utf16.includes Utf16.comma (Utf16.trim v)) eqn:C; cbn [negb].
  - remember (Utf16.trim v) as t eqn:T. clear T I C. subst v.
    rewrite split_leading by exact A. rewrite split_trailing by exact B. reflexivity.
  - rewrite split_go_last by exact I. reflexivity.
Qed.

Lemma split_go_nonempty (sep : Utf16.CodeUnit) (cur : list Utf16.CodeUnit) (s : Utf16.text) :
  Utf16.split_go sep cur s <> [].
Proof.
  revert cur. induction s as [|c s IH]; intro cur; [discriminate|].
  cbn [Utf16.split_go]. destruct (Utf16.eqb sep c); [discriminate | apply IH].
Qed.

Lemma filterTags_map_trim (l : list Utf16.text) :
  filterTags (map Utf16.trim (filterTags l)) = filterTags (map Utf16.trim l).
Proof.
  unfold filterTags. induction l as [|x l IH]; [reflexivity|].
  destruct x as [|c x].
  - cbn. exact IH.
  - cbn [filter map]. change (0 <? List.length (c :: x)) with true.
    cbn [filter map].
    destruct (0 <? List.length (Utf16.trim (c :: x))); rewrite IH; reflexivity.
Qed.

Lemma tagsParameter_filterTags (key : string) (a b : list Utf16.text) :
  filterTags a = filterTags b -> tagsParameter key a = tagsParameter key b.
Proof. unfold tagsParameter, tagsValue. intros ->. reflexivity. Qed.

Lemma parsers_filterTags (v : Utf16.text) :
  filterTags (scrollTags v) = filterTags (splitAndTrim v).
Proof.
  rewrite splitAndTrim_closed_form. unfold scrollTags. apply filterTags_map_trim.
Qed.

(** X16.  [splitAndTrim] of the search handler is [split(',')] followed by
    a [trim] of every piece: the [trim] of the whole field and the special
    case for a field without a comma change nothing.  It never returns an
    empty list, a blank field gives the one empty tag that the query builder
    filters out, and the scroll handler's reader, which drops empty pieces
    before it trims, leaves the same non-empty tags as [splitAndTrim]
    does. *)
Theorem splitAndTrim_spec (v : Utf16.text) :
  splitAndTrim v = map Utf16.trim (Utf16.split Utf16.comma v)
  /\ splitAndTrim v <> []
  /\ (blank v = true -> splitAndTrim v = [[]])
  /\ filterTags (scrollTags v) = filterTags (splitAndTrim v).
Proof.
  split; [apply splitAndTrim_closed_form|]. split; [|split].
  - rewrite splitAndTrim_closed_form. unfold Utf16.split.
    pose proof (@split_go_nonempty Utf16.comma [] v) as N.
    destruct (Utf16.split_go Utf16.comma [] v); [congruence | discriminate].
  - intro A. rewrite splitAndTrim_closed_form. unfold Utf16.split.
    rewrite split_go_last by (apply spaces_without; [reflexivity | exact A]).
    cbn [rev app map].
    rewrite <- (app_nil_r v), (@trim_leading v [] A). reflexivity.
  - apply parsers_filterTags.
Qed.

Lemma splitAndTrim_spec_witness :
  splitAndTrim (Utf16.of_string "   " ++ [Utf16.of_code 0x3000]) = [[]].
Proof.
  destruct (splitAndTrim_spec (Utf16.of_string "   " ++ [Utf16.of_code 0x3000]))
    as (_ & _ & B & _).
  apply B. reflexivity.
Defined.

(** X17.  For the same form fields and the same page number, the scroll
    handler and the search handler send the same search request, or both
    fail to build one: the two ways of reading the tag fields lead to the
    same URL.  So a load-more asks for the next page of the very query a
    search would send. *)
Theorem handlers_build_same_request (settings : Settings) (form : Form) (p : nat) :
  searchRequest settings (formOptions form scrollTags p) =
  searchRequest settings (formOptions form splitAndTrim p).
Proof.
  unfold searchRequest, searchUrl, baseUrl. cbn [formOptions includeTags excludeTags
    searchTerm nsfw sort page].
  rewrite (@tagsParameter_filterTags "tags" _ _ (parsers_filterTags (includeTagsInput form))).
  rewrite (@tagsParameter_filterTags "exclude_tags" _ _
             (parsers_filterTags (excludeTagsInput form))).
  reflexivity.
Qed.
